(** * natural-gallery-js: the disclosure controller of [src/app/js/Gallery.ts]

    A shallow embedding of the rendering / pagination logic of the [Gallery]
    class: [addItems], [addElements], [getRowsPerPage], [resize], [reset],
    the scroll listener installed by [bindScroll], [pagination] and
    [getMaxImagesPerRow]; then the constructor, the setter of
    [collection], [refresh], the click listener of the "next" button,
    [select] and [unselect].

    Conventions of the embedding.
    - The gallery object is a record; every method is a function from the
      record (and the DOM measurements it reads) to a [Completion], which
      is either a normal return or a thrown [TypeError], both carrying the
      object as the method left it (a JavaScript exception does not undo
      the assignments made before it).
    - No filter of the header is active (or there is no header, as with
      the default options), so the getter [collection] is the field
      [_collection]; the elements that only a header adds to the page are
      optional in the model.
    - [Organizer] and [Item] are not part of this source file: the layout
      is a parameter of the controller, and a row-packing instance written
      after the specification is given for concrete runs. *)

From Stdlib Require Import ZArith List Lia Bool Arith PeanoNat.
From Stdlib Require Import SpecFloat.
From Stdlib Require String.
Import ListNotations.

Set Implicit Arguments.

(* ================================================================== *)
(** ** JavaScript numbers *)
(* ================================================================== *)

Module JS.

(** Row counts and item counts are integers, extended with the three
    special values a division or [Math.max] can produce.  [Int z] is the
    double whose value is the integer [z]. *)
Inductive number : Type :=
| Int (z : Z)
| PInf
| NInf
| NaN.

(** [a + b], on row numbers and row counts: integers far below 2^53,
    where the sum of two doubles is the exact one. *)
Definition add (a b : number) : number :=
  match a, b with
  | NaN, _ | _, NaN => NaN
  | PInf, NInf | NInf, PInf => NaN
  | PInf, _ | _, PInf => PInf
  | NInf, _ | _, NInf => NInf
  | Int x, Int y => Int (x + y)
  end.

(** [a < b] *)
Definition ltb (a b : number) : bool :=
  match a, b with
  | NaN, _ | _, NaN => false
  | Int x, Int y => (x <? y)%Z
  | NInf, NInf => false
  | NInf, _ => true
  | _, NInf => false
  | PInf, _ => false
  | Int _, PInf => true
  end.

(** [ToNumber] of an argument that is a number or [null]. *)
Definition ToNumber (v : option number) : number :=
  match v with
  | None => Int 0
  | Some n => n
  end.

(** *** IEEE 754 binary64, for the division and the products *)

Definition prec : Z := 53.
Definition emax : Z := 1024.

(** The double that an integer converts to. *)
Definition of_Z (z : Z) : spec_float := binary_normalize prec emax z 0 false.

(** The literal [0.7]: the double nearest to 7/10. *)
Definition lit_0_7 : spec_float := S754_finite false 6305039478318694 (-53).

Definition fmul : spec_float -> spec_float -> spec_float := SFmul prec emax.
Definition fdiv : spec_float -> spec_float -> spec_float := SFdiv prec emax.

(** [Math.floor] *)
Definition Math_floor (x : spec_float) : number :=
  match x with
  | S754_zero _ => Int 0
  | S754_infinity s => if s then NInf else PInf
  | S754_nan => NaN
  | S754_finite s m e =>
      let n := if s then Z.neg m else Z.pos m in
      match e with
      | Z0 => Int n
      | Z.pos p => Int (n * 2 ^ Z.pos p)
      | Z.neg p => Int (n / 2 ^ Z.pos p)
      end
  end.

(** The double nearest to the integer [z] (ties to even), read back as a
    number: an integer below 2^53 in magnitude is kept, a larger one is
    rounded, and one past the range of the doubles becomes an infinity. *)
Definition nearest (z : Z) : number := Math_floor (of_Z z).

(** [a * b] on doubles that hold integers: the exact product, rounded to
    the nearest double. *)
Definition mul (a b : number) : number :=
  match a, b with
  | NaN, _ | _, NaN => NaN
  | Int x, Int y => nearest (x * y)
  | Int x, PInf | PInf, Int x =>
      if (x =? 0)%Z then NaN else if (0 <? x)%Z then PInf else NInf
  | Int x, NInf | NInf, Int x =>
      if (x =? 0)%Z then NaN else if (0 <? x)%Z then NInf else PInf
  | PInf, PInf | NInf, NInf => PInf
  | PInf, NInf | NInf, PInf => NInf
  end.

(** A JavaScript array with holes, as [reduce] builds it in
    [getMaxImagesPerRow]: [None] is a hole. *)
Definition sparse (A : Type) : Type := list (option A).

(** [arr[i]], [undefined] (here [None]) for a hole or past the end. *)
Definition get (A : Type) (arr : sparse A) (i : nat) : option A :=
  match nth_error arr i with
  | Some (Some x) => Some x
  | _ => None
  end.

(** [arr[i] = x]: writing past the end extends the array with holes. *)
Fixpoint set (A : Type) (arr : sparse A) (i : nat) (x : A) : sparse A :=
  match i, arr with
  | O, [] => [Some x]
  | O, _ :: rest => Some x :: rest
  | S i', [] => None :: set [] i' x
  | S i', y :: rest => y :: set rest i' x
  end.

(** [Math.max.apply(null, arr)]: [-Infinity] for no argument, [NaN] as
    soon as one argument is a hole (read as [undefined]). *)
Fixpoint Math_max (arr : sparse Z) : number :=
  match arr with
  | [] => NInf
  | None :: _ => NaN
  | Some x :: rest =>
      match Math_max rest with
      | NaN => NaN
      | NInf => Int x
      | PInf => PInf
      | Int y => Int (Z.max x y)
      end
  end.

End JS.

(* ================================================================== *)
(** ** Data model *)
(* ================================================================== *)

(** The numeric options of [IGalleryOptions] that the controller and the
    layout read, in whole pixels and whole rows. *)
Record IGalleryOptions : Type := {
  rowHeight : Z;
  round : Z;
  margin : Z;
  limit : Z;
  minRowsAtStart : Z
}.

(** The default options of the class. *)
Definition default_options : IGalleryOptions :=
  {| rowHeight := 350; round := 3; margin := 3; limit := 0; minRowsAtStart := 2 |}.

(** Modelled from the spec: [IItemFields] is declared in [Item.ts], which
    is not among the sources.  An item has a stable identity and an
    intrinsic aspect ratio, kept as the pixel size of its image. *)
Record IItemFields : Type := {
  id : nat;
  tWidth : Z;
  tHeight : Z
}.

(** Modelled from the spec: an [Item] is its fields and the [row] index
    computed by the layout.  A new item gets its row from
    [Organizer.organize] before any method reads it. *)
Record Item : Type := {
  fields : IItemFields;
  row : nat
}.

(** Modelled from the spec: [new Item(fields, gallery)]. *)
Definition new_Item (f : IItemFields) : Item := {| fields := f; row := 0 |}.

(** Modelled from the spec: [Item.getPswpItem], the viewer entry of an
    item, a function of the item's own fields. *)
Definition getPswpItem (i : Item) : IItemFields := fields i.

(** The value of [style.display]. *)
Inductive Display : Type := block | none.

(** The part of the [Gallery] object that its methods read and write.
    - [has_pagination] is whether [events.pagination] is defined, and
      [pagination_calls] records its invocations, oldest first, as
      (current count, requested count);
    - [bodyItems] are the item elements appended to [bodyElement];
    - [nextButton] and [noResults] are the [style.display] of the two
      elements;
    - [imagesContainer], [galleryVisible] and [galleryTotal] are the
      first elements of class [natural-gallery-images], [-visible] and
      [-total] under the root element, [None] when there is none: their
      [style.display] and their [textContent]. *)
Record Gallery : Type := {
  options : IGalleryOptions;
  has_pagination : bool;
  pagination_calls : list (nat * JS.number);
  old_scroll_top : Z;
  bodyWidth : Z;
  pswpContainer : list IItemFields;
  collection : list Item;
  bodyItems : list IItemFields;
  nextButton : Display;
  noResults : Display;
  imagesContainer : option Display;
  galleryVisible : option nat;
  galleryTotal : option nat
}.

(** What a method reads from the DOM when it runs. *)
Record Viewport : Type := {
  winHeight : Z;          (* clientHeight of the scroll element or document *)
  bodyOffsetTop : Z;      (* bodyElement.offsetTop *)
  containerWidth : Z;     (* floor of bodyElement.getBoundingClientRect().width *)
  rootOffsetTop : Z;      (* rootElement.offsetTop *)
  rootOffsetHeight : Z;   (* rootElement.offsetHeight *)
  scrollTop : Z;          (* wrapper.scrollTop *)
  clientTop : Z;          (* wrapper.clientTop *)
  clientHeight : Z        (* wrapper.clientHeight *)
}.

(** How a call ends. *)
Inductive Completion : Type :=
| Return (g : Gallery)
| Throw (g : Gallery).     (* TypeError *)

Definition state_of (c : Completion) : Gallery :=
  match c with Return g | Throw g => g end.

Definition returns (c : Completion) : bool :=
  match c with Return _ => true | Throw _ => false end.

Definition bind (c : Completion) (k : Gallery -> Completion) : Completion :=
  match c with
  | Return g => k g
  | Throw g => Throw g
  end.

Notation "c >>= k" := (bind c k) (at level 50, left associativity).

(** *** Field updates *)

Definition set_pagination_calls (x : list (nat * JS.number)) (g : Gallery) : Gallery :=
  {| options := options g; has_pagination := has_pagination g;
     pagination_calls := x; old_scroll_top := old_scroll_top g;
     bodyWidth := bodyWidth g; pswpContainer := pswpContainer g;
     collection := collection g; bodyItems := bodyItems g;
     nextButton := nextButton g; noResults := noResults g;
     imagesContainer := imagesContainer g;
     galleryVisible := galleryVisible g; galleryTotal := galleryTotal g |}.

Definition set_old_scroll_top (x : Z) (g : Gallery) : Gallery :=
  {| options := options g; has_pagination := has_pagination g;
     pagination_calls := pagination_calls g; old_scroll_top := x;
     bodyWidth := bodyWidth g; pswpContainer := pswpContainer g;
     collection := collection g; bodyItems := bodyItems g;
     nextButton := nextButton g; noResults := noResults g;
     imagesContainer := imagesContainer g;
     galleryVisible := galleryVisible g; galleryTotal := galleryTotal g |}.

Definition set_bodyWidth (x : Z) (g : Gallery) : Gallery :=
  {| options := options g; has_pagination := has_pagination g;
     pagination_calls := pagination_calls g; old_scroll_top := old_scroll_top g;
     bodyWidth := x; pswpContainer := pswpContainer g;
     collection := collection g; bodyItems := bodyItems g;
     nextButton := nextButton g; noResults := noResults g;
     imagesContainer := imagesContainer g;
     galleryVisible := galleryVisible g; galleryTotal := galleryTotal g |}.

Definition set_pswpContainer (x : list IItemFields) (g : Gallery) : Gallery :=
  {| options := options g; has_pagination := has_pagination g;
     pagination_calls := pagination_calls g; old_scroll_top := old_scroll_top g;
     bodyWidth := bodyWidth g; pswpContainer := x;
     collection := collection g; bodyItems := bodyItems g;
     nextButton := nextButton g; noResults := noResults g;
     imagesContainer := imagesContainer g;
     galleryVisible := galleryVisible g; galleryTotal := galleryTotal g |}.

Definition set_collection (x : list Item) (g : Gallery) : Gallery :=
  {| options := options g; has_pagination := has_pagination g;
     pagination_calls := pagination_calls g; old_scroll_top := old_scroll_top g;
     bodyWidth := bodyWidth g; pswpContainer := pswpContainer g;
     collection := x; bodyItems := bodyItems g;
     nextButton := nextButton g; noResults := noResults g;
     imagesContainer := imagesContainer g;
     galleryVisible := galleryVisible g; galleryTotal := galleryTotal g |}.

Definition set_bodyItems (x : list IItemFields) (g : Gallery) : Gallery :=
  {| options := options g; has_pagination := has_pagination g;
     pagination_calls := pagination_calls g; old_scroll_top := old_scroll_top g;
     bodyWidth := bodyWidth g; pswpContainer := pswpContainer g;
     collection := collection g; bodyItems := x;
     nextButton := nextButton g; noResults := noResults g;
     imagesContainer := imagesContainer g;
     galleryVisible := galleryVisible g; galleryTotal := galleryTotal g |}.

Definition set_nextButton (x : Display) (g : Gallery) : Gallery :=
  {| options := options g; has_pagination := has_pagination g;
     pagination_calls := pagination_calls g; old_scroll_top := old_scroll_top g;
     bodyWidth := bodyWidth g; pswpContainer := pswpContainer g;
     collection := collection g; bodyItems := bodyItems g;
     nextButton := x; noResults := noResults g;
     imagesContainer := imagesContainer g;
     galleryVisible := galleryVisible g; galleryTotal := galleryTotal g |}.

Definition set_noResults (x : Display) (g : Gallery) : Gallery :=
  {| options := options g; has_pagination := has_pagination g;
     pagination_calls := pagination_calls g; old_scroll_top := old_scroll_top g;
     bodyWidth := bodyWidth g; pswpContainer := pswpContainer g;
     collection := collection g; bodyItems := bodyItems g;
     nextButton := nextButton g; noResults := x;
     imagesContainer := imagesContainer g;
     galleryVisible := galleryVisible g; galleryTotal := galleryTotal g |}.

Definition set_imagesContainer (x : option Display) (g : Gallery) : Gallery :=
  {| options := options g; has_pagination := has_pagination g;
     pagination_calls := pagination_calls g; old_scroll_top := old_scroll_top g;
     bodyWidth := bodyWidth g; pswpContainer := pswpContainer g;
     collection := collection g; bodyItems := bodyItems g;
     nextButton := nextButton g; noResults := noResults g;
     imagesContainer := x;
     galleryVisible := galleryVisible g; galleryTotal := galleryTotal g |}.

Definition set_galleryVisible (x : option nat) (g : Gallery) : Gallery :=
  {| options := options g; has_pagination := has_pagination g;
     pagination_calls := pagination_calls g; old_scroll_top := old_scroll_top g;
     bodyWidth := bodyWidth g; pswpContainer := pswpContainer g;
     collection := collection g; bodyItems := bodyItems g;
     nextButton := nextButton g; noResults := noResults g;
     imagesContainer := imagesContainer g;
     galleryVisible := x; galleryTotal := galleryTotal g |}.

Definition set_galleryTotal (x : option nat) (g : Gallery) : Gallery :=
  {| options := options g; has_pagination := has_pagination g;
     pagination_calls := pagination_calls g; old_scroll_top := old_scroll_top g;
     bodyWidth := bodyWidth g; pswpContainer := pswpContainer g;
     collection := collection g; bodyItems := bodyItems g;
     nextButton := nextButton g; noResults := noResults g;
     imagesContainer := imagesContainer g;
     galleryVisible := galleryVisible g; galleryTotal := x |}.

(* ================================================================== *)
(** ** The methods that do not call the layout *)
(* ================================================================== *)

(** [getRowsPerPage] (lines 331-344). *)
Definition getRowsPerPage (v : Viewport) (g : Gallery) : JS.number :=
  if negb (limit (options g) =? 0)%Z then JS.Int (limit (options g))
  else
    let galleryVisibleHeight := (winHeight v - bodyOffsetTop v)%Z in
    let nbRows :=
      JS.Math_floor
        (JS.fdiv (JS.of_Z galleryVisibleHeight)
                 (JS.fmul (JS.of_Z (rowHeight (options g))) JS.lit_0_7)) in
    if JS.ltb nbRows (JS.Int (minRowsAtStart (options g)))
    then JS.Int (minRowsAtStart (options g))
    else nbRows.

(** The body of the [for] loop of [addElements] (lines 290-303), run over
    the items from [nextImage] on. *)
Fixpoint addElements_loop (lastRow : option JS.number) (items : list Item)
  (g : Gallery) : Gallery :=
  match items with
  | [] => g
  | item :: rest =>
      let g1 :=
        if JS.ltb (JS.Int (Z.of_nat (row item))) (JS.ToNumber lastRow)
        then set_bodyItems (bodyItems g ++ [fields item])
               (set_pswpContainer (pswpContainer g ++ [getPswpItem item]) g)
        else g in
      let g2 :=
        if length (pswpContainer g1) =? length (collection g1)
        then set_nextButton none g1
        else g1 in
      addElements_loop lastRow rest g2
  end.

(** The end of [addElements] (lines 305-320). *)
Definition addElements_finish (g : Gallery) : Gallery :=
  let g := set_noResults none g in
  let g := match imagesContainer g with
           | Some _ => set_imagesContainer (Some block) g
           | None => g
           end in
  let g := match galleryVisible g with
           | Some _ => set_galleryVisible (Some (length (pswpContainer g))) g
           | None => g
           end in
  match galleryTotal g with
  | Some _ => set_galleryTotal (Some (length (collection g))) g
  | None => g
  end.

(** [addElements(rows = null)] (lines 268-321); [None] is [null]. *)
Definition addElements (rows : option JS.number) (g : Gallery) : Completion :=
  let g := set_nextButton block g in
  if length (pswpContainer g) =? length (collection g) then
    let g := set_nextButton none g in
    if length (collection g) =? 0 then
      let g := set_noResults block g in
      match imagesContainer g with
      | Some _ => Return (set_imagesContainer (Some none) g)
      | None => Throw g          (* [undefined.style] *)
      end
    else Return g
  else
    let nextImage := length (pswpContainer g) in
    let lastRow :=
      if nextImage =? 0 then Some rows
      else match nth_error (collection g) nextImage with
           | Some item =>
               Some (Some (JS.add (JS.Int (Z.of_nat (row item))) (JS.ToNumber rows)))
           | None => None          (* [undefined.row] *)
           end in
    match lastRow with
    | None => Throw g
    | Some lastRow =>
        Return (addElements_finish
                  (addElements_loop lastRow (skipn nextImage (collection g)) g))
    end.

(** [reset] (lines 374-382).  The loop removes from the page the element
    of every item of [_collection]; the elements in the body are those of
    items of the collection, since [addElements] appends no other and the
    layout keeps the items, so the body is left without item elements. *)
Definition reset (g : Gallery) : Gallery :=
  set_noResults block (set_bodyItems [] (set_pswpContainer [] g)).

(** [getMaxImagesPerRow] (lines 428-435): the reducer counts the items of
    each row into an array indexed by row, then takes [Math.max] of it. *)
Definition nbPerRowFn (arr : list Item) : JS.sparse Z :=
  fold_left
    (fun stack e =>
       JS.set stack (row e)
         (match JS.get stack (row e) with
          | Some c => if (-1 <? c)%Z then (c + 1)%Z else 1%Z
          | None => 1%Z
          end))
    arr [].

Definition getMaxImagesPerRow (g : Gallery) : JS.number :=
  JS.Math_max (nbPerRowFn (collection g)).

(** An argument of [addItems], which is not typed: what matters of it is
    whether it has a [constructor], whether that is [Array], its [length]
    and its method [forEach].  [JsArray elements] is an array without
    holes.  Of any other object, [constructor_is_Array] is whether its
    property [constructor] is [Array], [length_is_truthy] whether its
    property [length] is truthy, and [forEach] is [None] when it has no
    such method, [Some elements] when the method calls its callback on
    [elements], in order, and returns (as that of an array with holes
    does on the elements that are there). *)
Inductive JsValue : Type :=
| JsNull
| JsUndefined
| JsBoolean (b : bool)
| JsNumber (z : Z)
| JsString (s : String.string)
| JsObject (constructor_is_Array length_is_truthy : bool)
    (forEach : option (list IItemFields))
| JsArray (elements : list IItemFields).

(** The elements that [items.forEach] hands to its callback when
    [addItems] gets to line 240 and the method is there; [None] when the
    guard of line 232 returns, or when [addItems] throws. *)
Definition pushed (items : JsValue) : option (list IItemFields) :=
  match items with
  | JsArray (e :: elements) => Some (e :: elements)
  | JsObject true true (Some elements) => Some elements
  | _ => None
  end.

(* ================================================================== *)
(** ** The methods that call the layout *)
(* ================================================================== *)

Section Controller.

(** [Organizer.organize]: from the options, the body width and the
    collection to the collection with every row recomputed. *)
Variable organize : IGalleryOptions -> Z -> list Item -> list Item.

(** [Organizer.simulatePagination]: the estimated number of items of a
    row, from the options and the body width. *)
Variable simulatePagination : IGalleryOptions -> Z -> JS.number.

Definition Organizer_organize (g : Gallery) : Gallery :=
  set_collection (organize (options g) (bodyWidth g) (collection g)) g.

(** [addItems] (lines 230-254). *)
Definition addItems (items : JsValue) (v : Viewport) (g : Gallery) : Completion :=
  let from_line_237 := fun elements : list IItemFields =>
    let display :=
      (length (collection g) =? 0)
      || (length (collection g) =? length (pswpContainer g)) in
    let g := set_collection (collection g ++ map new_Item elements) g in
    let g := Organizer_organize g in
    if display then addElements (Some (getRowsPerPage v g)) g
    else Return g in
  match items with
  | JsNull | JsUndefined => Throw g        (* [items.constructor] *)
  | JsBoolean _ | JsNumber _ | JsString _ => Return g
  | JsObject constructor_is_Array length_is_truthy forEach =>
      if constructor_is_Array && length_is_truthy then
        match forEach with
        | Some elements => from_line_237 elements
        | None => Throw g                  (* [items.forEach] is not a function *)
        end
      else Return g
  | JsArray elements =>
      if length elements =? 0 then Return g
      else from_line_237 elements
  end.

(** [resize] (lines 351-363). *)
Definition resize (v : Viewport) (g : Gallery) : Completion :=
  if negb (containerWidth v =? bodyWidth g)%Z then
    let g := set_bodyWidth (containerWidth v) g in
    let g := Organizer_organize g in
    let lastImage :=
      match length (pswpContainer g) with
      | O => None
      | S n => nth_error (collection g) n
      end in
    let nbRows :=
      match lastImage with
      | Some item => JS.add (JS.Int (Z.of_nat (row item))) (JS.Int 1)
      | None => getRowsPerPage v g
      end in
    addElements (Some nbRows) (reset g)
  else Return g.

(** [refresh] (lines 365-369). *)
Definition refresh (v : Viewport) (g : Gallery) : Completion :=
  let g := Organizer_organize (reset g) in
  addElements (Some (getRowsPerPage v g)) g.

(** [pagination(nbRows = 1)] (lines 412-422); [None] is the argument
    left out. *)
Definition pagination (nbRows : option JS.number) (v : Viewport) (g : Gallery)
  : Gallery :=
  let nbRows := match nbRows with Some n => n | None => JS.Int 1 end in
  if has_pagination g then
    if negb (length (collection g) =? 0) then
      let elementPerRow := getMaxImagesPerRow g in
      set_pagination_calls
        (pagination_calls g ++ [(length (collection g), JS.mul elementPerRow nbRows)]) g
    else
      let estimation := simulatePagination (options g) (bodyWidth g) in
      set_pagination_calls
        (pagination_calls g ++
           [(length (collection g),
             JS.mul (JS.mul estimation (getRowsPerPage v g)) (JS.Int 2))]) g
  else g.

(** The listener that [bindScroll] installs (lines 394-409). *)
Definition onScroll (v : Viewport) (g : Gallery) : Completion :=
  let endOfGalleryAt := (rootOffsetTop v + rootOffsetHeight v)%Z in
  let current_scroll_top := (scrollTop v - clientTop v)%Z in
  let wrapperHeight := clientHeight v in
  let scroll_delta := (current_scroll_top - old_scroll_top g)%Z in
  let g := set_old_scroll_top current_scroll_top g in
  if (0 <? scroll_delta)%Z && (endOfGalleryAt <=? current_scroll_top + wrapperHeight)%Z
  then addElements (Some (JS.Int 1)) g >>= fun g =>
       Return (pagination (Some (JS.Int 1)) v g)
  else Return g.

(** The click listener of the "next" button (lines 196-201). *)
Definition onNextClick (v : Viewport) (g : Gallery) : Completion :=
  let rows := getRowsPerPage v g in
  addElements (Some rows) g >>= fun g =>
  Return (pagination (Some rows) v g).

(** The calls of the materialized-prefix invariant. *)
Inductive Call : Type :=
| CallAddItems (items : JsValue) (v : Viewport)
| CallAddElements (rows : option JS.number)
| CallResize (v : Viewport)
| CallReset.

Definition call (c : Call) (g : Gallery) : Completion :=
  match c with
  | CallAddItems items v => addItems items v g
  | CallAddElements rows => addElements rows g
  | CallResize v => resize v g
  | CallReset => Return (reset g)
  end.

(** A sequence of calls: each one starts from the object as the one
    before left it, whether that one returned or threw. *)
Definition run (cs : list Call) (g : Gallery) : Gallery :=
  fold_left (fun g c => state_of (call c g)) cs g.

End Controller.

(** The gallery just after construction without images. *)
Definition new_Gallery (o : IGalleryOptions) (hook : bool) (width : Z)
  (header : bool) : Gallery :=
  {| options := o; has_pagination := hook; pagination_calls := [];
     old_scroll_top := 0; bodyWidth := width; pswpContainer := [];
     collection := []; bodyItems := []; nextButton := none; noResults := block;
     imagesContainer := if header then Some block else None;
     galleryVisible := if header then Some 0 else None;
     galleryTotal := if header then Some 0 else None |}.

(* ================================================================== *)
(** ** The layout, after the specification *)
(* ================================================================== *)

Module Organizer.

(** Modelled from the spec: the natural width of an item at the target
    row height, [H * aspectRatio] in whole pixels; an item with a zero
    or unknown aspect ratio counts as a square. *)
Definition naturalWidth (o : IGalleryOptions) (f : IItemFields) : Z :=
  if ((tWidth f <=? 0) || (tHeight f <=? 0))%Z then rowHeight o
  else (rowHeight o * tWidth f / tHeight f)%Z.

(** Modelled from the spec: the row assignment of [Organizer.organize]
    (section 4.1, rule 1), which is not among the sources.  Items are
    taken in order and put into the current row, number [r], holding
    [count] items of total width [acc] (margins included), until the
    next item would make the total exceed the container width [W]; that
    item then opens row [r + 1]. *)
Fixpoint pack (o : IGalleryOptions) (W : Z) (r : nat) (acc : Z) (count : nat)
  (items : list Item) : list Item :=
  match items with
  | [] => []
  | i :: rest =>
      let n := naturalWidth o (fields i) in
      if count =? 0 then
        {| fields := fields i; row := r |} :: pack o W r n 1 rest
      else if (acc + margin o + n <=? W)%Z then
        {| fields := fields i; row := r |}
          :: pack o W r (acc + margin o + n) (S count) rest
      else
        {| fields := fields i; row := S r |} :: pack o W (S r) n 1 rest
  end.

Definition organize (o : IGalleryOptions) (W : Z) (items : list Item) : list Item :=
  pack o W 0 0 0 items.

(** Modelled from the spec: the estimation mode of the layout, the
    number of items of the default aspect ratio (7/10) that one row of
    width [W] holds at the target height. *)
Definition simulatePagination (o : IGalleryOptions) (W : Z) : JS.number :=
  JS.Math_floor
    (JS.fdiv (JS.of_Z W) (JS.fmul (JS.of_Z (rowHeight o)) JS.lit_0_7)).

End Organizer.

(* ================================================================== *)
(** ** Predicates of the data model *)
(* ================================================================== *)

(** Row indices never decrease along the collection. *)
Definition monotone (rows : list nat) : Prop :=
  forall i a b,
    nth_error rows i = Some a -> nth_error rows (S i) = Some b -> a <= b.

(** Each row index is the one before it or its successor, from [r] on. *)
Fixpoint chained (r : nat) (rows : list nat) : Prop :=
  match rows with
  | [] => True
  | x :: rest => (x = r \/ x = S r) /\ chained x rest
  end.

(** Rows are numbered 0, 1, 2, ... without a gap, as a layout that opens
    one row after the other numbers them. *)
Definition rows_from_zero (rows : list nat) : Prop :=
  match rows with
  | [] => True
  | x :: rest => x = 0 /\ chained 0 rest
  end.

Definition rows_of (items : list Item) : list nat := map row items.

(** The materialized set is a prefix of the collection. *)
Definition materialized_prefix (g : Gallery) : Prop :=
  exists k, k <= length (collection g) /\
            pswpContainer g = map getPswpItem (firstn k (collection g)).

(** The number of distinct rows that a list of items spans. *)
Definition distinct_rows (items : list Item) : nat :=
  length (nodup Nat.eq_dec (rows_of items)).

(** The test of the loop of [addElements]: the item's row is below the
    bound. *)
Definition below (lastRow : option JS.number) (item : Item) : bool :=
  JS.ltb (JS.Int (Z.of_nat (row item))) (JS.ToNumber lastRow).

(** One iteration, with the test named. *)
Definition addElements_step (L : option JS.number) (item : Item) (g : Gallery)
  : Gallery :=
  let g1 :=
    if below L item
    then set_bodyItems (bodyItems g ++ [fields item])
           (set_pswpContainer (pswpContainer g ++ [getPswpItem item]) g)
    else g in
  if length (pswpContainer g1) =? length (collection g1)
  then set_nextButton none g1
  else g1.

(** The bound that [addElements] compares rows with: the argument itself
    when nothing is materialized, otherwise the row of the first item
    that is not materialized plus the argument. *)
Definition bound (rows : option JS.number) (g : Gallery) : option JS.number :=
  let nextImage := length (pswpContainer g) in
  if nextImage =? 0 then rows
  else match nth_error (collection g) nextImage with
       | Some item =>
           Some (JS.add (JS.Int (Z.of_nat (row item))) (JS.ToNumber rows))
       | None => rows
       end.

(** The items that are not materialized, and the row of the first of
    them (the frontier). *)
Definition unmaterialized (g : Gallery) : list Item :=
  skipn (length (pswpContainer g)) (collection g).

Definition frontier_row (g : Gallery) : nat :=
  match unmaterialized g with
  | [] => 0
  | item :: _ => row item
  end.

(** The items that are not materialized and whose row lies below the
    frontier plus [rowCount]. *)
Definition rows_from_frontier (g : Gallery) (rowCount : Z) : list Item :=
  filter (fun i => (Z.of_nat (row i) <? Z.of_nat (frontier_row g) + rowCount)%Z)
    (unmaterialized g).

(** What a reveal of [rowCount] rows is to do, in the specification's
    words: it appends every item from the first one that is not
    materialized whose row lies below that item's row plus [rowCount];
    these are [rowCount] distinct rows, or all the rows left when fewer
    are; in the latter case the whole collection is materialized; and the
    "next" button is hidden once the materialized set is the collection. *)
Definition reveals_rows (g : Gallery) (rowCount : Z) : Prop :=
  let g' := state_of (addElements (Some (JS.Int rowCount)) g) in
  collection g' = collection g /\
  pswpContainer g' = pswpContainer g ++ map getPswpItem (rows_from_frontier g rowCount) /\
  Z.of_nat (distinct_rows (rows_from_frontier g rowCount))
  = Z.min rowCount (Z.of_nat (distinct_rows (unmaterialized g))) /\
  ((Z.of_nat (distinct_rows (unmaterialized g)) <= rowCount)%Z ->
   pswpContainer g' = map getPswpItem (collection g')) /\
  (pswpContainer g' = map getPswpItem (collection g') <-> nextButton g' = none).

(** The invariants of the data model: rows never decrease along the
    collection, and the materialized set is a prefix of it. *)
Definition well_formed (g : Gallery) : Prop :=
  monotone (rows_of (collection g)) /\ materialized_prefix g.

(** The number of rows that the materialized items span. *)
Definition materialized_rows (g : Gallery) : nat :=
  distinct_rows (firstn (length (pswpContainer g)) (collection g)).

(** What the call of [addElements] without an argument is said to do:
    no item is materialized, and the empty-state indicator is hidden. *)
Definition reveals_nothing_and_hides_noResults (g : Gallery) : Prop :=
  let g' := state_of (addElements None g) in
  pswpContainer g' = pswpContainer g /\ noResults g' = none.

(** No item that is not materialized lies in a row below the frontier. *)
Definition none_below_frontier (g : Gallery) : bool :=
  forallb (fun item => frontier_row g <=? row item) (unmaterialized g).

(** The reducer of [getMaxImagesPerRow], on the row of an item. *)
Definition count_row (stack : JS.sparse Z) (r : nat) : JS.sparse Z :=
  JS.set stack r
    (match JS.get stack r with
     | Some c => if (-1 <? c)%Z then (c + 1)%Z else 1%Z
     | None => 1%Z
     end).

(** The maximum number of items in one row. *)
Definition max_per_row (items : list Item) : nat :=
  list_max (map (fun r => count_occ Nat.eq_dec (rows_of items) r) (rows_of items)).





(* ================================================================== *)
(** ** The constructor, the setter of [collection] and the listeners *)
(* ================================================================== *)

(** The options as the caller gives them: each may be left out. *)
Record GivenOptions : Type := {
  given_rowHeight : option Z;
  given_round : option Z;
  given_margin : option Z;
  given_limit : option Z;
  given_minRowsAtStart : option Z
}.

(** [data.options[key]], or the default when its type is [undefined]. *)
Definition or_default (A : Type) (x : option A) (d : A) : A :=
  match x with
  | Some y => y
  | None => d
  end.

(** The loop that completes the options (lines 135-141). *)
Definition complete_options (o : GivenOptions) : IGalleryOptions :=
  {| rowHeight := or_default (given_rowHeight o) (rowHeight default_options);
     round := or_default (given_round o) (round default_options);
     margin := or_default (given_margin o) (margin default_options);
     limit := or_default (given_limit o) (limit default_options);
     minRowsAtStart :=
       or_default (given_minRowsAtStart o) (minRowsAtStart default_options) |}.

(** The argument [data] of the constructor: its options (an object), its
    images, whether [data.events.pagination] is defined, and whether the
    header that the options ask for puts the image counters on the page
    ([Header.ts] is not among the sources). *)
Record GalleryData : Type := {
  data_options : GivenOptions;
  data_images : JsValue;
  data_pagination : bool;
  data_counters : bool
}.


(** Whether the constructor installs the scroll listener (lines 175-177). *)
Definition binds_scroll (data : GalleryData) : bool :=
  (limit (complete_options (data_options data)) =? 0)%Z.

Section Methods.

Variable organize : IGalleryOptions -> Z -> list Item -> list Item.
Variable simulatePagination : IGalleryOptions -> Z -> JS.number.

(** The setter of [collection] (lines 489-493). *)
Definition collection_setter (items : JsValue) (v : Viewport) (g : Gallery)
  : Completion :=
  addItems organize items v (set_collection [] (reset g)).


(** What happens to a gallery: a call of a public method, or an event
    that one of its listeners handles. *)
Inductive Event : Type :=
| EvAddItems (items : JsValue) (v : Viewport)
| EvSetCollection (items : JsValue) (v : Viewport)
| EvAddElements (rows : option JS.number)
| EvResize (v : Viewport)
| EvRefresh (v : Viewport)
| EvReset
| EvScroll (v : Viewport)
| EvNextClick (v : Viewport).

Definition fire (e : Event) (g : Gallery) : Completion :=
  match e with
  | EvAddItems items v => addItems organize items v g
  | EvSetCollection items v => collection_setter items v g
  | EvAddElements rows => addElements rows g
  | EvResize v => resize organize v g
  | EvRefresh v => refresh organize v g
  | EvReset => Return (reset g)
  | EvScroll v => onScroll simulatePagination v g
  | EvNextClick v => onNextClick simulatePagination v g
  end.

(** The gallery after a sequence of events, each one handled from the
    object as the one before left it. *)
Definition history (es : list Event) (g : Gallery) : Gallery :=
  fold_left (fun g e => state_of (fire e g)) es g.

End Methods.

(** The values on which [addItems] throws: [null] and [undefined], which
    have no [constructor] (line 232), and an object that passes for an
    array that is not empty but has no method [forEach] (line 240). *)
Definition addItems_throws (items : JsValue) : bool :=
  match items with
  | JsNull | JsUndefined | JsObject true true None => true
  | _ => false
  end.

(** Whether an event hands such a value to [addItems]. *)
Definition hands_over_unusable (e : Event) : bool :=
  match e with
  | EvAddItems items _ | EvSetCollection items _ => addItems_throws items
  | _ => false
  end.

(** The rendered elements and the viewer's entries are those of the same
    items, in the same order. *)
Definition in_lockstep (g : Gallery) : Prop :=
  exists shown : list Item,
    pswpContainer g = map getPswpItem shown /\ bodyItems g = map fields shown.

(** The elements in the body are those of the materialized items, the
    first items of the collection. *)
Definition rendered_prefix (g : Gallery) : Prop :=
  bodyItems g = map fields (firstn (length (pswpContainer g)) (collection g)).

(** One list starts with the other. *)
Definition starts_with (A : Type) (l p : list A) : Prop :=
  firstn (length p) l = p.

(* ================================================================== *)
(** ** Selection *)
(* ================================================================== *)

Section Selection.

(** The [Item] objects, compared by identity as [indexOf] does, and their
    fields. *)
Variable Ref : Type.
Variable Ref_eq_dec : forall a b : Ref, {a = b} + {a <> b}.
Variable fields_of : Ref -> IItemFields.

(** The part of the gallery that [select] and [unselect] use:
    [_selected], whether [events.select] is defined, and the lists that it
    was called with, oldest first. *)
Record Selecting : Type := {
  selected : list Ref;
  has_select : bool;
  select_calls : list (list IItemFields)
}.

Inductive SelectCompletion : Type :=
| SelectReturn (s : Selecting)
| SelectThrow (s : Selecting).     (* [events.select] is not a function *)

Definition selecting_of (c : SelectCompletion) : Selecting :=
  match c with SelectReturn s | SelectThrow s => s end.

(** [arr.indexOf(item)], [None] for -1. *)
Fixpoint indexOf (item : Ref) (arr : list Ref) : option nat :=
  match arr with
  | [] => None
  | x :: rest =>
      if Ref_eq_dec x item then Some 0
      else match indexOf item rest with
           | Some i => Some (S i)
           | None => None
           end
  end.

(** [arr.splice(index, 1)] *)
Fixpoint splice1 (index : nat) (arr : list Ref) : list Ref :=
  match index, arr with
  | _, [] => []
  | O, _ :: rest => rest
  | S i, x :: rest => x :: splice1 i rest
  end.

(** [this._events.select(this._selected.map(i => i.fields))] *)
Definition call_select (s : Selecting) : SelectCompletion :=
  if has_select s
  then SelectReturn
         {| selected := selected s; has_select := has_select s;
            select_calls := select_calls s ++ [map fields_of (selected s)] |}
  else SelectThrow s.

(** [select] (lines 437-443). *)
Definition select (item : Ref) (s : Selecting) : SelectCompletion :=
  match indexOf item (selected s) with
  | None =>
      call_select {| selected := selected s ++ [item]; has_select := has_select s;
                     select_calls := select_calls s |}
  | Some _ => SelectReturn s
  end.

(** [unselect] (lines 445-451). *)
Definition unselect (item : Ref) (s : Selecting) : SelectCompletion :=
  match indexOf item (selected s) with
  | Some index =>
      call_select {| selected := splice1 index (selected s); has_select := has_select s;
                     select_calls := select_calls s |}
  | None => SelectReturn s
  end.

End Selection.

(* ================================================================== *)
(** ** Sample galleries *)
(* ================================================================== *)

Module Sample.

(** Scenario B of the specification: a viewport 800 pixels high and a
    gallery body 100 pixels below its top. *)
Definition viewport : Viewport :=
  {| winHeight := 800; bodyOffsetTop := 100; containerWidth := 200;
     rootOffsetTop := 0; rootOffsetHeight := 700;
     scrollTop := 0; clientTop := 0; clientHeight := 800 |}.

(** A gallery with the default options, a pagination hook and no
    header, just constructed: no item yet. *)
Definition empty : Gallery := new_Gallery default_options true 200 false.

(** The same with the elements of a header on the page. *)
Definition empty_with_header : Gallery := new_Gallery default_options true 200 true.

(** Square images of 100 pixels. *)
Definition square (n : nat) : IItemFields := {| id := n; tWidth := 100; tHeight := 100 |}.

Definition squares (n : nat) : list IItemFields := map square (seq 0 n).

(** A collection with the given row of each item. *)
Definition with_rows (rows : list nat) : list Item :=
  map (fun p => {| fields := square (fst p); row := snd p |})
      (combine (seq 0 (length rows)) rows).

(** A gallery holding the collection [items], the first [k] of them
    materialized. *)
Definition showing (k : nat) (items : list Item) : Gallery :=
  {| options := default_options; has_pagination := true; pagination_calls := [];
     old_scroll_top := 0; bodyWidth := 200;
     pswpContainer := map getPswpItem (firstn k items);
     collection := items;
     bodyItems := map fields (firstn k items);
     nextButton := block; noResults := none;
     imagesContainer := None; galleryVisible := None; galleryTotal := None |}.

(** The same viewport after the container has grown to 300 pixels. *)
Definition wide : Viewport :=
  {| winHeight := 800; bodyOffsetTop := 100; containerWidth := 300;
     rootOffsetTop := 0; rootOffsetHeight := 700;
     scrollTop := 0; clientTop := 0; clientHeight := 800 |}.

(** Rows of 100 pixels, no margin, three rows to a page. *)
Definition small_rows : IGalleryOptions :=
  {| rowHeight := 100; round := 3; margin := 0; limit := 3; minRowsAtStart := 2 |}.

(** A gallery 200 pixels wide with these options, without a header. *)
Definition narrow : Gallery := new_Gallery small_rows true 200 false.

(** Twelve squares arrive, a row is revealed, the container grows, the
    gallery is reset and a row is revealed again. *)
Definition calls : list Call :=
  [CallAddItems (JsArray (squares 12)) viewport;
   CallAddElements (Some (JS.Int 1));
   CallResize wide;
   CallReset;
   CallAddElements (Some (JS.Int 1))].

(** The gallery [narrow] once twelve squares have arrived: six rows of
    two, the three rows of the first page materialized. *)
Definition three_rows : Gallery :=
  state_of (addItems Organizer.organize (JsArray (squares 12)) viewport narrow).

(** A scroll down by ten pixels that brings the bottom of the viewport
    (at 810) past the bottom of the gallery (at 700). *)
Definition scrolled : Viewport :=
  {| winHeight := 800; bodyOffsetTop := 100; containerWidth := 200;
     rootOffsetTop := 0; rootOffsetHeight := 700;
     scrollTop := 10; clientTop := 0; clientHeight := 800 |}.

(** A gallery whose row height is zero, no item yet. *)
Definition flat : Gallery :=
  new_Gallery {| rowHeight := 0; round := 3; margin := 3; limit := 0;
                 minRowsAtStart := 2 |} true 200 false.



(** A gallery with the default options, a pagination hook and no
    header, 1000 pixels wide, just constructed. *)
Definition empty_wide : Gallery := new_Gallery default_options true 1000 false.

(** The gallery [narrow] on a page that has the image counters. *)
Definition with_counters : Gallery := new_Gallery small_rows true 200 true.

(** Twelve squares are assigned, the user scrolls to the bottom, the
    container grows, the user asks for more, the gallery is refreshed,
    [null] is handed over, the gallery is reset and a reveal without an
    argument is made. *)
Definition events : list Event :=
  [EvSetCollection (JsArray (squares 12)) viewport;
   EvScroll scrolled;
   EvResize wide;
   EvNextClick wide;
   EvRefresh wide;
   EvAddItems JsNull viewport;
   EvReset;
   EvAddElements None].

(** The argument of a constructor: three rows to a page, all other
    options left out, twelve squares, a pagination hook. *)
Definition data : GalleryData :=
  {| data_options :=
       {| given_rowHeight := Some 100%Z; given_round := None; given_margin := Some 0%Z;
          given_limit := Some 3%Z; given_minRowsAtStart := None |};
     data_images := JsArray (squares 12);
     data_pagination := true;
     data_counters := false |}.


(** A selection of the items 1 and 2 (items named by their number), with
    a hook that has not been called. *)
Definition selection : Selecting nat :=
  {| selected := [1; 2]; has_select := true; select_calls := [] |}.

End Sample.

(* ================================================================== *)
(** ** Doubles *)
(* ================================================================== *)

Lemma digits2_lower (p : positive) : (2 ^ (Z.pos (digits2_pos p) - 1) <= Z.pos p)%Z.
Proof.
  induction p as [p IH | p IH |]; cbn [digits2_pos].
  - rewrite Pos2Z.inj_succ.
    replace (Z.succ (Z.pos (digits2_pos p)) - 1)%Z
      with (Z.succ (Z.pos (digits2_pos p) - 1))%Z by lia.
    rewrite Z.pow_succ_r by lia. lia.
  - rewrite Pos2Z.inj_succ.
    replace (Z.succ (Z.pos (digits2_pos p)) - 1)%Z
      with (Z.succ (Z.pos (digits2_pos p) - 1))%Z by lia.
    rewrite Z.pow_succ_r by lia. lia.
  - reflexivity.
Qed.


Lemma digits2_le (p : positive) (k : Z) :
  (Z.pos p < 2 ^ k)%Z -> (Z.pos (digits2_pos p) <= k)%Z.
Proof.
  intros H. pose proof (digits2_lower p) as L.
  destruct (Z_le_gt_dec (Z.pos (digits2_pos p)) k) as [|G]; [assumption|].
  exfalso.
  assert (0 <= k)%Z.
  { destruct (Z_le_gt_dec 0 k); [assumption|]. rewrite Z.pow_neg_r in H by lia. lia. }
  assert (2 ^ k <= 2 ^ (Z.pos (digits2_pos p) - 1))%Z by (apply Z.pow_le_mono_r; lia).
  lia.
Qed.

Lemma iter_xO_digits (p d : positive) :
  digits2_pos (Pos.iter xO p d) = (digits2_pos p + d)%positive.
Proof.
  induction d as [|d IH] using Pos.peano_ind.
  - cbn. lia.
  - rewrite Pos.iter_succ. cbn [digits2_pos]. rewrite IH. lia.
Qed.

Lemma iter_xO_value (p d : positive) :
  Z.pos (Pos.iter xO p d) = (Z.pos p * 2 ^ Z.pos d)%Z.
Proof.
  induction d as [|d IH] using Pos.peano_ind.
  - cbn. lia.
  - rewrite Pos.iter_succ, Pos2Z.inj_succ, Z.pow_succ_r by lia.
    rewrite Pos2Z.inj_xO, IH. lia.
Qed.

(** A mantissa of 53 binary digits is not rounded. *)
Lemma round_exact (s : bool) (p : positive) (e : Z) :
  Z.pos (digits2_pos p) = 53%Z -> (-1000 <= e <= 0)%Z ->
  binary_round_aux JS.prec JS.emax s (Z.pos p) e loc_Exact = S754_finite s p e.
Proof.
  intros D He.
  unfold binary_round_aux, shr_fexp, Zdigits2, fexp, emin, JS.prec, JS.emax,
    shr_record_of_loc.
  rewrite D.
  replace (Z.max (53 + e - 53) (3 - 1024 - 53) - e)%Z with 0%Z by lia.
  cbn [shr shr_m round_nearest_even loc_of_shr_record shr_r shr_s Zdigits2].
  rewrite D.
  replace (Z.max (53 + e - 53) (3 - 1024 - 53) - e)%Z with 0%Z by lia.
  cbn [shr shr_m].
  replace (e <=? 1024 - 53)%Z with true by (symmetry; apply Z.leb_le; lia).
  reflexivity.
Qed.

(** A positive integer below 2^53 becomes a mantissa of 53 digits and
    an exponent from -52 to 0, with the same value. *)
Lemma binary_round_small (s : bool) (p : positive) :
  (Z.pos p < 2 ^ 53)%Z ->
  exists m e,
    binary_round JS.prec JS.emax s p 0 = S754_finite s m e /\
    Z.pos (digits2_pos m) = 53%Z /\ (-52 <= e <= 0)%Z /\
    Z.pos m = (Z.pos p * 2 ^ (- e))%Z.
Proof.
  intros H. apply digits2_le in H.
  unfold binary_round, shl_align, fexp, emin.
  replace (Z.max (Z.pos (digits2_pos p) + 0 - JS.prec) (3 - JS.emax - JS.prec))%Z
    with (Z.pos (digits2_pos p) - 53)%Z by (unfold JS.prec, JS.emax; lia).
  rewrite Z.sub_0_r.
  destruct (Z.pos (digits2_pos p) - 53)%Z as [|q|d] eqn:E.
  - exists p, 0%Z. rewrite (@round_exact s p 0) by lia.
    split; [reflexivity|]. split; [lia|]. split; [lia|]. cbn. lia.
  - lia.
  - exists (Pos.iter xO p d), (Z.neg d).
    rewrite (@round_exact s (Pos.iter xO p d) (Z.neg d))
      by (try rewrite iter_xO_digits; lia).
    split; [reflexivity|]. split; [rewrite iter_xO_digits; lia|]. split; [lia|].
    apply iter_xO_value.
Qed.

Lemma binary_round_exact (s : bool) (p : positive) :
  (Z.pos p < 2 ^ 53)%Z ->
  JS.Math_floor (binary_round JS.prec JS.emax s p 0)
  = JS.Int (if s then Z.neg p else Z.pos p).
Proof.
  intros H. destruct (binary_round_small s H) as (m & e & -> & _ & He & Hm).
  cbn [JS.Math_floor].
  assert (Hn : (if s then Z.neg m else Z.pos m)
               = ((if s then Z.neg p else Z.pos p) * 2 ^ (- e))%Z).
  { destruct s; [|exact Hm].
    change (Z.neg m) with (- Z.pos m)%Z. change (Z.neg p) with (- Z.pos p)%Z.
    rewrite Hm. lia. }
  rewrite Hn. destruct e as [|q|q]; [|lia|].
  - cbn. f_equal. lia.
  - change (- Z.neg q)%Z with (Z.pos q). f_equal. apply Z.div_mul.
    apply Z.pow_nonzero; lia.
Qed.

(** An integer below 2^53 in magnitude is a double. *)
Lemma nearest_exact (z : Z) : (Z.abs z < 2 ^ 53)%Z -> JS.nearest z = JS.Int z.
Proof.
  intros H. unfold JS.nearest, JS.of_Z, binary_normalize.
  destruct z as [|p|p].
  - reflexivity.
  - apply (@binary_round_exact false). lia.
  - apply (@binary_round_exact true). lia.
Qed.

(** A product below 2^53 in magnitude is exact. *)
Lemma mul_exact (x y : Z) :
  (Z.abs (x * y) < 2 ^ 53)%Z -> JS.mul (JS.Int x) (JS.Int y) = JS.Int (x * y).
Proof. intros H. cbn [JS.mul]. apply nearest_exact, H. Qed.

(** A larger one is rounded: (2^53 - 1) * 3 is 27021597764222973, and the
    double nearest to it is one less. *)
Lemma mul_rounds :
  JS.mul (JS.Int (2 ^ 53 - 1)) (JS.Int 3) = JS.Int 27021597764222972.
Proof. vm_compute. reflexivity. Qed.

(** [JS.mul] is the multiplication of binary64 on these pairs of doubles,
    small and large, of either sign. *)
Lemma mul_is_fmul :
  forallb
    (fun p : Z * Z =>
       match JS.mul (JS.Int (fst p)) (JS.Int (snd p)),
             JS.Math_floor (JS.fmul (JS.of_Z (fst p)) (JS.of_Z (snd p))) with
       | JS.Int a, JS.Int b => (a =? b)%Z
       | JS.PInf, JS.PInf | JS.NInf, JS.NInf => true
       | _, _ => false
       end)
    [(0, 5); (2, 3); (-4, 6); (7, -12); (-3, -9); (1000, 1000);
     (2 ^ 53 - 1, 3); (2 ^ 53 - 1, -3); (2 ^ 53 - 1, 2 ^ 53 - 1);
     (94906267, 94906267); (-94906267, 94906265); (2 ^ 52 + 1, 5);
     (2 ^ 53, 2 ^ 970); (2 ^ 53, 2 ^ 971); (- 2 ^ 53, 2 ^ 971);
     (123456789012345, 987654321)]%Z
  = true.
Proof. vm_compute. reflexivity. Qed.















(* ================================================================== *)
(** ** Page size *)
(* ================================================================== *)








(** With the default row height of 350 pixels the double-precision
    quotient has the floor of the exact one, height / 245, for every
    visible height up to 4000 pixels. *)
Lemma getRowsPerPage_default_exact (v : Viewport) (g : Gallery) :
  options g = default_options ->
  (0 <= winHeight v - bodyOffsetTop v <= 4000)%Z ->
  getRowsPerPage v g = JS.Int (Z.max 2 ((winHeight v - bodyOffsetTop v) / 245)).
Proof.
  intros Ho Hh. unfold getRowsPerPage. rewrite Ho. cbn [limit default_options
    rowHeight minRowsAtStart Z.eqb negb].
  set (h := (winHeight v - bodyOffsetTop v)%Z) in *.
  assert (Hall : forallb
            (fun n =>
               match JS.Math_floor
                       (JS.fdiv (JS.of_Z (Z.of_nat n)) (JS.fmul (JS.of_Z 350) JS.lit_0_7))
               with
               | JS.Int q => (q =? Z.of_nat n / 245)%Z
               | _ => false
               end)
            (seq 0 4001) = true) by (vm_compute; reflexivity).
  rewrite forallb_forall in Hall.
  specialize (Hall (Z.to_nat h)). rewrite Z2Nat.id in Hall by lia.
  assert (Hin : In (Z.to_nat h) (seq 0 4001)) by (apply in_seq; lia).
  specialize (Hall Hin).
  destruct (JS.Math_floor (JS.fdiv (JS.of_Z h) (JS.fmul (JS.of_Z 350) JS.lit_0_7)))
    as [q| | |]; try discriminate.
  apply Z.eqb_eq in Hall. subst q. cbn [JS.ltb].
  destruct (Z.ltb_spec (h / 245) 2); f_equal; lia.
Qed.

(* ================================================================== *)
(** ** Rows of a collection *)
(* ================================================================== *)

Lemma monotone_tail (x : nat) (rows : list nat) :
  monotone (x :: rows) -> monotone rows.
Proof.
  intros H i a b Ha Hb. exact (H (S i) a b Ha Hb).
Qed.

Lemma monotone_head (x : nat) (rows : list nat) :
  monotone (x :: rows) -> Forall (fun y => x <= y) rows.
Proof.
  revert x. induction rows as [|y rows IH]; intros x H; constructor.
  - exact (H 0 x y eq_refl eq_refl).
  - assert (Hxy : x <= y) by exact (H 0 x y eq_refl eq_refl).
    specialize (IH y (monotone_tail H)).
    eapply Forall_impl; [|exact IH]. simpl. intros; lia.
Qed.

Lemma monotone_cons (x : nat) (rows : list nat) :
  Forall (fun y => x <= y) rows -> monotone rows -> monotone (x :: rows).
Proof.
  intros Hx Hm [|i] a b Ha Hb; simpl in *.
  - injection Ha as <-. destruct rows as [|y rows]; [discriminate|].
    injection Hb as <-. inversion Hx; assumption.
  - exact (Hm i a b Ha Hb).
Qed.

Lemma monotone_skipn (k : nat) (rows : list nat) :
  monotone rows -> monotone (skipn k rows).
Proof.
  revert rows. induction k as [|k IH]; intros [|x rows] H; simpl; auto.
  apply IH. exact (monotone_tail H).
Qed.

Lemma chained_ge (r : nat) (rows : list nat) :
  chained r rows -> Forall (fun y => r <= y) rows.
Proof.
  revert r. induction rows as [|x rows IH]; intros r H; constructor.
  - destruct H as [[->| ->] _]; lia.
  - destruct H as [Hx H]. specialize (IH x H).
    eapply Forall_impl; [|exact IH]. simpl. intros; destruct Hx; lia.
Qed.

Lemma chained_monotone (r : nat) (rows : list nat) :
  chained r rows -> monotone rows.
Proof.
  revert r. induction rows as [|x rows IH]; intros r H.
  - intros [|i] a b Ha; discriminate.
  - destruct H as [_ H]. apply monotone_cons; [exact (chained_ge _ _ H) | exact (IH x H)].
Qed.

Lemma rows_from_zero_monotone (rows : list nat) :
  rows_from_zero rows -> monotone rows.
Proof.
  destruct rows as [|x rows]; simpl.
  - intros _ [|i] a b Ha; discriminate.
  - intros [-> H]. apply monotone_cons; [exact (chained_ge _ _ H) | exact (chained_monotone _ _ H)].
Qed.

(** What is left of a chained list after its first [k] elements is
    chained from its own first element. *)
Lemma chained_skipn (k r : nat) (rows : list nat) (x : nat) (rest : list nat) :
  chained r rows -> skipn k rows = x :: rest -> chained x rest.
Proof.
  revert r rows. induction k as [|k IH]; intros r rows H E; simpl in E.
  - subst rows. exact (proj2 H).
  - destruct rows as [|y rows]; [discriminate|].
    exact (IH y rows (proj2 H) E).
Qed.

Lemma rows_from_zero_skipn (k : nat) (rows : list nat) (x : nat) (rest : list nat) :
  rows_from_zero rows -> skipn k rows = x :: rest -> chained x rest.
Proof.
  destruct rows as [|y rows]; simpl.
  - intros _ E. destruct k; discriminate.
  - intros [-> H] E. destruct k as [|k]; simpl in E.
    + injection E as <- <-. exact H.
    + exact (chained_skipn k 0 rows H E).
Qed.

(** *** The test of the loop on a monotone collection *)

Lemma below_downward (L : option JS.number) (a b : Item) :
  row a <= row b -> below L b = true -> below L a = true.
Proof.
  unfold below. destruct (JS.ToNumber L) as [z| | |]; simpl; auto.
  intros Hab H. apply Z.ltb_lt in H. apply Z.ltb_lt. lia.
Qed.

Lemma filter_below_nil (L : option JS.number) (x : Item) (items : list Item) :
  Forall (fun y => row x <= y) (rows_of items) ->
  below L x = false -> filter (below L) items = [].
Proof.
  induction items as [|y items IH]; simpl; intros H Hx; [reflexivity|].
  inversion H as [|? ? Hy Hrest]; subst.
  destruct (below L y) eqn:E.
  - rewrite (below_downward L x y Hy E) in Hx. discriminate.
  - exact (IH Hrest Hx).
Qed.

(** On a monotone collection the items that pass the test are a prefix. *)
Lemma filter_below_prefix (L : option JS.number) (items : list Item) :
  monotone (rows_of items) ->
  filter (below L) items = firstn (length (filter (below L) items)) items.
Proof.
  induction items as [|x items IH]; simpl; intros H; [reflexivity|].
  destruct (below L x) eqn:E; simpl.
  - f_equal. exact (IH (monotone_tail H)).
  - rewrite (filter_below_nil L x items (monotone_head H) E). reflexivity.
Qed.

(* ================================================================== *)
(** ** The loop of [addElements] *)
(* ================================================================== *)

Ltac case_if :=
  match goal with |- context [if ?c then _ else _] => destruct c end.

Lemma loop_cons (L : option JS.number) (x : Item) (items : list Item) (g : Gallery) :
  addElements_loop L (x :: items) g
  = addElements_loop L items (addElements_step L x g).
Proof. reflexivity. Qed.

Lemma loop_collection (L : option JS.number) (items : list Item) (g : Gallery) :
  collection (addElements_loop L items g) = collection g.
Proof.
  revert g. induction items as [|x items IH]; intros g; [reflexivity|].
  rewrite loop_cons, IH. unfold addElements_step.
  destruct (below L x); cbn; case_if; reflexivity.
Qed.

(** The loop appends the items that pass the test, in order. *)
Lemma loop_pswpContainer (L : option JS.number) (items : list Item) (g : Gallery) :
  pswpContainer (addElements_loop L items g)
  = pswpContainer g ++ map getPswpItem (filter (below L) items).
Proof.
  revert g. induction items as [|x items IH]; intros g.
  - cbn. rewrite app_nil_r. reflexivity.
  - rewrite loop_cons, IH. unfold addElements_step. cbn [filter].
    destruct (below L x); cbn; case_if; cbn; rewrite <- ?app_assoc; reflexivity.
Qed.

Lemma loop_bodyItems (L : option JS.number) (items : list Item) (g : Gallery) :
  bodyItems (addElements_loop L items g)
  = bodyItems g ++ map fields (filter (below L) items).
Proof.
  revert g. induction items as [|x items IH]; intros g.
  - cbn. rewrite app_nil_r. reflexivity.
  - rewrite loop_cons, IH. unfold addElements_step. cbn [filter].
    destruct (below L x); cbn; case_if; cbn; rewrite <- ?app_assoc; reflexivity.
Qed.

(** The fields that the loop leaves alone. *)
Lemma loop_frame (L : option JS.number) (items : list Item) (g : Gallery) :
  let g' := addElements_loop L items g in
  options g' = options g /\ has_pagination g' = has_pagination g /\
  pagination_calls g' = pagination_calls g /\ old_scroll_top g' = old_scroll_top g /\
  bodyWidth g' = bodyWidth g /\ noResults g' = noResults g /\
  imagesContainer g' = imagesContainer g /\ galleryVisible g' = galleryVisible g /\
  galleryTotal g' = galleryTotal g.
Proof.
  revert g. induction items as [|x items IH]; intros g.
  - cbn. repeat split.
  - cbv zeta. rewrite loop_cons.
    specialize (IH (addElements_step L x g)). cbv zeta in IH. decompose [and] IH.
    repeat split;
      match goal with H : ?f (addElements_loop _ _ _) = _ |- ?f _ = _ => rewrite H end;
      unfold addElements_step; destruct (below L x); cbn; case_if; reflexivity.
Qed.

(** The "next" button after the loop: hidden exactly when the last
    iteration found the materialized set as long as the collection. *)
Lemma loop_nextButton (L : option JS.number) (items : list Item) (g : Gallery) :
  length (pswpContainer g) + length items <= length (collection g) ->
  nextButton (addElements_loop L items g)
  = match items with
    | [] => nextButton g
    | _ => if length (pswpContainer g) + length (filter (below L) items)
              =? length (collection g)
           then none else nextButton g
    end.
Proof.
  revert g. induction items as [|x items IH]; intros g Hlen; [reflexivity|].
  pose proof (filter_length_le (below L) items) as Hle.
  rewrite loop_cons. unfold addElements_step. cbn [filter length] in *.
  destruct (below L x) eqn:E.
  - cbn [pswpContainer set_bodyItems set_pswpContainer collection].
    rewrite length_app. cbn [length].
    destruct (Nat.eqb_spec (length (pswpContainer g) + 1) (length (collection g))) as [Heq|Hne].
    + assert (items = []) by (destruct items; cbn [length] in *; [reflexivity | lia]).
      subst items. cbn. 
      destruct (Nat.eqb_spec (length (pswpContainer g) + 1) (length (collection g))); [reflexivity|lia].
    + rewrite IH by (cbn; rewrite length_app; cbn; lia).
      cbn. rewrite length_app. cbn [length].
      destruct items as [|y items].
      * cbn. destruct (Nat.eqb_spec (length (pswpContainer g) + 1) (length (collection g))); [lia|reflexivity].
      * replace (length (pswpContainer g) + 1 + length (filter (below L) (y :: items)))
          with (length (pswpContainer g) + S (length (filter (below L) (y :: items)))) by lia.
        reflexivity.
  - destruct (Nat.eqb_spec (length (pswpContainer g)) (length (collection g))) as [Heq|Hne];
      [lia|].
    rewrite IH by lia.
    destruct (Nat.eqb_spec (length (pswpContainer g) + length (filter (below L) items))
                (length (collection g))); [lia|].
    destruct items; reflexivity.
Qed.

(* ================================================================== *)
(** ** [addElements] *)
(* ================================================================== *)

Lemma finish_frame (g : Gallery) :
  let g' := addElements_finish g in
  options g' = options g /\ has_pagination g' = has_pagination g /\
  pagination_calls g' = pagination_calls g /\ old_scroll_top g' = old_scroll_top g /\
  bodyWidth g' = bodyWidth g /\ pswpContainer g' = pswpContainer g /\
  collection g' = collection g /\ bodyItems g' = bodyItems g /\
  nextButton g' = nextButton g /\ noResults g' = none.
Proof.
  destruct g as [o h p s w c l b n r [i|] [gv|] [gt|]]; cbn; repeat split.
Qed.

(** When some item is not materialized, [addElements] runs its loop over
    the items from the first one that is not, and returns. *)
Lemma addElements_reveal (rows : option JS.number) (g : Gallery) :
  length (pswpContainer g) < length (collection g) ->
  addElements rows g
  = Return (addElements_finish
              (addElements_loop (bound rows g)
                 (skipn (length (pswpContainer g)) (collection g))
                 (set_nextButton block g))).
Proof.
  intros Hlt. unfold addElements, bound.
  cbn [pswpContainer collection set_nextButton].
  destruct (Nat.eqb_spec (length (pswpContainer g)) (length (collection g))); [lia|].
  destruct (length (pswpContainer g) =? 0); [reflexivity|].
  destruct (nth_error (collection g) (length (pswpContainer g))) eqn:E; [reflexivity|].
  apply nth_error_None in E. lia.
Qed.

(** The fields that [addElements] leaves alone. *)
Lemma addElements_frame (rows : option JS.number) (g : Gallery) :
  let g' := state_of (addElements rows g) in
  options g' = options g /\ has_pagination g' = has_pagination g /\
  pagination_calls g' = pagination_calls g /\ old_scroll_top g' = old_scroll_top g /\
  bodyWidth g' = bodyWidth g.
Proof.
  assert (Hloop : forall L items,
    let g' := addElements_finish (addElements_loop L items (set_nextButton block g)) in
    options g' = options g /\ has_pagination g' = has_pagination g /\
    pagination_calls g' = pagination_calls g /\ old_scroll_top g' = old_scroll_top g /\
    bodyWidth g' = bodyWidth g).
  { intros L items.
    destruct (finish_frame (addElements_loop L items (set_nextButton block g)))
      as (H1 & H2 & H3 & H4 & H5 & _).
    destruct (loop_frame L items (set_nextButton block g))
      as (K1 & K2 & K3 & K4 & K5 & _).
    cbv zeta in *. rewrite H1, H2, H3, H4, H5, K1, K2, K3, K4, K5. repeat split. }
  unfold addElements. cbn [pswpContainer collection set_nextButton].
  destruct (length (pswpContainer g) =? length (collection g)).
  - destruct (length (collection g) =? 0); [|cbn; repeat split].
    cbn [imagesContainer set_noResults set_nextButton].
    destruct (imagesContainer g); cbn; repeat split.
  - destruct (length (pswpContainer g) =? 0); [apply Hloop|].
    destruct (nth_error (collection g) (length (pswpContainer g))); [apply Hloop|].
    cbn. repeat split.
Qed.

(** When every item is materialized, [addElements] changes no list. *)
Lemma addElements_complete (rows : option JS.number) (g : Gallery) :
  length (pswpContainer g) = length (collection g) ->
  let g' := state_of (addElements rows g) in
  pswpContainer g' = pswpContainer g /\ collection g' = collection g /\
  bodyItems g' = bodyItems g /\ nextButton g' = none /\
  pagination_calls g' = pagination_calls g /\ options g' = options g /\
  bodyWidth g' = bodyWidth g /\ old_scroll_top g' = old_scroll_top g /\
  has_pagination g' = has_pagination g.
Proof.
  intros Heq. unfold addElements.
  cbn [pswpContainer collection set_nextButton].
  rewrite Heq, Nat.eqb_refl.
  destruct (length (collection g) =? 0); cbn; [|repeat split].
  destruct (imagesContainer g); cbn; repeat split.
Qed.

(** [addElements] returns whenever the collection is not empty or the
    page has the element that counts the images. *)
Lemma addElements_returns (rows : option JS.number) (g : Gallery) :
  length (pswpContainer g) <= length (collection g) ->
  collection g <> [] \/ imagesContainer g <> None ->
  returns (addElements rows g) = true.
Proof.
  intros Hle Hok.
  destruct (Nat.eq_dec (length (pswpContainer g)) (length (collection g))) as [Heq|Hne].
  - unfold addElements. cbn [pswpContainer collection set_nextButton].
    rewrite Heq, Nat.eqb_refl.
    destruct (collection g) as [|x c] eqn:Ec; [|reflexivity].
    cbn. destruct (imagesContainer g); [reflexivity|].
    destruct Hok as [H|H]; exfalso; apply H; reflexivity.
  - rewrite addElements_reveal by lia. reflexivity.
Qed.

(** What a reveal does to the lists and to the "next" button, from any
    state in which the materialized set is no longer than the collection. *)
Lemma addElements_materialized (rows : option JS.number) (g : Gallery) :
  length (pswpContainer g) <= length (collection g) ->
  let g' := state_of (addElements rows g) in
  collection g' = collection g /\
  pswpContainer g'
  = pswpContainer g
    ++ map getPswpItem
         (filter (below (bound rows g))
            (skipn (length (pswpContainer g)) (collection g))) /\
  (nextButton g' = none <-> length (pswpContainer g') = length (collection g')).
Proof.
  intros Hle.
  destruct (Nat.eq_dec (length (pswpContainer g)) (length (collection g))) as [Heq|Hne].
  - destruct (addElements_complete rows g Heq) as (Hp & Hc & _ & Hn & _).
    cbv zeta. rewrite Hp, Hc, Hn, Heq, skipn_all. cbn. rewrite app_nil_r.
    repeat split; auto.
  - rewrite addElements_reveal by lia. cbn [state_of].
    set (items := skipn (length (pswpContainer g)) (collection g)).
    set (g0 := set_nextButton block g).
    destruct (finish_frame (addElements_loop (bound rows g) items g0))
      as (_ & _ & _ & _ & _ & Hp & Hc & _ & Hn & _).
    cbv zeta in *. rewrite Hp, Hc, Hn, loop_collection, loop_pswpContainer.
    assert (Hitems : length (pswpContainer g0) + length items = length (collection g0)).
    { subst items g0. cbn. rewrite length_skipn. lia. }
    rewrite loop_nextButton by lia.
    repeat split.
    + destruct items as [|x items]; [cbn in Hitems; subst g0; cbn in *; lia|].
      rewrite length_app, length_map.
      destruct (Nat.eqb_spec (length (pswpContainer g0)
                              + length (filter (below (bound rows g)) (x :: items)))
                  (length (collection g0))); [auto | cbn; discriminate].
    + rewrite length_app, length_map. intros E.
      destruct items as [|x items]; [cbn in Hitems; subst g0; cbn in *; lia|].
      destruct (Nat.eqb_spec (length (pswpContainer g0)
                              + length (filter (below (bound rows g)) (x :: items)))
                  (length (collection g0))) as [|Hn']; [reflexivity|].
      exfalso. apply Hn'. exact E.
Qed.

(* ================================================================== *)
(** ** Counting the rows of a collection numbered without a gap *)
(* ================================================================== *)

Lemma not_in_above (x : nat) (rows : list nat) :
  Forall (fun y => S x <= y) rows -> ~ In x rows.
Proof.
  intros H Hin. rewrite Forall_forall in H. specialize (H x Hin). lia.
Qed.

Lemma nodup_same (x : nat) (rows : list nat) :
  nodup Nat.eq_dec (x :: x :: rows) = nodup Nat.eq_dec (x :: rows).
Proof.
  cbn [nodup]. destruct (in_dec Nat.eq_dec x (x :: rows)) as [_|n]; [reflexivity|].
  exfalso. apply n. left. reflexivity.
Qed.

Lemma nodup_fresh (x : nat) (rows : list nat) :
  Forall (fun y => S x <= y) rows ->
  nodup Nat.eq_dec (x :: rows) = x :: nodup Nat.eq_dec rows.
Proof.
  intros H. cbn [nodup]. destruct (in_dec Nat.eq_dec x rows) as [i|_]; [|reflexivity].
  exfalso. exact (not_in_above H i).
Qed.

Lemma nodup_nonempty (x : nat) (rows : list nat) :
  1 <= length (nodup Nat.eq_dec (x :: rows)).
Proof.
  assert (H : In x (nodup Nat.eq_dec (x :: rows))) by (apply nodup_In; left; reflexivity).
  destruct (nodup Nat.eq_dec (x :: rows)); [destruct H | cbn; lia].
Qed.

Lemma filter_above (b : nat) (rows : list nat) :
  Forall (fun y => b <= y) rows -> filter (fun r => r <? b) rows = [].
Proof.
  induction 1 as [|y rows Hy _ IH]; cbn [filter]; [reflexivity|].
  destruct (Nat.ltb_spec y b); [lia | exact IH].
Qed.

Lemma filter_Forall (P : nat -> Prop) (p : nat -> bool) (rows : list nat) :
  Forall P rows -> Forall P (filter p rows).
Proof.
  induction 1 as [|y rows Hy _ IH]; cbn [filter]; [constructor|].
  destruct (p y); [constructor|]; assumption.
Qed.

(** Every row of a list chained from [x] lies within the number of
    distinct rows from [x]. *)
Lemma chained_span (x : nat) (rows : list nat) :
  chained x rows ->
  Forall (fun y => y < x + length (nodup Nat.eq_dec (x :: rows))) (x :: rows).
Proof.
  revert x. induction rows as [|z rows IH]; intros x H.
  - constructor; [cbn; lia | constructor].
  - destruct H as [Hz H]. specialize (IH z H).
    pose proof (chained_ge _ _ H) as Hge.
    destruct Hz as [->| ->].
    + rewrite nodup_same. constructor; [|exact IH].
      inversion IH; assumption.
    + rewrite nodup_fresh by (constructor; [lia|];
                              eapply Forall_impl; [|exact Hge]; cbn; intros; lia).
      cbn [length]. constructor; [lia|].
      eapply Forall_impl; [|exact IH]. cbn. intros; lia.
Qed.

(** The rows below [b] of a list chained from [x] are [b - x] distinct
    rows, or all the rows of the list when it has fewer. *)
Lemma chained_filter_distinct (b x : nat) (rows : list nat) :
  chained x rows -> x < b ->
  length (nodup Nat.eq_dec (filter (fun r => r <? b) (x :: rows)))
  = Nat.min (b - x) (length (nodup Nat.eq_dec (x :: rows))).
Proof.
  revert x. induction rows as [|z rows IH]; intros x H Hb.
  - cbn [filter]. destruct (Nat.ltb_spec x b); [cbn; lia | lia].
  - destruct H as [Hz H]. pose proof (chained_ge _ _ H) as Hge.
    assert (Ex : (x <? b) = true) by (apply Nat.ltb_lt; lia).
    destruct Hz as [->| ->].
    + specialize (IH x H Hb). rewrite nodup_same.
      cbn [filter] in *. rewrite Ex in *. rewrite nodup_same. exact IH.
    + assert (Habove : Forall (fun y => S x <= y) (S x :: rows)).
      { constructor; [lia|]. exact Hge. }
      rewrite (nodup_fresh Habove). cbn [length].
      destruct (Nat.ltb_spec (S x) b) as [Hlt|Hge'].
      * specialize (IH (S x) H Hlt).
        change (filter (fun r => r <? b) (x :: S x :: rows))
          with (if x <? b then x :: filter (fun r => r <? b) (S x :: rows)
                else filter (fun r => r <? b) (S x :: rows)).
        rewrite Ex, nodup_fresh by (apply filter_Forall; exact Habove).
        cbn [length]. rewrite IH. lia.
      * change (filter (fun r => r <? b) (x :: S x :: rows))
          with (if x <? b then x :: filter (fun r => r <? b) (S x :: rows)
                else filter (fun r => r <? b) (S x :: rows)).
        rewrite Ex, filter_above
          by (eapply Forall_impl; [|exact Habove]; cbn; intros; lia).
        change (nodup Nat.eq_dec [x]) with [x]. cbn [length]. lia.
Qed.

Lemma rows_of_filter (p : nat -> bool) (items : list Item) :
  rows_of (filter (fun i => p (row i)) items) = filter p (rows_of items).
Proof.
  unfold rows_of. induction items as [|x items IH]; cbn [filter map]; [reflexivity|].
  destruct (p (row x)); cbn [filter map]; rewrite IH; reflexivity.
Qed.

Lemma rows_of_skipn (k : nat) (items : list Item) :
  rows_of (skipn k items) = skipn k (rows_of items).
Proof.
  unfold rows_of. revert items. induction k; intros [|x items]; cbn; auto.
Qed.

(** *** Prefixes *)

Lemma firstn_then_firstn (A : Type) (k m : nat) (l : list A) :
  firstn k l ++ firstn m (skipn k l) = firstn (k + m) l.
Proof.
  revert l. induction k as [|k IH]; intros [|x l]; cbn; auto.
  - rewrite firstn_nil. reflexivity.
  - rewrite IH. reflexivity.
Qed.

Lemma skipn_head (A : Type) (k : nat) (l : list A) :
  nth_error l k = match skipn k l with [] => None | x :: _ => Some x end.
Proof.
  revert l. induction k as [|k IH]; intros [|x l]; cbn; auto.
Qed.

Lemma prefix_length (g : Gallery) :
  materialized_prefix g -> length (pswpContainer g) <= length (collection g).
Proof.
  intros (k & Hk & E). rewrite E, length_map, length_firstn. lia.
Qed.

Lemma prefix_firstn (g : Gallery) :
  materialized_prefix g ->
  pswpContainer g
  = map getPswpItem (firstn (length (pswpContainer g)) (collection g)).
Proof.
  intros (k & Hk & E).
  assert (length (pswpContainer g) = k)
    by (rewrite E, length_map, length_firstn; lia).
  congruence.
Qed.

(** A reveal keeps the materialized set a prefix of a monotone collection,
    whatever the number of rows asked for. *)
Lemma addElements_prefix (rows : option JS.number) (g : Gallery) :
  monotone (rows_of (collection g)) -> materialized_prefix g ->
  materialized_prefix (state_of (addElements rows g)).
Proof.
  intros Hm Hp. pose proof (prefix_length Hp) as Hle.
  destruct (addElements_materialized rows g Hle) as (Hc & Hs & _).
  set (k := length (pswpContainer g)) in *.
  set (rest := skipn k (collection g)) in *.
  assert (Hrest : monotone (rows_of rest)).
  { subst rest. rewrite rows_of_skipn. apply monotone_skipn. exact Hm. }
  rewrite (filter_below_prefix (bound rows g) rest Hrest) in Hs.
  set (m := length (filter (below (bound rows g)) rest)) in *.
  assert (Hmle : m <= length rest) by apply filter_length_le.
  exists (k + m). rewrite Hc, Hs. split.
  - subst rest. rewrite length_skipn in Hmle. lia.
  - rewrite (prefix_firstn Hp) at 1. fold k.
    rewrite <- map_app. subst rest. rewrite firstn_then_firstn. reflexivity.
Qed.

(* ================================================================== *)
(** ** Revealing rows *)
(* ================================================================== *)

(** With rows numbered from zero, the bound of the loop is the row of the
    first item that is not materialized plus the row count. *)
Lemma bound_from_frontier (g : Gallery) (rowCount : Z) (x : Item) (rest : list Item) :
  rows_from_zero (rows_of (collection g)) ->
  skipn (length (pswpContainer g)) (collection g) = x :: rest ->
  bound (Some (JS.Int rowCount)) g = Some (JS.Int (Z.of_nat (row x) + rowCount)).
Proof.
  intros Hz E. unfold bound.
  rewrite (skipn_head (length (pswpContainer g)) (collection g)), E.
  destruct (length (pswpContainer g)) as [|k] eqn:Ek; [|reflexivity].
  cbn in E. rewrite E in Hz. destruct Hz as [Hx _]. cbn [Nat.eqb].
  rewrite Hx. reflexivity.
Qed.

(** With rows numbered from zero, a reveal appends the items that are not
    materialized and lie below the frontier plus the row count. *)
Lemma reveal_appends (g : Gallery) (rowCount : Z) :
  rows_from_zero (rows_of (collection g)) ->
  materialized_prefix g ->
  let g' := state_of (addElements (Some (JS.Int rowCount)) g) in
  collection g' = collection g /\
  pswpContainer g' = pswpContainer g ++ map getPswpItem (rows_from_frontier g rowCount).
Proof.
  intros Hz Hp.
  destruct (addElements_materialized (Some (JS.Int rowCount)) g (prefix_length Hp))
    as (Hc & Hs & _).
  cbv zeta. split; [exact Hc|]. rewrite Hs. do 2 f_equal.
  unfold rows_from_frontier, frontier_row, unmaterialized.
  destruct (skipn (length (pswpContainer g)) (collection g)) as [|x rest] eqn:E;
    [reflexivity|].
  rewrite (@bound_from_frontier g rowCount x rest Hz E). reflexivity.
Qed.

(** The items left from the frontier on are chained from the frontier. *)
Lemma unmaterialized_chained (g : Gallery) (x : Item) (rest : list Item) :
  rows_from_zero (rows_of (collection g)) ->
  unmaterialized g = x :: rest -> chained (row x) (rows_of rest).
Proof.
  intros Hz E.
  apply (@rows_from_zero_skipn (length (pswpContainer g)) (rows_of (collection g))
           (row x) (rows_of rest) Hz).
  rewrite <- rows_of_skipn. fold (unmaterialized g). rewrite E. reflexivity.
Qed.

(** The test against the frontier plus a positive row count, on naturals. *)
Lemma rows_from_frontier_nat (g : Gallery) (rowCount : Z) :
  (0 < rowCount)%Z ->
  rows_from_frontier g rowCount
  = filter (fun i => row i <? frontier_row g + Z.to_nat rowCount) (unmaterialized g).
Proof.
  intros Hpos. apply filter_ext. intros i.
  destruct (Z.ltb_spec (Z.of_nat (row i)) (Z.of_nat (frontier_row g) + rowCount));
    destruct (Nat.ltb_spec (row i) (frontier_row g + Z.to_nat rowCount));
    try reflexivity; lia.
Qed.

(** C1.  With the rows of the collection numbered from zero without a gap
    and the materialized set a prefix of it, a reveal of a positive
    number of rows does what [reveals_rows] says: it appends the items
    below the frontier plus the row count, which are that many distinct
    rows or all the rows left, reaches the end of the collection when
    fewer are left, and hides the "next" button exactly when the whole
    collection is materialized.  The call returns when the collection is
    not empty. *)
Theorem addElements_reveals_rows (g : Gallery) (rowCount : Z) :
  rows_from_zero (rows_of (collection g)) ->
  materialized_prefix g ->
  (0 < rowCount)%Z ->
  reveals_rows g rowCount /\
  (collection g <> [] -> returns (addElements (Some (JS.Int rowCount)) g) = true).
Proof.
  intros Hz Hp Hpos.
  split;
    [|intros Hne; apply addElements_returns; [exact (prefix_length Hp) | left; exact Hne]].
  unfold reveals_rows. cbv zeta.
  destruct (reveal_appends rowCount Hz Hp) as (Hc & Hs). cbv zeta in Hc, Hs.
  destruct (addElements_materialized (Some (JS.Int rowCount)) g (prefix_length Hp))
    as (_ & _ & Hn).
  cbv zeta in Hn.
  set (g' := state_of (addElements (Some (JS.Int rowCount)) g)) in *.
  set (n := Z.to_nat rowCount).
  assert (Hd : Z.of_nat (distinct_rows (rows_from_frontier g rowCount))
               = Z.min rowCount (Z.of_nat (distinct_rows (unmaterialized g)))).
  { rewrite (rows_from_frontier_nat g Hpos). unfold frontier_row.
    destruct (unmaterialized g) as [|x rest] eqn:E; [cbn; lia|].
    unfold distinct_rows.
    rewrite (rows_of_filter (fun r => r <? row x + Z.to_nat rowCount) (x :: rest)).
    change (rows_of (x :: rest)) with (row x :: rows_of rest).
    rewrite (@chained_filter_distinct (row x + Z.to_nat rowCount) (row x) (rows_of rest)
               (unmaterialized_chained g Hz E)) by lia.
    lia. }
  assert (Hall : (Z.of_nat (distinct_rows (unmaterialized g)) <= rowCount)%Z ->
                 pswpContainer g' = map getPswpItem (collection g')).
  { intros Hfew.
    assert (Hkeep : rows_from_frontier g rowCount = unmaterialized g).
    { rewrite (rows_from_frontier_nat g Hpos). unfold frontier_row.
      destruct (unmaterialized g) as [|x rest] eqn:E; [reflexivity|].
      apply forallb_filter_id, forallb_forall. intros i Hi.
      pose proof (chained_span _ _ (unmaterialized_chained g Hz E)) as Hspan.
      rewrite Forall_forall in Hspan.
      assert (Hin : In (row i) (row x :: rows_of rest)).
      { change (row x :: rows_of rest) with (rows_of (x :: rest)).
        unfold rows_of. apply in_map. exact Hi. }
      specialize (Hspan _ Hin). apply Nat.ltb_lt.
      unfold distinct_rows in Hfew.
      change (rows_of (x :: rest)) with (row x :: rows_of rest) in Hfew. lia. }
    rewrite Hs, Hc, Hkeep, (prefix_firstn Hp). unfold unmaterialized.
    rewrite <- map_app, firstn_skipn. reflexivity. }
  split; [exact Hc|]. split; [exact Hs|]. split; [exact Hd|]. split; [exact Hall|].
  split.
  - intros E. apply Hn. rewrite E, length_map. reflexivity.
  - intros E. apply Hn in E.
    destruct (@addElements_prefix (Some (JS.Int rowCount)) g
                (rows_from_zero_monotone _ Hz) Hp) as (k' & Hk' & Ek').
    fold g' in Hk', Ek'. rewrite Ek'. f_equal.
    rewrite Ek', length_map, length_firstn in E.
    replace k' with (length (collection g')) by lia.
    apply firstn_all.
Qed.

Lemma monotone_nil : monotone [].
Proof. intros [|i] a b H; discriminate. Qed.

Lemma addElements_reveals_rows_witness :
  let g := Sample.showing 2 (Sample.with_rows [0; 0; 1; 1; 2]) in
  rows_from_zero (rows_of (collection g)) /\ materialized_prefix g /\
  (0 < 1)%Z /\ reveals_rows g 1 /\
  map id (pswpContainer (state_of (addElements (Some (JS.Int 1)) g))) = [0; 1; 2; 3].
Proof.
  assert (H1 : rows_from_zero
                 (rows_of (collection (Sample.showing 2 (Sample.with_rows [0; 0; 1; 1; 2]))))).
  { cbn. repeat split; auto. }
  assert (H2 : materialized_prefix (Sample.showing 2 (Sample.with_rows [0; 0; 1; 1; 2]))).
  { exists 2. split; [cbn; lia | reflexivity]. }
  assert (H3 : (0 < 1)%Z) by lia.
  exact (conj H1 (conj H2 (conj H3
           (conj (proj1 (@addElements_reveals_rows _ 1%Z H1 H2 H3)) eq_refl)))).
Defined.

(** A collection whose rows never decrease but do not start at zero:
    nothing is materialized yet, one row is asked for, and no item is
    revealed although the only item lies in the first row that is left. *)
Lemma addElements_reveals_rows_not_from_monotone :
  let g := Sample.showing 0 (Sample.with_rows [1]) in
  monotone (rows_of (collection g)) /\ materialized_prefix g /\
  (0 < 1)%Z /\ ~ reveals_rows g 1.
Proof.
  cbv zeta. split; [|split; [|split]].
  - cbn. apply monotone_cons; [constructor | apply monotone_nil].
  - exists 0. split; [cbn; lia | reflexivity].
  - lia.
  - intros (_ & Hs & _). vm_compute in Hs. discriminate.
Qed.

(** A collection whose rows never decrease but skip a number: two rows
    are asked for and are left, yet one row is revealed. *)
Lemma addElements_reveals_rows_not_with_gap :
  let g := Sample.showing 0 (Sample.with_rows [0; 2]) in
  monotone (rows_of (collection g)) /\ materialized_prefix g /\
  (0 < 2)%Z /\ ~ reveals_rows g 2.
Proof.
  cbv zeta. split; [|split; [|split]].
  - cbn. apply monotone_cons; [repeat constructor |].
    apply monotone_cons; [constructor | apply monotone_nil].
  - exists 0. split; [cbn; lia | reflexivity].
  - lia.
  - intros (_ & _ & Hd & _). vm_compute in Hd. discriminate.
Qed.

(* ================================================================== *)
(** ** The layout written after the specification *)
(* ================================================================== *)

Lemma pack_fields (o : IGalleryOptions) (W : Z) (items : list Item) :
  forall r acc count,
    map fields (Organizer.pack o W r acc count items) = map fields items.
Proof.
  induction items as [|x items IH]; intros r acc count; cbn [Organizer.pack map];
    [reflexivity|].
  destruct (count =? 0); [|destruct (_ <=? _)%Z]; cbn [map fields]; rewrite IH; reflexivity.
Qed.

Lemma pack_chained (o : IGalleryOptions) (W : Z) (items : list Item) :
  forall r acc count, chained r (rows_of (Organizer.pack o W r acc count items)).
Proof.
  unfold rows_of.
  induction items as [|x items IH]; intros r acc count; cbn [Organizer.pack map chained];
    [exact I|].
  destruct (count =? 0); [|destruct (_ <=? _)%Z]; cbn [map row chained]; split; auto.
Qed.

Lemma organize_fields (o : IGalleryOptions) (W : Z) (items : list Item) :
  map fields (Organizer.organize o W items) = map fields items.
Proof. apply pack_fields. Qed.

Lemma organize_rows_from_zero (o : IGalleryOptions) (W : Z) (items : list Item) :
  rows_from_zero (rows_of (Organizer.organize o W items)).
Proof.
  unfold Organizer.organize. destruct items as [|x items]; [exact I|].
  cbn. split; [reflexivity | apply pack_chained].
Qed.

Lemma organize_monotone (o : IGalleryOptions) (W : Z) (items : list Item) :
  monotone (rows_of (Organizer.organize o W items)).
Proof. apply rows_from_zero_monotone, organize_rows_from_zero. Qed.

(* ================================================================== *)
(** ** The materialized set is a prefix of the collection *)
(* ================================================================== *)

Lemma reset_prefix (g : Gallery) : materialized_prefix (reset g).
Proof. exists 0. split; [lia | reflexivity]. Qed.

(** Replacing the collection by one with the same items in front, rows
    recomputed and new items at the end, keeps the materialized set a
    prefix. *)
Lemma prefix_set_collection (g : Gallery) (c : list Item) (extra : list Item) :
  materialized_prefix g ->
  map fields c = map fields (collection g ++ extra) ->
  materialized_prefix (set_collection c g).
Proof.
  intros (k & Hk & E) Hc. exists k. cbn [collection pswpContainer set_collection].
  assert (Hlen : length c = length (collection g) + length extra).
  { rewrite <- (length_map fields c), Hc, length_map, length_app. reflexivity. }
  split; [lia|].
  rewrite E. change getPswpItem with fields.
  rewrite <- !firstn_map, Hc, map_app, firstn_app, length_map.
  replace (k - length (collection g)) with 0 by lia.
  rewrite firstn_O, app_nil_r. reflexivity.
Qed.

Lemma addElements_well_formed (rows : option JS.number) (g : Gallery) :
  well_formed g -> well_formed (state_of (addElements rows g)).
Proof.
  intros [Hm Hp]. split; [|exact (addElements_prefix rows Hm Hp)].
  destruct (addElements_materialized rows g (prefix_length Hp)) as (Hc & _).
  rewrite Hc. exact Hm.
Qed.

(** Each materialized entry is the entry of the item at the same place in
    the collection. *)
Lemma prefix_pointwise (g : Gallery) :
  materialized_prefix g ->
  forall j, j < length (pswpContainer g) ->
    nth_error (pswpContainer g) j = option_map getPswpItem (nth_error (collection g) j).
Proof.
  intros Hp j Hj. rewrite (prefix_firstn Hp) at 1.
  rewrite nth_error_map, nth_error_firstn.
  destruct (Nat.ltb_spec j (length (pswpContainer g))); [reflexivity | lia].
Qed.

(** [addItems] on a value that gets past the guard with a [forEach] is
    [addItems] on the elements that the method hands over. *)
Lemma addItems_pushed (organize : IGalleryOptions -> Z -> list Item -> list Item)
  (items : JsValue) (elements : list IItemFields) (v : Viewport) (g : Gallery) :
  pushed items = Some elements ->
  addItems organize items v g
  = addItems organize (JsObject true true (Some elements)) v g.
Proof.
  intros H. destruct items as [| | |z|s|c l f|els]; cbn [pushed] in H; try discriminate.
  - destruct c; [|discriminate]. destruct l; [|discriminate].
    destruct f as [els|]; [|discriminate].
    injection H as <-. reflexivity.
  - destruct els as [|e els]; [discriminate|]. injection H as <-. reflexivity.
Qed.

(** On any other value [addItems] leaves the object as it is. *)
Lemma addItems_not_pushed (organize : IGalleryOptions -> Z -> list Item -> list Item)
  (items : JsValue) (v : Viewport) (g : Gallery) :
  pushed items = None -> state_of (addItems organize items v g) = g.
Proof.
  intros H. destruct items as [| | |z|s|c l f|els]; cbn [pushed] in H; try reflexivity.
  - destruct c; [|reflexivity]. destruct l; [|reflexivity].
    destruct f as [els|]; [discriminate|reflexivity].
  - destruct els as [|e els]; [reflexivity|discriminate].
Qed.


Lemma addItems_throws_spec (organize : IGalleryOptions -> Z -> list Item -> list Item)
  (items : JsValue) (v : Viewport) (g : Gallery) :
  addItems_throws items = true -> addItems organize items v g = Throw g.
Proof.
  destruct items as [| | |z|s|c l f|els]; cbn [addItems_throws]; try discriminate;
    try reflexivity.
  destruct c; [|discriminate]. destruct l; [|discriminate].
  destruct f; [discriminate|reflexivity].
Qed.

Lemma addItems_returns_at_guard (organize : IGalleryOptions -> Z -> list Item -> list Item)
  (items : JsValue) (v : Viewport) (g : Gallery) :
  addItems_throws items = false -> pushed items = None ->
  addItems organize items v g = Return g.
Proof.
  destruct items as [| | |z|s|c l f|els]; cbn [addItems_throws pushed];
    try discriminate; try reflexivity.
  - destruct c; [|reflexivity]. destruct l; [|reflexivity].
    destruct f; discriminate.
  - destruct els; [reflexivity|discriminate].
Qed.

Section Invariant.

Variable organize : IGalleryOptions -> Z -> list Item -> list Item.

(** The layout writes the rows of the items and leaves the items, their
    number and their order as they are. *)
Hypothesis organize_keeps_fields :
  forall o w l, map fields (organize o w l) = map fields l.

(** The layout numbers rows in order. *)
Hypothesis organize_is_monotone :
  forall o w l, monotone (rows_of (organize o w l)).

Lemma Organizer_organize_well_formed (g : Gallery) :
  materialized_prefix g -> well_formed (Organizer_organize organize g).
Proof.
  intros Hp. split.
  - apply organize_is_monotone.
  - apply (@prefix_set_collection g _ []); [exact Hp|].
    rewrite app_nil_r. apply organize_keeps_fields.
Qed.

Lemma addItems_well_formed (items : JsValue) (v : Viewport) (g : Gallery) :
  well_formed g -> well_formed (state_of (addItems organize items v g)).
Proof.
  intros Hw. destruct (pushed items) as [elements|] eqn:E;
    [|rewrite (addItems_not_pushed organize items v g E); exact Hw].
  rewrite (addItems_pushed organize items v g E). cbn [addItems andb state_of].
  set (g1 := set_collection (collection g ++ map new_Item elements) g).
  assert (Hw2 : well_formed (Organizer_organize organize g1)).
  { apply Organizer_organize_well_formed.
    apply (@prefix_set_collection g _ (map new_Item elements)); [exact (proj2 Hw) | reflexivity]. }
  case_if; [apply addElements_well_formed|]; exact Hw2.
Qed.

Lemma resize_well_formed (v : Viewport) (g : Gallery) :
  well_formed g -> well_formed (state_of (resize organize v g)).
Proof.
  intros Hw. unfold resize. case_if; [|exact Hw].
  apply addElements_well_formed. split.
  - apply organize_is_monotone.
  - apply reset_prefix.
Qed.

Lemma call_well_formed (c : Call) (g : Gallery) :
  well_formed g -> well_formed (state_of (call organize c g)).
Proof.
  intros Hw. destruct c as [items v|rows|v|]; cbn [call].
  - exact (addItems_well_formed items v Hw).
  - exact (addElements_well_formed rows Hw).
  - exact (resize_well_formed v Hw).
  - split; [exact (proj1 Hw) | apply reset_prefix].
Qed.

Lemma run_well_formed (cs : list Call) (g : Gallery) :
  well_formed g -> well_formed (run organize cs g).
Proof.
  revert g. induction cs as [|c cs IH]; intros g Hw; [exact Hw|].
  apply IH, call_well_formed, Hw.
Qed.

(** C2.  With a layout that numbers rows in order, after any sequence
    of [addItems], [addElements], [resize] and [reset] calls the
    materialized set is the first [k] items of the collection for some
    [k]: entry [j] of the one is item [j] of the other, so no item is
    revealed while an earlier one is not. *)
Theorem materialized_prefix_invariant (cs : list Call) (g : Gallery) :
  well_formed g ->
  let g' := run organize cs g in
  (exists k, k <= length (collection g') /\
             pswpContainer g' = map getPswpItem (firstn k (collection g'))) /\
  (forall j, j < length (pswpContainer g') ->
     nth_error (pswpContainer g') j
     = option_map getPswpItem (nth_error (collection g') j)).
Proof.
  intros Hw. pose proof (run_well_formed cs Hw) as [_ Hp].
  split; [exact Hp | exact (prefix_pointwise Hp)].
Qed.

End Invariant.

Lemma new_Gallery_well_formed (o : IGalleryOptions) (hook : bool) (width : Z)
  (header : bool) :
  well_formed (new_Gallery o hook width header).
Proof.
  split; [apply monotone_nil | exists 0; split; [cbn; lia | reflexivity]].
Qed.

(* ================================================================== *)
(** ** [resize] *)
(* ================================================================== *)

(** With the width unchanged [resize] does nothing. *)
Lemma resize_same_width (organize : IGalleryOptions -> Z -> list Item -> list Item)
  (v : Viewport) (g : Gallery) :
  containerWidth v = bodyWidth g -> resize organize v g = Return g.
Proof.
  intros E. unfold resize. rewrite E, Z.eqb_refl. reflexivity.
Qed.

(** With another width, [resize] lays the collection out again and
    materializes the rows up to the one in which the last item shown
    before now lies. *)
Lemma resize_other_width (organize : IGalleryOptions -> Z -> list Item -> list Item)
  (v : Viewport) (g : Gallery) (k : nat) (last : Item) :
  containerWidth v <> bodyWidth g ->
  length (pswpContainer g) = S k ->
  nth_error (organize (options g) (containerWidth v) (collection g)) k = Some last ->
  let g' := state_of (resize organize v g) in
  bodyWidth g' = containerWidth v /\
  collection g' = organize (options g) (containerWidth v) (collection g) /\
  pswpContainer g'
  = map getPswpItem (filter (fun i => row i <=? row last) (collection g')).
Proof.
  intros Hw Hk Hlast. unfold resize.
  destruct (Z.eqb_spec (containerWidth v) (bodyWidth g)) as [|_]; [contradiction|].
  cbn [negb]. unfold Organizer_organize.
  cbn [options bodyWidth collection pswpContainer set_collection set_bodyWidth].
  rewrite Hk, Hlast. cbn [JS.add].
  set (c := organize (options g) (containerWidth v) (collection g)).
  set (g1 := reset (set_collection c (set_bodyWidth (containerWidth v) g))).
  assert (Hle : length (pswpContainer g1) <= length (collection g1)) by (cbn; lia).
  destruct (addElements_materialized (Some (JS.Int (Z.of_nat (row last) + 1))) g1 Hle)
    as (Hc & Hs & _).
  cbv zeta. split; [|split].
  - destruct (Nat.eq_dec (length (pswpContainer g1)) (length (collection g1))) as [Heq|Hne].
    + exact (proj1 (proj2 (proj2 (proj2 (proj2 (proj2 (proj2
               (addElements_complete (Some (JS.Int (Z.of_nat (row last) + 1))) g1 Heq)))))))).
    + rewrite addElements_reveal by lia. cbn [state_of].
      rewrite (proj1 (proj2 (proj2 (proj2 (proj2 (finish_frame _)))))).
      rewrite (proj1 (proj2 (proj2 (proj2 (proj2 (loop_frame _ _ _)))))).
      reflexivity.
  - rewrite Hc. reflexivity.
  - rewrite Hs, Hc. cbn [pswpContainer g1 reset set_noResults set_bodyItems
                           set_pswpContainer collection set_collection length skipn app].
    f_equal. apply filter_ext. intros i. unfold below, bound. cbn.
    destruct (Z.ltb_spec (Z.of_nat (row i)) (Z.of_nat (row last) + 1));
      destruct (Nat.leb_spec (row i) (row last)); try reflexivity; lia.
Qed.

(** C3 fails on the code.  Twelve squares in a gallery 200 pixels wide
    make six rows of two, of which three rows are materialized.  When the
    container grows to 300 pixels the layout makes four rows of three, so
    three rows of data exist, yet [resize] leaves two rows materialized:
    it reads the row of the last materialized item after the new layout
    has renumbered it. *)
Theorem resize_loses_a_row :
  let g := Sample.three_rows in
  let g' := state_of (resize Organizer.organize Sample.wide g) in
  containerWidth Sample.wide <> bodyWidth g /\
  materialized_rows g = 3 /\
  distinct_rows (collection g') = 4 /\
  materialized_rows g' = 2 /\
  map id (pswpContainer g') = map id (pswpContainer g).
Proof.
  cbv zeta. split; [vm_compute; discriminate|].
  repeat split; vm_compute; reflexivity.
Qed.

(* ================================================================== *)
(** ** [addItems] *)
(* ================================================================== *)

Section AddItems.

Variable organize : IGalleryOptions -> Z -> list Item -> list Item.

Hypothesis organize_keeps_fields :
  forall o w l, map fields (organize o w l) = map fields l.

(** The layout numbers rows from zero, one after the other. *)
Hypothesis organize_from_zero :
  forall o w l, rows_from_zero (rows_of (organize o w l)).

(** C4.  [addItems] with a batch that is not empty puts the new items
    at the end of the collection and lays the whole collection out.  If
    the collection was empty or wholly materialized before the call, one
    page of rows is revealed at once: the call is [addElements] of
    [getRowsPerPage()] on the collection laid out, it returns, and for a
    page of [p] rows it materializes the new items that lie below the
    frontier plus [p], of which there is at least one.  Otherwise the call
    returns with the materialized set as it was, none of the new items in
    it. *)
Theorem addItems_reveals_page_when_all_shown
  (elements : list IItemFields) (v : Viewport) (g : Gallery) :
  elements <> [] ->
  materialized_prefix g ->
  let laid :=
    set_collection
      (organize (options g) (bodyWidth g) (collection g ++ map new_Item elements)) g in
  let c := addItems organize (JsArray elements) v g in
  returns c = true /\
  collection (state_of c) = collection laid /\
  map fields (collection (state_of c)) = map fields (collection g) ++ elements /\
  (length (collection g) = 0 \/ length (collection g) = length (pswpContainer g) ->
   c = addElements (Some (getRowsPerPage v laid)) laid /\
   forall p, getRowsPerPage v laid = JS.Int p -> (0 < p)%Z ->
     pswpContainer (state_of c)
     = pswpContainer g ++ map getPswpItem (rows_from_frontier laid p) /\
     rows_from_frontier laid p <> []) /\
  (~ (length (collection g) = 0 \/ length (collection g) = length (pswpContainer g)) ->
   c = Return laid /\
   pswpContainer (state_of c) = pswpContainer g /\
   length (pswpContainer (state_of c)) < length (collection g)).
Proof.
  intros Hne Hp laid c.
  assert (Hlaid : materialized_prefix laid).
  { apply (@prefix_set_collection g _ (map new_Item elements)); [exact Hp|].
    apply organize_keeps_fields. }
  assert (Hfields : map fields (collection laid) = map fields (collection g) ++ elements).
  { subst laid. cbn [collection set_collection].
    rewrite organize_keeps_fields, map_app, map_map. cbn. rewrite map_id. reflexivity. }
  assert (Hlen : length (collection laid) = length (collection g) + length elements).
  { rewrite <- (length_map fields), Hfields, length_app, length_map. reflexivity. }
  assert (Hsome : 0 < length elements).
  { destruct elements; [exfalso; apply Hne; reflexivity | cbn; lia]. }
  assert (Hnonempty : collection laid <> []).
  { intros E. rewrite E in Hlen. cbn in Hlen. lia. }
  assert (Ec : c = if (length (collection g) =? 0)
                      || (length (collection g) =? length (pswpContainer g))
                   then addElements (Some (getRowsPerPage v laid)) laid
                   else Return laid).
  { subst c. unfold addItems.
    destruct elements as [|e elements]; [exfalso; apply Hne; reflexivity|].
    reflexivity. }
  pose proof (prefix_length Hlaid) as Hle.
  destruct (addElements_materialized (Some (getRowsPerPage v laid)) laid Hle) as (Hc & _).
  pose proof (addElements_returns (Some (getRowsPerPage v laid)) laid Hle (or_introl Hnonempty))
    as Hret.
  pose proof (prefix_length Hp) as Hle0.
  assert (Hpage : length (collection g) = length (pswpContainer g) ->
            forall p, getRowsPerPage v laid = JS.Int p -> (0 < p)%Z ->
              pswpContainer (state_of (addElements (Some (getRowsPerPage v laid)) laid))
              = pswpContainer g ++ map getPswpItem (rows_from_frontier laid p) /\
              rows_from_frontier laid p <> []).
  { intros Hall p Ep Hpos. rewrite Ep.
    destruct (@reveal_appends laid p (organize_from_zero _ _ _) Hlaid) as (_ & Hs).
    split; [exact Hs|].
    unfold rows_from_frontier, frontier_row.
    destruct (unmaterialized laid) as [|x rest] eqn:E.
    - apply (f_equal (@length Item)) in E. unfold unmaterialized in E.
      rewrite length_skipn in E. cbn [length] in E.
      change (pswpContainer laid) with (pswpContainer g) in E. lia.
    - cbn [filter]. destruct (Z.ltb_spec (Z.of_nat (row x)) (Z.of_nat (row x) + p));
        [discriminate | lia]. }
  destruct (Nat.eqb_spec (length (collection g)) 0) as [E0|N0];
    destruct (Nat.eqb_spec (length (collection g)) (length (pswpContainer g))) as [E1|N1];
    cbn [orb] in Ec; rewrite Ec.
  - split; [exact Hret|]. split; [exact Hc|]. split; [rewrite Hc; exact Hfields|].
    split; [intros _; split; [reflexivity | exact (Hpage E1)]|].
    intros Hno. exfalso. apply Hno. left. exact E0.
  - exfalso. lia.
  - split; [exact Hret|]. split; [exact Hc|]. split; [rewrite Hc; exact Hfields|].
    split; [intros _; split; [reflexivity | exact (Hpage E1)]|].
    intros Hno. exfalso. apply Hno. right. exact E1.
  - split; [reflexivity|]. split; [reflexivity|]. split; [exact Hfields|].
    split; [intros [H|H]; contradiction|].
    intros _. split; [reflexivity|]. split; [reflexivity|]. cbn [state_of].
    change (pswpContainer laid) with (pswpContainer g). lia.
Qed.

End AddItems.

(** C8 holds for an empty array, for a primitive value, and for an
    object whose [constructor] is not [Array] or whose [length] is falsy:
    the call returns and the object is as it was. *)
Lemma addItems_ignores (organize : IGalleryOptions -> Z -> list Item -> list Item)
  (items : JsValue) (v : Viewport) (g : Gallery) :
  items <> JsNull -> items <> JsUndefined ->
  (forall elements, items = JsArray elements -> elements = []) ->
  (forall forEach, items <> JsObject true true forEach) ->
  addItems organize items v g = Return g.
Proof.
  intros Hnull Hundef Harr Hobj.
  destruct items as [| | |z|s|c l f|elements]; try reflexivity; try contradiction.
  - destruct c; [|reflexivity]. destruct l; [|reflexivity].
    exfalso. exact (Hobj f eq_refl).
  - rewrite (Harr elements eq_refl). reflexivity.
Qed.

(** An object that is not an array but whose [constructor] is [Array] and
    whose [length] is truthy passes the guard of line 232; without a method
    [forEach] the call throws at line 240, the object as it was. *)
Lemma addItems_array_like_throws
  (organize : IGalleryOptions -> Z -> list Item -> list Item)
  (v : Viewport) (g : Gallery) :
  addItems organize (JsObject true true None) v g = Throw g.
Proof. reflexivity. Qed.

(** C8 fails on the code for [null] and [undefined], which are not
    arrays: reading [items.constructor] throws a [TypeError] instead of
    returning.  The object is as it was. *)
Theorem addItems_null_throws
  (organize : IGalleryOptions -> Z -> list Item -> list Item)
  (v : Viewport) (g : Gallery) :
  addItems organize JsNull v g = Throw g /\
  addItems organize JsUndefined v g = Throw g /\
  returns (addItems organize JsNull Sample.viewport Sample.three_rows) = false.
Proof. repeat split. Qed.

(* ================================================================== *)
(** ** Reveals beyond the data *)
(* ================================================================== *)

(** On an empty collection [addElements] hides the "next" button, shows
    the empty-state indicator and then reads the [style] of the first
    element of class [natural-gallery-images]: it returns when the page
    has one and throws when it has none. *)
Lemma addElements_empty (rows : option JS.number) (g : Gallery) :
  collection g = [] -> pswpContainer g = [] ->
  addElements rows g
  = match imagesContainer g with
    | Some _ =>
        Return (set_imagesContainer (Some none)
                  (set_noResults block (set_nextButton none (set_nextButton block g))))
    | None => Throw (set_noResults block (set_nextButton none (set_nextButton block g)))
    end.
Proof.
  intros Ec Ep. unfold addElements.
  cbn [pswpContainer collection set_nextButton imagesContainer set_noResults].
  rewrite Ec, Ep. cbn. destruct (imagesContainer g); reflexivity.
Qed.

(** C9 fails on the code.  In a gallery built with the default options
    (no header, hence no element of class [natural-gallery-images]) and
    no item, a reveal throws a [TypeError]; the guard that the end of the
    method has for the same element is missing on this path. *)
Theorem addElements_empty_throws (rows : option JS.number) :
  collection Sample.empty = [] /\
  imagesContainer Sample.empty = None /\
  returns (addElements rows Sample.empty) = false /\
  noResults (state_of (addElements rows Sample.empty)) = block /\
  returns (addElements rows Sample.empty_with_header) = true.
Proof. repeat split. Qed.

(* ================================================================== *)
(** ** The scroll listener *)
(* ================================================================== *)

Section Scroll.

Variable simulatePagination : IGalleryOptions -> Z -> JS.number.

(** The listener always records the scroll offset.  It does nothing else
    on a scroll that is not downward or does not reach the bottom of the
    gallery; otherwise it calls [addElements(1)] and, if that returns,
    [pagination(1)], which invokes the hook once when there is one. *)
Lemma onScroll_behaviour (v : Viewport) (g : Gallery) :
  let current := (scrollTop v - clientTop v)%Z in
  let fires :=
    (0 < current - old_scroll_top g)%Z /\
    (rootOffsetTop v + rootOffsetHeight v <= current + clientHeight v)%Z in
  let c := onScroll simulatePagination v g in
  old_scroll_top (state_of c) = current /\
  (~ fires -> c = Return (set_old_scroll_top current g)) /\
  (fires ->
   c = addElements (Some (JS.Int 1)) (set_old_scroll_top current g) >>= fun g =>
       Return (pagination simulatePagination (Some (JS.Int 1)) v g)) /\
  (fires -> returns c = true -> has_pagination g = true ->
   length (pagination_calls (state_of c)) = S (length (pagination_calls g))) /\
  (fires -> returns c = false ->
   pagination_calls (state_of c) = pagination_calls g).
Proof.
  cbv zeta. unfold onScroll.
  set (current := (scrollTop v - clientTop v)%Z).
  set (g0 := set_old_scroll_top current g).
  assert (Hold : forall rows,
             old_scroll_top (state_of (addElements rows g0)) = current /\
             pagination_calls (state_of (addElements rows g0)) = pagination_calls g /\
             has_pagination (state_of (addElements rows g0)) = has_pagination g).
  { intros rows. destruct (addElements_frame rows g0) as (_ & Hh & Hc & Ho & _).
    rewrite Hh, Hc, Ho. repeat split. }
  destruct (Z.ltb_spec 0 (current - old_scroll_top g)) as [Hd|Hd];
    destruct (Z.leb_spec (rootOffsetTop v + rootOffsetHeight v) (current + clientHeight v))
      as [Hb|Hb]; cbn [andb].
  2-4: (split; [reflexivity|]; split; [reflexivity|];
        repeat split; intros [? ?]; lia).
  destruct (Hold (Some (JS.Int 1))) as (Ho & Hc & Hh).
  destruct (addElements (Some (JS.Int 1)) g0) as [g1|g1] eqn:E; cbn [state_of bind returns] in *.
  - split; [|split; [|split; [|split]]].
    + unfold pagination. repeat case_if; cbn; exact Ho.
    + intros Hn. exfalso. apply Hn. split; assumption.
    + reflexivity.
    + intros _ _ Hhook. unfold pagination. rewrite Hh, Hhook.
      case_if; cbn; rewrite length_app, Hc; cbn; lia.
    + intros _ Hf. discriminate.
  - split; [exact Ho|]. split; [intros Hn; exfalso; apply Hn; split; assumption|].
    split; [reflexivity|]. split; [intros _ Hf; discriminate|]. intros _ _. exact Hc.
Qed.

(** C6 fails on the code.  In a gallery with a pagination hook, no
    header and no item yet, a downward scroll that reaches the bottom of
    the gallery records the offset and calls [addElements(1)], which
    throws before [pagination(1)] is reached: the hook is not invoked. *)
Theorem onScroll_empty_gallery_skips_pagination :
  let v := Sample.scrolled in
  let g := Sample.empty in
  let c := onScroll simulatePagination v g in
  has_pagination g = true /\
  (0 < (scrollTop v - clientTop v) - old_scroll_top g)%Z /\
  (rootOffsetTop v + rootOffsetHeight v <= (scrollTop v - clientTop v) + clientHeight v)%Z /\
  returns c = false /\
  pagination_calls (state_of c) = [] /\
  old_scroll_top (state_of c) = 10%Z.
Proof. cbv zeta. repeat split; try reflexivity; cbn; lia. Qed.

End Scroll.

(* ================================================================== *)
(** ** [addElements] without an argument *)
(* ================================================================== *)

(** When more entries are materialized than the collection has items,
    [addElements] throws on [collection[nextImage].row] with the lists as
    they were. *)
Lemma addElements_overfull (rows : option JS.number) (g : Gallery) :
  length (collection g) < length (pswpContainer g) ->
  addElements rows g = Throw (set_nextButton block g).
Proof.
  intros Hlt. unfold addElements. cbn [pswpContainer collection set_nextButton].
  destruct (Nat.eqb_spec (length (pswpContainer g)) (length (collection g))); [lia|].
  destruct (Nat.eqb_spec (length (pswpContainer g)) 0); [lia|].
  destruct (nth_error (collection g) (length (pswpContainer g))) eqn:E; [|reflexivity].
  assert (nth_error (collection g) (length (pswpContainer g)) <> None) by congruence.
  apply nth_error_Some in H. lia.
Qed.

Lemma filter_nil_iff (A : Type) (f : A -> bool) (l : list A) :
  filter f l = [] <-> forallb (fun x => negb (f x)) l = true.
Proof.
  induction l as [|x l IH]; cbn [filter forallb]; [split; reflexivity|].
  destruct (f x); cbn [negb andb].
  - split; discriminate.
  - exact IH.
Qed.

(** Without an argument the test of the loop is [row < frontier row] once
    something is materialized, and [row < null], which is false, before. *)
Lemma below_default_bound (g : Gallery) (x : Item) :
  In x (unmaterialized g) ->
  below (bound None g) x
  = negb (length (pswpContainer g) =? 0) && negb (frontier_row g <=? row x).
Proof.
  intros Hin. unfold bound, frontier_row, below.
  pose proof (skipn_head (length (pswpContainer g)) (collection g)) as Hh.
  fold (unmaterialized g) in Hh.
  destruct (length (pswpContainer g) =? 0); cbn [negb andb].
  - cbn. apply Z.ltb_ge. lia.
  - destruct (unmaterialized g) as [|x0 rest]; [destruct Hin|].
    rewrite Hh. cbn [JS.ToNumber JS.add JS.ltb].
    destruct (Nat.leb_spec (row x0) (row x)); cbn [negb].
    + apply Z.ltb_ge. lia.
    + apply Z.ltb_lt. lia.
Qed.

Lemma monotone_none_below_frontier (g : Gallery) :
  monotone (rows_of (collection g)) -> none_below_frontier g = true.
Proof.
  intros Hm. unfold none_below_frontier, frontier_row.
  assert (Hrest : monotone (rows_of (unmaterialized g))).
  { unfold unmaterialized. rewrite rows_of_skipn. apply monotone_skipn. exact Hm. }
  destruct (unmaterialized g) as [|x rest]; [reflexivity|].
  cbn [forallb]. rewrite Nat.leb_refl. cbn [andb].
  apply forallb_forall. intros y Hy. apply Nat.leb_le.
  pose proof (monotone_head Hrest) as Hall. rewrite Forall_forall in Hall.
  apply Hall. unfold rows_of. apply in_map. exact Hy.
Qed.

(** C10, amended.  Called without an argument, [addElements] materializes
    no item exactly when nothing is materialized yet or no item that is
    not materialized lies in a row below that of the first of them, for
    every collection and every materialization state; so it materializes
    none when the rows of the collection are in order.  As to the
    empty-state indicator and the way the call ends: when some item is not
    materialized the call returns with the indicator hidden; when every
    item is materialized and the collection is not empty the call returns
    early, the "next" button hidden and nothing else changed, the
    indicator as it was; on an empty collection the indicator is shown, and
    the call returns if the page has an element of class
    [natural-gallery-images] and throws if it has none; and when more
    entries are materialized than the collection has items the call
    throws. *)
Theorem addElements_default_reveals_nothing (g : Gallery) :
  let c := addElements None g in
  let g' := state_of c in
  (pswpContainer g' = pswpContainer g <->
   pswpContainer g = [] \/ none_below_frontier g = true) /\
  (monotone (rows_of (collection g)) -> pswpContainer g' = pswpContainer g) /\
  (length (pswpContainer g) < length (collection g) ->
   returns c = true /\ noResults g' = none) /\
  (length (pswpContainer g) = length (collection g) -> collection g <> [] ->
   c = Return (set_nextButton none (set_nextButton block g))) /\
  (length (pswpContainer g) = length (collection g) -> collection g = [] ->
   noResults g' = block /\ (returns c = true <-> imagesContainer g <> None)) /\
  (length (collection g) < length (pswpContainer g) -> returns c = false).
Proof.
  cbv zeta.
  assert (Hiff : pswpContainer (state_of (addElements None g)) = pswpContainer g <->
                 pswpContainer g = [] \/ none_below_frontier g = true).
  { destruct (Nat.le_gt_cases (length (pswpContainer g)) (length (collection g)))
      as [Hle|Hgt].
    - destruct (addElements_materialized None g Hle) as (_ & Hs & _).
      cbv zeta in Hs. rewrite Hs. fold (unmaterialized g).
      assert (Hnil : filter (below (bound None g)) (unmaterialized g) = [] <->
                     pswpContainer g = [] \/ none_below_frontier g = true).
      { rewrite filter_nil_iff. unfold none_below_frontier.
        rewrite !forallb_forall. split.
        - intros H. destruct (pswpContainer g) as [|e es] eqn:Ep; [left; reflexivity|].
          right. intros x Hx. specialize (H x Hx).
          rewrite (below_default_bound g x Hx), Ep in H. cbn in H.
          destruct (frontier_row g <=? row x); [reflexivity | discriminate H].
        - intros [Ep|H] x Hx; rewrite (below_default_bound g x Hx).
          + rewrite Ep. reflexivity.
          + rewrite (H x Hx). apply negb_true_iff, andb_false_r. }
      rewrite <- Hnil. split.
      + intros E. rewrite <- (app_nil_r (pswpContainer g)) in E at 2.
        apply app_inv_head in E. apply map_eq_nil in E. exact E.
      + intros E. rewrite E. apply app_nil_r.
    - rewrite (addElements_overfull None g Hgt). cbn [state_of pswpContainer set_nextButton].
      split; [|reflexivity]. intros _. right.
      unfold none_below_frontier, unmaterialized.
      rewrite skipn_all2 by lia. reflexivity. }
  split; [exact Hiff|]. split; [|split; [|split; [|split]]].
  - intros Hm. apply Hiff. right. apply monotone_none_below_frontier, Hm.
  - intros Hlt. rewrite addElements_reveal by exact Hlt. cbn [state_of returns].
    split; [reflexivity|].
    apply (proj2 (proj2 (proj2 (proj2 (proj2 (proj2 (proj2 (proj2 (proj2
             (finish_frame _)))))))))).
  - intros Heq Hne. unfold addElements. cbn [pswpContainer collection set_nextButton].
    rewrite Heq, Nat.eqb_refl.
    destruct (collection g) as [|x c]; [contradiction | reflexivity].
  - intros Heq Ec. unfold addElements. cbn [pswpContainer collection set_nextButton].
    rewrite Heq, Nat.eqb_refl, Ec. cbn [length Nat.eqb imagesContainer set_noResults
      set_nextButton].
    destruct (imagesContainer g) as [d|]; cbn [state_of returns noResults set_noResults
      set_imagesContainer]; (split; [reflexivity|]); split; try discriminate;
      try reflexivity.
    intros H. contradiction.
  - intros Hgt. rewrite (addElements_overfull None g Hgt). reflexivity.
Qed.

Lemma addElements_default_reveals_nothing_witness :
  let g := Sample.showing 2 (Sample.with_rows [0; 0; 1; 1; 2]) in
  (monotone (rows_of (collection g)) /\
   length (pswpContainer g) < length (collection g) /\
   pswpContainer (state_of (addElements None g)) = pswpContainer g /\
   returns (addElements None g) = true /\
   noResults (state_of (addElements None g)) = none) /\
  (length (pswpContainer Sample.empty) = length (collection Sample.empty) /\
   collection Sample.empty = [] /\
   noResults (state_of (addElements None Sample.empty)) = block /\
   (returns (addElements None Sample.empty) = true <->
    imagesContainer Sample.empty <> None)).
Proof.
  assert (H : monotone (rows_of (collection
                                   (Sample.showing 2 (Sample.with_rows [0; 0; 1; 1; 2]))))).
  { apply rows_from_zero_monotone. cbn. repeat split; auto. }
  assert (H0 : length (pswpContainer (Sample.showing 2 (Sample.with_rows [0; 0; 1; 1; 2])))
               < length (collection (Sample.showing 2 (Sample.with_rows [0; 0; 1; 1; 2]))))
    by (cbn; lia).
  assert (H3 : length (pswpContainer Sample.empty) = length (collection Sample.empty))
    by reflexivity.
  assert (H4 : collection Sample.empty = []) by reflexivity.
  destruct (addElements_default_reveals_nothing
              (Sample.showing 2 (Sample.with_rows [0; 0; 1; 1; 2]))) as (_ & H1 & H2 & _).
  split.
  - split; [exact H|]. split; [exact H0|]. split; [exact (H1 H)|]. exact (H2 H0).
  - split; [exact H3|]. split; [exact H4|].
    exact (proj1 (proj2 (proj2 (proj2 (proj2
             (addElements_default_reveals_nothing Sample.empty))))) H3 H4).
Defined.

(** The claim as it stands fails on an empty collection: the call shows
    the empty-state indicator. *)
Lemma addElements_default_shows_noResults :
  well_formed Sample.empty_with_header /\
  returns (addElements None Sample.empty_with_header) = true /\
  noResults (state_of (addElements None Sample.empty_with_header)) = block /\
  ~ reveals_nothing_and_hides_noResults Sample.empty_with_header.
Proof.
  split; [apply new_Gallery_well_formed|].
  split; [reflexivity|]. split; [reflexivity|].
  intros [_ H]. discriminate H.
Qed.

(** It fails as well when the rows are not in order: with the rows 0, 1, 0
    and the first item materialized, the bound is the row 1 of the second
    item, and the third item, in row 0, is materialized. *)
Lemma addElements_default_reveals_out_of_order :
  let g := Sample.showing 1 (Sample.with_rows [0; 1; 0]) in
  materialized_prefix g /\
  none_below_frontier g = false /\
  map id (pswpContainer g) = [0] /\
  map id (pswpContainer (state_of (addElements None g))) = [0; 2] /\
  ~ reveals_nothing_and_hides_noResults g.
Proof.
  cbv zeta. split; [exists 1; split; [cbn; lia | reflexivity]|].
  split; [reflexivity|]. split; [reflexivity|]. split; [reflexivity|].
  intros [H _]. vm_compute in H. discriminate H.
Qed.

(* ================================================================== *)
(** ** The size of a pagination request *)
(* ================================================================== *)

Lemma get_set_same (A : Type) (i : nat) (x : A) :
  forall arr, JS.get (JS.set arr i x) i = Some x.
Proof.
  unfold JS.get. induction i as [|i IH]; intros [|y arr]; cbn; auto.
Qed.

Lemma get_set_other (A : Type) (i : nat) (x : A) :
  forall j arr, i <> j -> JS.get (JS.set arr i x) j = JS.get arr j.
Proof.
  unfold JS.get. induction i as [|i IH]; intros [|j] [|y arr] H; cbn; auto; try congruence.
  - destruct j; reflexivity.
  - rewrite (IH j []) by congruence. destruct j; reflexivity.
Qed.

Lemma length_set (A : Type) (i : nat) (x : A) :
  forall arr, length (JS.set arr i x) = Nat.max (length arr) (S i).
Proof.
  induction i as [|i IH]; intros [|y arr]; cbn [JS.set length].
  - reflexivity.
  - lia.
  - rewrite (IH []). cbn [length]. lia.
  - rewrite (IH arr). lia.
Qed.

Lemma nbPerRowFn_rows (arr : list Item) :
  nbPerRowFn arr = fold_left count_row (rows_of arr) [].
Proof.
  unfold nbPerRowFn, rows_of. generalize (@nil (option Z)).
  induction arr as [|x arr IH]; intros acc; cbn [fold_left map]; [reflexivity|].
  rewrite IH. reflexivity.
Qed.

(** The array that the reducer builds: one cell past the highest row, and
    in each cell the number of items of that row, or a hole when the row
    has none. *)
Lemma count_rows_spec (rows : list nat) :
  let stack := fold_left count_row rows [] in
  length stack = list_max (map S rows) /\
  forall r, JS.get stack r
            = if count_occ Nat.eq_dec rows r =? 0 then None
              else Some (Z.of_nat (count_occ Nat.eq_dec rows r)).
Proof.
  induction rows as [|x rows IH] using rev_ind; cbv zeta.
  - split; [reflexivity|]. intros r. destruct r; reflexivity.
  - destruct IH as [Hlen Hget]. rewrite fold_left_app. cbn [fold_left].
    set (stack := fold_left count_row rows []) in *.
    split.
    + unfold count_row. rewrite length_set, Hlen, map_app, list_max_app. cbn. lia.
    + intros r. rewrite count_occ_app. cbn [count_occ].
      destruct (Nat.eq_dec x r) as [->|Hne].
      * unfold count_row. rewrite get_set_same, Hget.
        destruct (Nat.eqb_spec (count_occ Nat.eq_dec rows r) 0) as [E|E].
        -- rewrite E. reflexivity.
        -- destruct (Nat.eqb_spec (count_occ Nat.eq_dec rows r + 1) 0); [lia|].
           destruct (Z.ltb_spec (-1) (Z.of_nat (count_occ Nat.eq_dec rows r))); [|lia].
           f_equal. lia.
      * unfold count_row. rewrite get_set_other by exact Hne.
        rewrite Hget, Nat.add_0_r. reflexivity.
Qed.

Lemma Math_max_dense (counts : list nat) :
  JS.Math_max (map Some (map Z.of_nat counts))
  = match counts with
    | [] => JS.NInf
    | _ => JS.Int (Z.of_nat (list_max counts))
    end.
Proof.
  induction counts as [|n counts IH]; [reflexivity|].
  cbn [map JS.Math_max]. rewrite IH.
  destruct counts as [|m counts].
  - cbn. f_equal. lia.
  - f_equal. cbn [list_max fold_right]. lia.
Qed.

Lemma list_max_lt_exists (i : nat) (l : list nat) :
  i < list_max l -> exists x, In x l /\ i < x.
Proof.
  induction l as [|y l IH]; [cbn; lia|].
  change (list_max (y :: l)) with (Nat.max y (list_max l)). intros H.
  destruct (Nat.lt_ge_cases i y) as [Hy|Hy].
  - exists y. split; [left; reflexivity | exact Hy].
  - destruct IH as (x & Hx & Hi); [lia|]. exists x. split; [right; exact Hx | exact Hi].
Qed.

Lemma list_max_ge (x : nat) (l : list nat) : In x l -> x <= list_max l.
Proof.
  intros H. pose proof (proj1 (list_max_le l (list_max l)) (le_n _)) as Hall.
  rewrite Forall_forall in Hall. exact (Hall x H).
Qed.

(** The rows of a list chained from [x] are all the numbers from [x] to
    its highest row. *)
Lemma chained_interval (x : nat) (rows : list nat) :
  chained x rows ->
  forall y, In y (x :: rows) -> forall z, x <= z <= y -> In z (x :: rows).
Proof.
  revert x. induction rows as [|w rows IH]; intros x H y Hy z Hz.
  - destruct Hy as [<-|[]]. left. lia.
  - destruct H as [Hw H]. specialize (IH w H).
    destruct (Nat.eq_dec z x) as [->|Hzx]; [left; reflexivity|].
    right. destruct Hy as [<-|Hy]; [lia|].
    apply (IH y Hy). destruct Hw; lia.
Qed.

Lemma rows_from_zero_interval (rows : list nat) :
  rows_from_zero rows ->
  forall y, In y rows -> forall z, z <= y -> In z rows.
Proof.
  destruct rows as [|x rows]; [intros _ y []|].
  intros [-> H] y Hy z Hz. apply (@chained_interval 0 rows H y Hy). lia.
Qed.

(** With rows numbered from zero without a gap, [getMaxImagesPerRow] is
    the highest number of items in one row. *)
Lemma getMaxImagesPerRow_max_per_row (g : Gallery) :
  collection g <> [] ->
  rows_from_zero (rows_of (collection g)) ->
  getMaxImagesPerRow g = JS.Int (Z.of_nat (max_per_row (collection g))).
Proof.
  intros Hne Hz. unfold getMaxImagesPerRow, max_per_row.
  rewrite nbPerRowFn_rows.
  set (rows := rows_of (collection g)) in *.
  destruct (count_rows_spec rows) as [Hlen Hget]. cbv zeta in *.
  set (stack := fold_left count_row rows []) in *.
  set (count := count_occ Nat.eq_dec rows).
  assert (Hin : forall i, i < length stack -> In i rows).
  { intros i Hi. rewrite Hlen in Hi.
    destruct (@list_max_lt_exists _ _ Hi) as (x & Hx & Hix).
    apply in_map_iff in Hx. destruct Hx as (r & <- & Hr).
    apply (@rows_from_zero_interval rows Hz r Hr). lia. }
  assert (Hlt : forall r, In r rows -> r < length stack).
  { intros r Hr. rewrite Hlen.
    apply Nat.lt_le_trans with (S r); [lia|].
    apply list_max_ge, in_map, Hr. }
  assert (Hstack : stack = map Some (map Z.of_nat (map count (seq 0 (length stack))))).
  { apply nth_error_ext. intros i.
    rewrite !nth_error_map, nth_error_seq. cbn [Nat.add].
    destruct (Nat.ltb_spec i (length stack)) as [Hi|Hi]; cbn [option_map].
    - specialize (Hget i). pose proof (Hin i Hi) as Hc.
      apply (count_occ_In Nat.eq_dec) in Hc.
      destruct (Nat.eqb_spec (count_occ Nat.eq_dec rows i) 0) as [|_]; [lia|].
      unfold JS.get in Hget.
      destruct (nth_error stack i) as [[c|]|] eqn:E; try discriminate.
      injection Hget as ->. reflexivity.
    - apply nth_error_None. exact Hi. }
  rewrite Hstack, Math_max_dense.
  assert (Hrows : rows <> []).
  { subst rows. unfold rows_of. destruct (collection g); [contradiction | discriminate]. }
  assert (Hpos : 0 < length stack).
  { destruct rows as [|r rows']; [contradiction|]. apply Nat.le_lt_trans with r; [lia|].
    apply Hlt. left. reflexivity. }
  destruct (seq 0 (length stack)) as [|s0 ss] eqn:Eseq.
  { apply (f_equal (@length nat)) in Eseq. rewrite length_seq in Eseq. cbn in Eseq. lia. }
  rewrite <- Eseq. change (map count (s0 :: ss)) with (map count (s0 :: ss)).
  assert (Hnn : map count (seq 0 (length stack)) <> []) by (rewrite Eseq; discriminate).
  destruct (map count (seq 0 (length stack))) as [|c0 cs] eqn:Emap; [contradiction|].
  rewrite <- Emap. f_equal. f_equal. apply Nat.le_antisymm.
  - apply list_max_le, Forall_forall. intros n Hn.
    apply in_map_iff in Hn. destruct Hn as (i & <- & Hi).
    apply in_seq in Hi. apply list_max_ge, in_map, Hin. lia.
  - apply list_max_le, Forall_forall. intros n Hn.
    apply in_map_iff in Hn. destruct Hn as (r & <- & Hr).
    apply list_max_ge, in_map, in_seq. pose proof (Hlt r Hr). lia.
Qed.

Ltac rows_ok :=
  vm_compute; repeat first [exact I | reflexivity | split | left; reflexivity | right; reflexivity].

Section Pagination.

Variable simulatePagination : IGalleryOptions -> Z -> JS.number.

(** C7.  When the pagination hook is invoked for [nbRows] rows (one row
    when the argument is left out), it is invoked once, with the length of
    the collection and a count: the highest number of items in one row of
    the layout times [nbRows] if the collection is not empty, and the
    estimate of the layout times [getRowsPerPage()] times 2 if it is
    empty.  The products are those of doubles; they are the exact integers
    whenever these are below 2^53 in magnitude. *)
Theorem pagination_request_size (nbRows : option JS.number) (v : Viewport)
  (g : Gallery) :
  has_pagination g = true ->
  let n := match nbRows with Some n => n | None => JS.Int 1 end in
  let g' := pagination simulatePagination nbRows v g in
  (collection g <> [] -> rows_from_zero (rows_of (collection g)) ->
   pagination_calls g'
   = pagination_calls g
     ++ [(length (collection g),
          JS.mul (JS.Int (Z.of_nat (max_per_row (collection g)))) n)] /\
   forall k, n = JS.Int k ->
     (Z.abs (Z.of_nat (max_per_row (collection g)) * k) < 2 ^ 53)%Z ->
     pagination_calls g'
     = pagination_calls g
       ++ [(length (collection g),
            JS.Int (Z.of_nat (max_per_row (collection g)) * k))]) /\
  (collection g = [] ->
   pagination_calls g'
   = pagination_calls g
     ++ [(0, JS.mul (JS.mul (simulatePagination (options g) (bodyWidth g))
                       (getRowsPerPage v g))
               (JS.Int 2))] /\
   forall e p, simulatePagination (options g) (bodyWidth g) = JS.Int e ->
     getRowsPerPage v g = JS.Int p ->
     (Z.abs (e * p * 2) < 2 ^ 53)%Z ->
     pagination_calls g' = pagination_calls g ++ [(0, JS.Int (e * p * 2))]).
Proof.
  intros Hhook. cbv zeta. unfold pagination. rewrite Hhook. split.
  - intros Hne Hz. destruct (collection g) as [|x c] eqn:Ec; [contradiction|].
    cbn [length Nat.eqb negb pagination_calls set_pagination_calls].
    rewrite <- Ec in *. rewrite (@getMaxImagesPerRow_max_per_row g Hne Hz).
    split; [reflexivity|].
    intros k -> Hk. rewrite (mul_exact _ _ Hk). reflexivity.
  - intros Ee. rewrite Ee.
    cbn [length Nat.eqb negb pagination_calls set_pagination_calls].
    split; [reflexivity|].
    intros e p -> -> Hk.
    assert (Hep : (Z.abs (e * p) < 2 ^ 53)%Z).
    { rewrite Z.abs_mul in Hk. change (Z.abs 2) with 2%Z in Hk.
      pose proof (Z.abs_nonneg (e * p)). lia. }
    rewrite (mul_exact _ _ Hep), (mul_exact _ _ Hk). reflexivity.
Qed.

End Pagination.

Lemma pagination_request_size_witness :
  (has_pagination Sample.three_rows = true /\
   collection Sample.three_rows <> [] /\
   rows_from_zero (rows_of (collection Sample.three_rows)) /\
   max_per_row (collection Sample.three_rows) = 2 /\
   pagination_calls
     (pagination Organizer.simulatePagination (Some (JS.Int 3)) Sample.viewport
        Sample.three_rows)
   = [(12, JS.Int 6)]) /\
  (has_pagination Sample.empty_wide = true /\
   collection Sample.empty_wide = [] /\
   Organizer.simulatePagination (options Sample.empty_wide) (bodyWidth Sample.empty_wide)
   = JS.Int 4 /\
   getRowsPerPage Sample.viewport Sample.empty_wide = JS.Int 2 /\
   pagination_calls
     (pagination Organizer.simulatePagination None Sample.viewport Sample.empty_wide)
   = [(0, JS.Int 16)]).
Proof.
  assert (H1 : has_pagination Sample.three_rows = true) by reflexivity.
  assert (H2 : collection Sample.three_rows <> []) by (vm_compute; discriminate).
  assert (H3 : rows_from_zero (rows_of (collection Sample.three_rows))) by rows_ok.
  assert (H4 : has_pagination Sample.empty_wide = true) by reflexivity.
  assert (H5 : collection Sample.empty_wide = []) by reflexivity.
  assert (H6 : Organizer.simulatePagination (options Sample.empty_wide)
                 (bodyWidth Sample.empty_wide) = JS.Int 4) by (vm_compute; reflexivity).
  assert (H7 : getRowsPerPage Sample.viewport Sample.empty_wide = JS.Int 2)
    by (vm_compute; reflexivity).
  assert (H8 : max_per_row (collection Sample.three_rows) = 2) by (vm_compute; reflexivity).
  split.
  - split; [exact H1|]. split; [exact H2|]. split; [exact H3|]. split; [exact H8|].
    exact (proj1 (proj1 (@pagination_request_size Organizer.simulatePagination
                           (Some (JS.Int 3)) Sample.viewport Sample.three_rows H1) H2 H3)).
  - split; [exact H4|]. split; [exact H5|]. split; [exact H6|]. split; [exact H7|].
    exact (proj2 (proj2 (@pagination_request_size Organizer.simulatePagination
                           None Sample.viewport Sample.empty_wide H4) H5)
             4%Z 2%Z H6 H7 ltac:(vm_compute; reflexivity)).
Defined.

(** A product past 2^53 is rounded as the multiplication of doubles
    rounds it: three items in one row and 2^53 - 1 rows make the count
    27021597764222972, one less than the exact product. *)
Lemma pagination_rounds_large_products :
  let g := Sample.showing 3 (Sample.with_rows [0; 0; 0]) in
  max_per_row (collection g) = 3 /\
  pagination_calls
    (pagination Organizer.simulatePagination (Some (JS.Int (2 ^ 53 - 1))) Sample.viewport g)
  = [(3, JS.Int 27021597764222972)].
Proof. cbv zeta. split; vm_compute; reflexivity. Qed.

(* ================================================================== *)
(** ** The theorems at work on the sample galleries *)
(* ================================================================== *)

Lemma materialized_prefix_invariant_witness :
  well_formed Sample.narrow /\
  let g' := run Organizer.organize Sample.calls Sample.narrow in
  (exists k, k <= length (collection g') /\
             pswpContainer g' = map getPswpItem (firstn k (collection g'))) /\
  (forall j, j < length (pswpContainer g') ->
     nth_error (pswpContainer g') j
     = option_map getPswpItem (nth_error (collection g') j)).
Proof.
  assert (H : well_formed Sample.narrow) by apply new_Gallery_well_formed.
  split; [exact H|].
  exact (@materialized_prefix_invariant Organizer.organize
           organize_fields organize_monotone Sample.calls Sample.narrow H).
Defined.

Lemma addItems_reveals_page_when_all_shown_witness :
  Sample.squares 12 <> [] /\ materialized_prefix Sample.narrow /\
  returns (addItems Organizer.organize (JsArray (Sample.squares 12))
             Sample.viewport Sample.narrow) = true /\
  map id (pswpContainer Sample.three_rows) = [0; 1; 2; 3; 4; 5] /\
  pswpContainer
    (state_of (addItems Organizer.organize (JsArray (Sample.squares 2))
                 Sample.viewport (Sample.showing 2 (Sample.with_rows [0; 0; 1; 1; 2]))))
  = pswpContainer (Sample.showing 2 (Sample.with_rows [0; 0; 1; 1; 2])).
Proof.
  assert (H1 : Sample.squares 12 <> []) by (vm_compute; discriminate).
  assert (H2 : materialized_prefix Sample.narrow)
    by apply (proj2 (new_Gallery_well_formed _ _ _ _)).
  assert (H3 : Sample.squares 2 <> []) by (vm_compute; discriminate).
  assert (H4 : materialized_prefix (Sample.showing 2 (Sample.with_rows [0; 0; 1; 1; 2])))
    by (exists 2; split; [cbn; lia | reflexivity]).
  pose proof (@addItems_reveals_page_when_all_shown Organizer.organize
                organize_fields organize_rows_from_zero
                (Sample.squares 12) Sample.viewport Sample.narrow H1 H2) as A.
  pose proof (@addItems_reveals_page_when_all_shown Organizer.organize
                organize_fields organize_rows_from_zero
                (Sample.squares 2) Sample.viewport
                (Sample.showing 2 (Sample.with_rows [0; 0; 1; 1; 2])) H3 H4) as B.
  cbv zeta in A, B.
  destruct A as (A1 & _). destruct B as (_ & _ & _ & _ & B5).
  split; [exact H1|]. split; [exact H2|]. split; [exact A1|].
  split; [vm_compute; reflexivity|].
  apply B5. vm_compute. intros [E|E]; discriminate E.
Defined.

(* ================================================================== *)
(** ** What a reveal never does *)
(* ================================================================== *)

Lemma addElements_bodyItems (rows : option JS.number) (g : Gallery) :
  length (pswpContainer g) <= length (collection g) ->
  bodyItems (state_of (addElements rows g))
  = bodyItems g
    ++ map fields (filter (below (bound rows g)) (unmaterialized g)).
Proof.
  intros Hle. unfold unmaterialized.
  destruct (Nat.eq_dec (length (pswpContainer g)) (length (collection g))) as [Heq|Hne].
  - destruct (addElements_complete rows g Heq) as (_ & _ & Hb & _).
    cbv zeta in Hb. rewrite Hb, Heq, skipn_all. cbn. rewrite app_nil_r. reflexivity.
  - rewrite addElements_reveal by lia. cbn [state_of].
    rewrite (proj1 (proj2 (proj2 (proj2 (proj2 (proj2 (proj2 (proj2 (finish_frame _))))))))).
    rewrite loop_bodyItems. reflexivity.
Qed.

(** X1.  Whatever the state and the argument, [addElements] leaves the
    collection as it is and only appends: the entries of the viewer and
    the rendered elements that were there stay in front, in their order,
    and what is added to the one and to the other are the entries and the
    elements of the same items, all taken in order from the items that
    were not materialized. *)
Theorem addElements_only_appends (rows : option JS.number) (g : Gallery) :
  let g' := state_of (addElements rows g) in
  collection g' = collection g /\
  exists added : list Item,
    pswpContainer g' = pswpContainer g ++ map getPswpItem added /\
    bodyItems g' = bodyItems g ++ map fields added /\
    incl added (unmaterialized g) /\
    starts_with (pswpContainer g') (pswpContainer g).
Proof.
  cbv zeta.
  destruct (Nat.le_gt_cases (length (pswpContainer g)) (length (collection g))) as [Hle|Hgt].
  - destruct (addElements_materialized rows g Hle) as (Hc & Hs & _).
    split; [exact Hc|].
    exists (filter (below (bound rows g)) (unmaterialized g)).
    split; [exact Hs|]. split; [exact (addElements_bodyItems rows g Hle)|].
    split; [apply incl_filter|].
    unfold starts_with. rewrite Hs. fold (unmaterialized g).
    rewrite firstn_app, Nat.sub_diag, firstn_all, firstn_O, app_nil_r. reflexivity.
  - rewrite (addElements_overfull rows g Hgt). cbn [state_of collection pswpContainer
      bodyItems set_nextButton].
    split; [reflexivity|]. exists [].
    cbn [map]. rewrite !app_nil_r.
    split; [reflexivity|]. split; [reflexivity|].
    split; [intros x []|]. unfold starts_with. apply firstn_all.
Qed.

(** X2.  From a state in which no more entries are materialized than the
    collection has items, [addElements] throws exactly when the
    collection is empty and the page has no element of class
    [natural-gallery-images]. *)
Theorem addElements_throws_iff (rows : option JS.number) (g : Gallery) :
  length (pswpContainer g) <= length (collection g) ->
  (returns (addElements rows g) = false
   <-> collection g = [] /\ imagesContainer g = None).
Proof.
  intros Hle. split.
  - intros Hthrow.
    destruct (collection g) as [|x c] eqn:Ec.
    + destruct (imagesContainer g) as [d|] eqn:Ei; [|split; reflexivity].
      rewrite (addElements_returns rows g) in Hthrow; [discriminate | rewrite Ec; exact Hle |].
      right. rewrite Ei. discriminate.
    + rewrite (addElements_returns rows g) in Hthrow; [discriminate | rewrite Ec; exact Hle |].
      left. rewrite Ec. discriminate.
  - intros [Ec Ei].
    assert (Ep : pswpContainer g = []).
    { rewrite Ec in Hle. destruct (pswpContainer g); [reflexivity | cbn in Hle; lia]. }
    rewrite (addElements_empty rows g Ec Ep), Ei. reflexivity.
Qed.

Lemma addElements_throws_iff_witness :
  length (pswpContainer Sample.empty) <= length (collection Sample.empty) /\
  returns (addElements (Some (JS.Int 1)) Sample.empty) = false /\
  length (pswpContainer Sample.three_rows) <= length (collection Sample.three_rows) /\
  returns (addElements None Sample.three_rows) <> false.
Proof.
  assert (H1 : length (pswpContainer Sample.empty) <= length (collection Sample.empty))
    by (cbn; lia).
  assert (H2 : length (pswpContainer Sample.three_rows)
               <= length (collection Sample.three_rows)) by (vm_compute; lia).
  split; [exact H1|]. split.
  - apply (proj2 (@addElements_throws_iff (Some (JS.Int 1)) Sample.empty H1)).
    split; reflexivity.
  - split; [exact H2|]. intros Hthrow.
    destruct (proj1 (@addElements_throws_iff None Sample.three_rows H2) Hthrow) as [Ec _].
    vm_compute in Ec. discriminate Ec.
Defined.

Lemma filter_none (A : Type) (l : list A) : filter (fun _ => false) l = [].
Proof. induction l; cbn; auto. Qed.

Lemma filter_every (A : Type) (l : list A) : filter (fun _ => true) l = l.
Proof. induction l; cbn; congruence. Qed.

(** X3.  A reveal of infinitely many rows materializes the whole
    collection and hides the "next" button; a reveal of [NaN] or of
    [-Infinity] rows materializes nothing.  No order of the rows is
    needed. *)
Theorem addElements_infinite_or_NaN (g : Gallery) :
  materialized_prefix g ->
  pswpContainer (state_of (addElements (Some JS.PInf) g))
  = map getPswpItem (collection g) /\
  nextButton (state_of (addElements (Some JS.PInf) g)) = none /\
  pswpContainer (state_of (addElements (Some JS.NaN) g)) = pswpContainer g /\
  pswpContainer (state_of (addElements (Some JS.NInf) g)) = pswpContainer g.
Proof.
  intros Hp. pose proof (prefix_length Hp) as Hle.
  assert (Hb : forall n, n = JS.PInf \/ n = JS.NaN \/ n = JS.NInf ->
                         JS.ToNumber (bound (Some n) g) = n).
  { intros n Hn. unfold bound.
    destruct (length (pswpContainer g) =? 0); [reflexivity|].
    destruct (nth_error (collection g) (length (pswpContainer g))); [|reflexivity].
    destruct Hn as [->|[->| ->]]; reflexivity. }
  assert (Hnone : forall n, n = JS.NaN \/ n = JS.NInf ->
            pswpContainer (state_of (addElements (Some n) g)) = pswpContainer g).
  { intros n Hn.
    destruct (addElements_materialized (Some n) g Hle) as (_ & Hs & _).
    rewrite Hs.
    rewrite (proj2 (filter_ext_in_iff (below (bound (Some n) g)) (fun _ => false) _)).
    - rewrite filter_none. cbn. apply app_nil_r.
    - intros x _. unfold below. rewrite Hb by tauto.
      destruct Hn as [->| ->]; reflexivity. }
  destruct (addElements_materialized (Some JS.PInf) g Hle) as (Hc & Hs & Hn).
  assert (Hall : pswpContainer (state_of (addElements (Some JS.PInf) g))
                 = map getPswpItem (collection g)).
  { rewrite Hs.
    rewrite (proj2 (filter_ext_in_iff (below (bound (Some JS.PInf) g)) (fun _ => true) _)).
    - rewrite (prefix_firstn Hp) at 1. rewrite <- map_app. f_equal.
      rewrite <- (firstn_skipn (length (pswpContainer g)) (collection g)) at 3.
      f_equal. apply filter_every.
    - intros x _. unfold below. rewrite Hb by tauto. reflexivity. }
  split; [exact Hall|]. split.
  - apply Hn. rewrite Hall, Hc, length_map. reflexivity.
  - split; apply Hnone; tauto.
Qed.

Lemma addElements_infinite_or_NaN_witness :
  materialized_prefix Sample.three_rows /\
  map id (pswpContainer (state_of (addElements (Some JS.PInf) Sample.three_rows)))
  = seq 0 12.
Proof.
  assert (H : materialized_prefix Sample.three_rows).
  { exists 6. split; [vm_compute; lia | vm_compute; reflexivity]. }
  split; [exact H|].
  rewrite (proj1 (@addElements_infinite_or_NaN Sample.three_rows H)).
  vm_compute. reflexivity.
Defined.

(* ================================================================== *)
(** ** A row height of zero *)
(* ================================================================== *)

Lemma fdiv_by_zero (x : spec_float) :
  JS.Math_floor (JS.fdiv x (JS.fmul (JS.of_Z 0) JS.lit_0_7))
  = match x with
    | S754_zero _ | S754_nan => JS.NaN
    | S754_infinity s | S754_finite s _ _ => if s then JS.NInf else JS.PInf
    end.
Proof.
  change (JS.fmul (JS.of_Z 0) JS.lit_0_7) with (S754_zero false).
  destruct x as [s|s| |s m e]; try reflexivity; destruct s; reflexivity.
Qed.

(** X4.  With no fixed page size and a row height of zero the page size
    is not a computed number of rows: [getRowsPerPage] gives [+Infinity],
    [NaN] or the minimum.  It is [NaN] (not the minimum) for a visible
    height of zero, [+Infinity] for a visible height of 1 to 4000 pixels,
    and the minimum for a negative one down to -4000. *)
Theorem getRowsPerPage_zero_rowHeight (v : Viewport) (g : Gallery) :
  limit (options g) = 0%Z -> rowHeight (options g) = 0%Z ->
  let h := (winHeight v - bodyOffsetTop v)%Z in
  (getRowsPerPage v g = JS.PInf \/ getRowsPerPage v g = JS.NaN \/
   getRowsPerPage v g = JS.Int (minRowsAtStart (options g))) /\
  (h = 0%Z -> getRowsPerPage v g = JS.NaN) /\
  ((0 < h <= 4000)%Z -> getRowsPerPage v g = JS.PInf) /\
  ((-4000 <= h < 0)%Z -> getRowsPerPage v g = JS.Int (minRowsAtStart (options g))).
Proof.
  intros Hl Hr h. unfold getRowsPerPage. rewrite Hl, Hr. cbn [Z.eqb negb]. fold h.
  rewrite fdiv_by_zero.
  assert (Hpos : forallb (fun n => match JS.of_Z (Z.of_nat (S n)) with
                                   | S754_finite false _ _ => true
                                   | _ => false
                                   end) (seq 0 4000) = true) by (vm_compute; reflexivity).
  assert (Hneg : forallb (fun n => match JS.of_Z (- Z.of_nat (S n)) with
                                   | S754_finite true _ _ => true
                                   | _ => false
                                   end) (seq 0 4000) = true) by (vm_compute; reflexivity).
  rewrite forallb_forall in Hpos, Hneg.
  split; [|split; [|split]].
  - destruct (JS.of_Z h) as [s|s| |s m e]; try destruct s; cbn; auto.
  - intros ->. reflexivity.
  - intros Hh. specialize (Hpos (Z.to_nat (h - 1))).
    replace (Z.of_nat (S (Z.to_nat (h - 1)))) with h in Hpos by lia.
    assert (Hin : In (Z.to_nat (h - 1)) (seq 0 4000)) by (apply in_seq; lia).
    specialize (Hpos Hin).
    destruct (JS.of_Z h) as [s|s| |[|] m e]; try discriminate. reflexivity.
  - intros Hh. specialize (Hneg (Z.to_nat (- h - 1))).
    replace (- Z.of_nat (S (Z.to_nat (- h - 1))))%Z with h in Hneg by lia.
    assert (Hin : In (Z.to_nat (- h - 1)) (seq 0 4000)) by (apply in_seq; lia).
    specialize (Hneg Hin).
    destruct (JS.of_Z h) as [s|s| |[|] m e]; try discriminate. reflexivity.
Qed.

(* ================================================================== *)
(** ** Invariants over every call and every event *)
(* ================================================================== *)

Lemma well_formed_same (g g' : Gallery) :
  collection g' = collection g -> pswpContainer g' = pswpContainer g ->
  well_formed g -> well_formed g'.
Proof.
  intros Hc Hp [Hm (k & Hk & E)]. split.
  - rewrite Hc. exact Hm.
  - exists k. rewrite Hc, Hp. split; assumption.
Qed.

Lemma in_lockstep_same (g g' : Gallery) :
  pswpContainer g' = pswpContainer g -> bodyItems g' = bodyItems g ->
  in_lockstep g -> in_lockstep g'.
Proof.
  intros Hp Hb (shown & E1 & E2). exists shown. rewrite Hp, Hb. split; assumption.
Qed.

(** [pagination] writes the record of the hook's calls and nothing else. *)
Lemma pagination_frame (simulatePagination : IGalleryOptions -> Z -> JS.number)
  (nbRows : option JS.number) (v : Viewport) (g : Gallery) :
  exists calls, pagination simulatePagination nbRows v g = set_pagination_calls calls g.
Proof.
  unfold pagination. destruct (has_pagination g).
  - destruct (negb (length (collection g) =? 0)); eexists; reflexivity.
  - exists (pagination_calls g). destruct g; reflexivity.
Qed.

Lemma state_of_then (c : Completion) (f : Gallery -> Gallery) :
  state_of (c >>= fun g => Return (f g))
  = match c with Return g => f g | Throw g => g end.
Proof. destruct c; reflexivity. Qed.

Lemma returns_then (c : Completion) (f : Gallery -> Gallery) :
  returns (c >>= fun g => Return (f g)) = returns c.
Proof. destruct c; reflexivity. Qed.

Lemma addElements_in_lockstep (rows : option JS.number) (g : Gallery) :
  in_lockstep g -> in_lockstep (state_of (addElements rows g)).
Proof.
  intros (shown & E1 & E2).
  destruct (Nat.le_gt_cases (length (pswpContainer g)) (length (collection g))) as [Hle|Hgt].
  - destruct (addElements_materialized rows g Hle) as (_ & Hs & _).
    pose proof (addElements_bodyItems rows g Hle) as Hb.
    exists (shown ++ filter (below (bound rows g)) (unmaterialized g)).
    rewrite !map_app, <- E1, <- E2. split; [exact Hs | exact Hb].
  - rewrite (addElements_overfull rows g Hgt). exists shown. split; assumption.
Qed.

Lemma addElements_keeps_imagesContainer (rows : option JS.number) (g : Gallery) :
  imagesContainer g <> None ->
  imagesContainer (state_of (addElements rows g)) <> None.
Proof.
  intros Hi.
  assert (Hloop : forall L items,
            imagesContainer
              (addElements_finish (addElements_loop L items (set_nextButton block g)))
            <> None).
  { intros L items.
    pose proof (proj1 (proj2 (proj2 (proj2 (proj2 (proj2 (proj2
                  (loop_frame L items (set_nextButton block g))))))))) as Hl.
    cbv zeta in Hl. cbn [imagesContainer set_nextButton] in Hl.
    destruct (imagesContainer g) as [d|] eqn:E; [|contradiction].
    destruct (addElements_loop L items (set_nextButton block g))
      as [o h p s w c l b n r i gv gt].
    cbn in Hl. subst i. unfold addElements_finish. cbn.
    destruct gv; destruct gt; cbn; discriminate. }
  unfold addElements. cbn [pswpContainer collection set_nextButton].
  destruct (length (pswpContainer g) =? length (collection g)).
  - destruct (length (collection g) =? 0); [|exact Hi].
    cbn [imagesContainer set_noResults set_nextButton].
    destruct (imagesContainer g); [cbn; discriminate | contradiction].
  - destruct (length (pswpContainer g) =? 0); [apply Hloop|].
    destruct (nth_error (collection g) (length (pswpContainer g))); [apply Hloop|].
    exact Hi.
Qed.

Section History.

Variable organize : IGalleryOptions -> Z -> list Item -> list Item.
Variable simulatePagination : IGalleryOptions -> Z -> JS.number.

Hypothesis organize_keeps_fields :
  forall o w l, map fields (organize o w l) = map fields l.

Hypothesis organize_is_monotone :
  forall o w l, monotone (rows_of (organize o w l)).

Lemma then_pagination_well_formed (c : Completion) (n : option JS.number) (v : Viewport) :
  well_formed (state_of c) ->
  well_formed (state_of (c >>= fun g => Return (pagination simulatePagination n v g))).
Proof.
  intros Hw. rewrite state_of_then. destruct c as [g|g]; [|exact Hw].
  destruct (pagination_frame simulatePagination n v g) as (calls & ->).
  exact (well_formed_same (set_pagination_calls calls g) eq_refl eq_refl Hw).
Qed.

Lemma fire_well_formed (e : Event) (g : Gallery) :
  well_formed g -> well_formed (state_of (fire organize simulatePagination e g)).
Proof.
  intros Hw. destruct e as [items v|items v|rows|v|v| |v|v]; cbn [fire].
  - exact (addItems_well_formed organize organize_keeps_fields organize_is_monotone
             items v Hw).
  - unfold collection_setter.
    apply (addItems_well_formed organize organize_keeps_fields organize_is_monotone).
    split; [apply monotone_nil | exists 0; split; [cbn; lia | reflexivity]].
  - exact (addElements_well_formed rows Hw).
  - exact (resize_well_formed organize organize_is_monotone v Hw).
  - unfold refresh. apply addElements_well_formed.
    apply (Organizer_organize_well_formed organize organize_keeps_fields organize_is_monotone).
    apply reset_prefix.
  - split; [exact (proj1 Hw) | apply reset_prefix].
  - unfold onScroll. case_if.
    + apply then_pagination_well_formed, addElements_well_formed.
      exact (well_formed_same (set_old_scroll_top _ g) eq_refl eq_refl Hw).
    + exact (well_formed_same (set_old_scroll_top _ g) eq_refl eq_refl Hw).
  - unfold onNextClick. apply then_pagination_well_formed, addElements_well_formed, Hw.
Qed.

(** X5.  With a layout that keeps the items and numbers rows in order,
    the materialized set stays a prefix of the collection, and the rows
    of the collection stay in order, through every sequence of calls of
    [addItems], the setter of [collection], [addElements], [resize],
    [refresh] and [reset] and of scroll events and clicks on the "next"
    button, whether the calls return or throw. *)
Theorem history_well_formed (es : list Event) (g : Gallery) :
  well_formed g ->
  let g' := history organize simulatePagination es g in
  materialized_prefix g' /\ monotone (rows_of (collection g')) /\
  length (pswpContainer g') <= length (collection g').
Proof.
  intros Hw.
  assert (H : well_formed (history organize simulatePagination es g)).
  { revert g Hw. induction es as [|e es IH]; intros g Hw; [exact Hw|].
    apply IH, fire_well_formed, Hw. }
  cbv zeta. destruct H as [Hm Hp].
  split; [exact Hp|]. split; [exact Hm | exact (prefix_length Hp)].
Qed.

Lemma fire_returns (e : Event) (g : Gallery) :
  well_formed g -> imagesContainer g <> None -> hands_over_unusable e = false ->
  returns (fire organize simulatePagination e g) = true.
Proof.
  intros Hw Hi He.
  assert (Hadd : forall items v g0,
            well_formed g0 -> imagesContainer g0 <> None ->
            addItems_throws items = false ->
            returns (addItems organize items v g0) = true).
  { intros items v g0 Hw0 Hi0 Hn.
    destruct (pushed items) as [elements|] eqn:E;
      [|rewrite (addItems_returns_at_guard organize items v g0 Hn E); reflexivity].
    rewrite (addItems_pushed organize items v g0 E). cbn [addItems andb].
    set (laid := Organizer_organize organize
                   (set_collection (collection g0 ++ map new_Item elements) g0)).
    case_if; [|reflexivity].
    apply addElements_returns; [|right; exact Hi0].
    apply prefix_length.
    apply (Organizer_organize_well_formed organize organize_keeps_fields organize_is_monotone).
    apply (@prefix_set_collection g0 _ (map new_Item elements)); [exact (proj2 Hw0) | reflexivity]. }
  destruct e as [items v|items v|rows|v|v| |v|v]; cbn [fire].
  - apply Hadd; [exact Hw | exact Hi | exact He].
  - unfold collection_setter. apply Hadd; [| exact Hi | exact He].
    split; [apply monotone_nil | exists 0; split; [cbn; lia | reflexivity]].
  - apply addElements_returns; [exact (prefix_length (proj2 Hw)) | right; exact Hi].
  - unfold resize. case_if; [|reflexivity].
    apply addElements_returns; [cbn; lia | right; exact Hi].
  - unfold refresh. apply addElements_returns; [cbn; lia | right; exact Hi].
  - reflexivity.
  - unfold onScroll. case_if; [|reflexivity]. rewrite returns_then.
    apply addElements_returns; [exact (prefix_length (proj2 Hw)) | right; exact Hi].
  - unfold onNextClick. rewrite returns_then.
    apply addElements_returns; [exact (prefix_length (proj2 Hw)) | right; exact Hi].
Qed.

Lemma fire_keeps_imagesContainer (e : Event) (g : Gallery) :
  imagesContainer g <> None ->
  imagesContainer (state_of (fire organize simulatePagination e g)) <> None.
Proof.
  intros Hi.
  assert (Hthen : forall c n v,
            imagesContainer (state_of c) <> None ->
            imagesContainer
              (state_of (c >>= fun g => Return (pagination simulatePagination n v g)))
            <> None).
  { intros c n v Hc. rewrite state_of_then. destruct c as [g0|g0]; [|exact Hc].
    destruct (pagination_frame simulatePagination n v g0) as (calls & ->). exact Hc. }
  assert (Hadd : forall items v g0,
            imagesContainer g0 <> None ->
            imagesContainer (state_of (addItems organize items v g0)) <> None).
  { intros items v g0 Hi0.
    destruct (pushed items) as [elements|] eqn:E;
      [|rewrite (addItems_not_pushed organize items v g0 E); exact Hi0].
    rewrite (addItems_pushed organize items v g0 E). cbn [addItems andb].
    case_if; [apply addElements_keeps_imagesContainer|]; exact Hi0. }
  destruct e as [items v|items v|rows|v|v| |v|v]; cbn [fire].
  - apply Hadd, Hi.
  - unfold collection_setter. apply Hadd. exact Hi.
  - apply addElements_keeps_imagesContainer, Hi.
  - unfold resize. case_if; [|exact Hi]. apply addElements_keeps_imagesContainer. exact Hi.
  - unfold refresh. apply addElements_keeps_imagesContainer. exact Hi.
  - exact Hi.
  - unfold onScroll. case_if; [|exact Hi].
    apply Hthen, addElements_keeps_imagesContainer. exact Hi.
  - unfold onNextClick. apply Hthen, addElements_keeps_imagesContainer. exact Hi.
Qed.

Lemma fire_throws (e : Event) (g : Gallery) :
  hands_over_unusable e = true ->
  returns (fire organize simulatePagination e g) = false.
Proof.
  intros He. destruct e as [items v|items v|rows|v|v| |v|v]; cbn [hands_over_unusable] in He;
    try discriminate; cbn [fire].
  - rewrite (addItems_throws_spec organize items v g He). reflexivity.
  - unfold collection_setter. rewrite (addItems_throws_spec organize items v _ He).
    reflexivity.
Qed.

(** X6.  On a page that has the element of class [natural-gallery-images],
    with a layout that keeps the items and numbers rows in order and from
    a gallery whose materialized set is a prefix of its collection,
    whatever calls and events came before: a call or an event throws
    exactly when it is [addItems] or the setter of [collection] handed
    [null], [undefined], or an object that is not an array, has [Array]
    for [constructor], a truthy [length] and no method [forEach]. *)
Theorem never_throws_with_counters (es : list Event) (e : Event) (g : Gallery) :
  well_formed g -> imagesContainer g <> None ->
  returns (fire organize simulatePagination e
             (history organize simulatePagination es g))
  = negb (hands_over_unusable e).
Proof.
  intros Hw Hi.
  assert (H : well_formed (history organize simulatePagination es g) /\
              imagesContainer (history organize simulatePagination es g) <> None).
  { revert g Hw Hi. induction es as [|e0 es IH]; intros g Hw Hi; [split; assumption|].
    apply IH; [apply fire_well_formed, Hw | apply fire_keeps_imagesContainer, Hi]. }
  destruct H as [Hw' Hi'].
  destruct (hands_over_unusable e) eqn:He; cbn [negb].
  - exact (fire_throws e _ He).
  - exact (fire_returns e Hw' Hi' He).
Qed.

End History.

Section Lockstep.

Variable organize : IGalleryOptions -> Z -> list Item -> list Item.
Variable simulatePagination : IGalleryOptions -> Z -> JS.number.

Lemma fire_in_lockstep (e : Event) (g : Gallery) :
  in_lockstep g -> in_lockstep (state_of (fire organize simulatePagination e g)).
Proof.
  intros Hl.
  assert (Hthen : forall c n v,
            in_lockstep (state_of c) ->
            in_lockstep
              (state_of (c >>= fun g => Return (pagination simulatePagination n v g)))).
  { intros c n v Hc. rewrite state_of_then. destruct c as [g0|g0]; [|exact Hc].
    destruct (pagination_frame simulatePagination n v g0) as (calls & ->).
    exact (in_lockstep_same (set_pagination_calls calls g0) eq_refl eq_refl Hc). }
  assert (Hnil : forall g0, pswpContainer g0 = [] -> bodyItems g0 = [] -> in_lockstep g0).
  { intros g0 E1 E2. exists []. rewrite E1, E2. split; reflexivity. }
  assert (Hadd : forall items v g0,
            in_lockstep g0 -> in_lockstep (state_of (addItems organize items v g0))).
  { intros items v g0 Hl0.
    destruct (pushed items) as [elements|] eqn:E;
      [|rewrite (addItems_not_pushed organize items v g0 E); exact Hl0].
    rewrite (addItems_pushed organize items v g0 E). cbn [addItems andb].
    case_if; [apply addElements_in_lockstep|];
      exact (in_lockstep_same _ eq_refl eq_refl Hl0). }
  destruct e as [items v|items v|rows|v|v| |v|v]; cbn [fire].
  - apply Hadd, Hl.
  - unfold collection_setter. apply Hadd, Hnil; reflexivity.
  - apply addElements_in_lockstep, Hl.
  - unfold resize. case_if; [|exact Hl]. apply addElements_in_lockstep, Hnil; reflexivity.
  - unfold refresh. apply addElements_in_lockstep, Hnil; reflexivity.
  - apply Hnil; reflexivity.
  - unfold onScroll. case_if.
    + apply Hthen, addElements_in_lockstep.
      exact (in_lockstep_same (set_old_scroll_top _ g) eq_refl eq_refl Hl).
    + exact (in_lockstep_same (set_old_scroll_top _ g) eq_refl eq_refl Hl).
  - unfold onNextClick. apply Hthen, addElements_in_lockstep, Hl.
Qed.

Hypothesis organize_keeps_fields :
  forall o w l, map fields (organize o w l) = map fields l.

Hypothesis organize_is_monotone :
  forall o w l, monotone (rows_of (organize o w l)).

(** X7.  With a layout that keeps the items and numbers rows in order,
    from a gallery whose materialized set is a prefix of its collection
    and whose body holds the elements of these items: after every sequence
    of calls and events the elements in the body are those of the
    materialized items, the first items of the collection, in order, as
    many as the viewer has entries.  So every element in the body belongs
    to an item of the collection, and the loop of [reset], which removes
    the element of every item of the collection, empties the body. *)
Theorem history_in_lockstep (es : list Event) (g : Gallery) :
  well_formed g -> rendered_prefix g ->
  let g' := history organize simulatePagination es g in
  rendered_prefix g' /\
  pswpContainer g' = map getPswpItem (firstn (length (pswpContainer g')) (collection g')) /\
  length (bodyItems g') = length (pswpContainer g') /\
  incl (bodyItems g') (map fields (collection g')).
Proof.
  intros Hw Hr.
  assert (Hl : in_lockstep g).
  { exists (firstn (length (pswpContainer g)) (collection g)).
    split; [exact (prefix_firstn (proj2 Hw)) | exact Hr]. }
  assert (H : in_lockstep (history organize simulatePagination es g) /\
              well_formed (history organize simulatePagination es g)).
  { clear Hr. revert g Hw Hl. induction es as [|e es IH]; intros g Hw Hl; [split; assumption|].
    apply IH.
    - exact (fire_well_formed organize simulatePagination organize_keeps_fields
               organize_is_monotone e Hw).
    - apply fire_in_lockstep, Hl. }
  cbv zeta. destruct H as [(shown & E1 & E2) [_ Hp]].
  set (g' := history organize simulatePagination es g) in *.
  pose proof (prefix_firstn Hp) as Hf.
  assert (Hb : rendered_prefix g').
  { unfold rendered_prefix. rewrite E2. change (map fields shown) with (map getPswpItem shown).
    rewrite <- E1. exact Hf. }
  split; [exact Hb|]. split; [exact Hf|]. split.
  - rewrite E1, E2, !length_map. reflexivity.
  - rewrite Hb. apply incl_map. intros x Hx.
    rewrite <- (firstn_skipn (length (pswpContainer g')) (collection g')).
    apply in_or_app. left. exact Hx.
Qed.

End Lockstep.

(* ================================================================== *)
(** ** Revealing from nothing: [resize], [refresh] and the setter *)
(* ================================================================== *)

Lemma getRowsPerPage_options (v : Viewport) (g g' : Gallery) :
  options g' = options g -> getRowsPerPage v g' = getRowsPerPage v g.
Proof. intros E. unfold getRowsPerPage. rewrite E. reflexivity. Qed.

(** A reveal with nothing materialized and nothing rendered shows the
    items of the collection whose row is below the argument. *)
Lemma reveal_from_scratch (rows : option JS.number) (g : Gallery) :
  pswpContainer g = [] -> bodyItems g = [] ->
  let g' := state_of (addElements rows g) in
  collection g' = collection g /\
  pswpContainer g' = map getPswpItem (filter (below rows) (collection g)) /\
  bodyItems g' = map fields (filter (below rows) (collection g)) /\
  (nextButton g' = none <-> length (pswpContainer g') = length (collection g)) /\
  noResults g' = match collection g with [] => block | _ => none end.
Proof.
  intros Ep Eb.
  assert (Hle : length (pswpContainer g) <= length (collection g)) by (rewrite Ep; cbn; lia).
  destruct (addElements_materialized rows g Hle) as (Hc & Hs & Hn).
  pose proof (addElements_bodyItems rows g Hle) as Hbody.
  unfold unmaterialized in Hbody. cbv zeta in *.
  assert (Hbound : bound rows g = rows) by (unfold bound; rewrite Ep; reflexivity).
  rewrite Hbound, Ep in Hs. rewrite Hbound, Ep, Eb in Hbody. cbn in Hs, Hbody.
  rewrite Hc in Hn.
  split; [exact Hc|]. split; [exact Hs|]. split; [exact Hbody|]. split; [exact Hn|].
  destruct (collection g) as [|x c] eqn:Ec.
  - rewrite (addElements_empty rows g Ec Ep). destruct (imagesContainer g); reflexivity.
  - rewrite addElements_reveal by (rewrite Ep, Ec; cbn; lia). cbn [state_of].
    apply (proj2 (proj2 (proj2 (proj2 (proj2 (proj2 (proj2 (proj2 (proj2
             (finish_frame _)))))))))).
Qed.

(** X8.  After [resize] the width last recorded is the width measured, so
    a second [resize] with the same measure returns at once with the
    object as it is. *)
Theorem resize_twice (organize : IGalleryOptions -> Z -> list Item -> list Item)
  (v : Viewport) (g : Gallery) :
  let g' := state_of (resize organize v g) in
  bodyWidth g' = containerWidth v /\ resize organize v g' = Return g'.
Proof.
  cbv zeta.
  assert (Hw : bodyWidth (state_of (resize organize v g)) = containerWidth v).
  { unfold resize. destruct (Z.eqb_spec (containerWidth v) (bodyWidth g)) as [E|E]; cbn [negb].
    - symmetry. exact E.
    - rewrite (proj2 (proj2 (proj2 (proj2 (addElements_frame _ _))))). reflexivity. }
  split; [exact Hw|]. apply resize_same_width. symmetry. exact Hw.
Qed.

Lemma monotone_nth (rows : list nat) :
  monotone rows ->
  forall i j a b, i <= j -> nth_error rows i = Some a -> nth_error rows j = Some b -> a <= b.
Proof.
  induction rows as [|x rows IH]; intros Hm i j a b Hij Ha Hb.
  - destruct i; discriminate.
  - destruct i as [|i]; destruct j as [|j]; cbn in Ha, Hb.
    + injection Ha as <-. injection Hb as <-. lia.
    + injection Ha as <-. pose proof (monotone_head Hm) as Hall.
      rewrite Forall_forall in Hall. apply Hall. exact (nth_error_In _ _ Hb).
    + lia.
    + apply (IH (monotone_tail Hm) i j); [lia | assumption | assumption].
Qed.

Section Resize.

Variable organize : IGalleryOptions -> Z -> list Item -> list Item.

Hypothesis organize_keeps_fields :
  forall o w l, map fields (organize o w l) = map fields l.

Hypothesis organize_is_monotone :
  forall o w l, monotone (rows_of (organize o w l)).

(** X9.  When the width has changed, [resize] keeps the items of the
    collection, leaves every entry that was materialized materialized, in
    front and in order, and materializes whole rows only: an item is
    shown according to its row alone. *)
Theorem resize_keeps_what_was_shown (v : Viewport) (g : Gallery) :
  well_formed g -> containerWidth v <> bodyWidth g ->
  let g' := state_of (resize organize v g) in
  map fields (collection g') = map fields (collection g) /\
  starts_with (pswpContainer g') (pswpContainer g) /\
  exists L, pswpContainer g' = map getPswpItem (filter (below L) (collection g')).
Proof.
  intros [_ Hp] Hw. unfold resize.
  destruct (Z.eqb_spec (containerWidth v) (bodyWidth g)) as [|_]; [contradiction|].
  cbn [negb]. unfold Organizer_organize.
  cbn [options bodyWidth collection pswpContainer set_collection set_bodyWidth].
  set (c := organize (options g) (containerWidth v) (collection g)).
  set (g1 := reset (set_collection c (set_bodyWidth (containerWidth v) g))).
  set (nbRows := match match length (pswpContainer g) with
                       | 0 => None
                       | S n => nth_error c n
                       end with
                 | Some item => JS.add (JS.Int (Z.of_nat (row item))) (JS.Int 1)
                 | None => getRowsPerPage v (set_collection c (set_bodyWidth (containerWidth v) g))
                 end).
  destruct (@reveal_from_scratch (Some nbRows) g1 eq_refl eq_refl) as (Hc & Hs & _).
  cbv zeta in Hc, Hs.
  change (collection g1) with c in Hc, Hs.
  assert (Hf : map fields c = map fields (collection g)) by apply organize_keeps_fields.
  split; [rewrite Hc; exact Hf|].
  split; [|exists (Some nbRows); rewrite Hc; exact Hs].
  unfold starts_with. rewrite Hs.
  destruct (pswpContainer g) as [|e es] eqn:Eg; [reflexivity|].
  assert (Hk : S (length es) <= length (collection g)).
  { pose proof (prefix_length Hp) as Hle. rewrite Eg in Hle. exact Hle. }
  assert (Hlen : length c = length (collection g)).
  { rewrite <- (length_map fields c), Hf, length_map. reflexivity. }
  pose proof (prefix_firstn Hp) as Hpre. rewrite Eg in Hpre. cbn [length] in Hpre.
  subst nbRows. cbn [length].
  destruct (nth_error c (length es)) as [last|] eqn:El;
    [|apply nth_error_None in El; lia].
  cbn [JS.add].
  assert (Hall : forallb (below (Some (JS.Int (Z.of_nat (row last) + 1))))
                   (firstn (S (length es)) c) = true).
  { apply forallb_forall. intros x Hx.
    apply In_nth_error in Hx. destruct Hx as (i & Hi).
    assert (Hlt : i < S (length es)).
    { assert (Hs' : nth_error (firstn (S (length es)) c) i <> None) by congruence.
      apply nth_error_Some in Hs'. rewrite length_firstn in Hs'. lia. }
    rewrite nth_error_firstn in Hi.
    destruct (Nat.ltb_spec i (S (length es))); [|lia].
    assert (Hrow : row x <= row last).
    { apply (@monotone_nth (rows_of c) (organize_is_monotone _ _ _) i (length es));
        [lia | | ]; unfold rows_of; rewrite nth_error_map.
      - rewrite Hi. reflexivity.
      - rewrite El. reflexivity. }
    unfold below. cbn. apply Z.ltb_lt. lia. }
  rewrite <- (firstn_skipn (S (length es)) c) at 1.
  rewrite filter_app, (forallb_filter_id _ _ Hall), map_app, firstn_app.
  rewrite length_map, length_firstn.
  replace (Nat.min (S (length es)) (length c)) with (S (length es)) by lia.
  rewrite Nat.sub_diag, firstn_O, app_nil_r, firstn_all2
    by (rewrite length_map, length_firstn; lia).
  rewrite Hpre. change getPswpItem with fields.
  rewrite <- !firstn_map, Hf. reflexivity.
Qed.

End Resize.

Section Scrolling.

Variable simulatePagination : IGalleryOptions -> Z -> JS.number.

(** X10.  A scroll event at the offset that the listener recorded last
    does nothing, whatever the first event did (a reveal, a pagination
    request or a throw): only a net movement downward can fire again. *)
Theorem onScroll_same_offset (v : Viewport) (g : Gallery) :
  let g' := state_of (onScroll simulatePagination v g) in
  old_scroll_top g' = (scrollTop v - clientTop v)%Z /\
  onScroll simulatePagination v g' = Return g'.
Proof.
  cbv zeta.
  pose proof (proj1 (onScroll_behaviour simulatePagination v g)) as Ho. cbv zeta in Ho.
  split; [exact Ho|].
  set (g' := state_of (onScroll simulatePagination v g)) in *.
  unfold onScroll. rewrite Ho, Z.sub_diag. cbn [Z.ltb Z.compare andb].
  destruct g'. cbn in Ho. subst. reflexivity.
Qed.

End Scrolling.

Section Refresh.

Variable organize : IGalleryOptions -> Z -> list Item -> list Item.

(** X11.  [refresh] shows the first page of the collection laid out
    anew, whatever was shown before: the viewer and the body hold the
    items whose row is below [getRowsPerPage()], the "next" button is
    hidden exactly when these are all the items, and the empty-state
    indicator is shown exactly when the collection is empty. *)
Theorem refresh_shows_first_page (v : Viewport) (g : Gallery) :
  let c := organize (options g) (bodyWidth g) (collection g) in
  let page := Some (getRowsPerPage v g) in
  let g' := state_of (refresh organize v g) in
  collection g' = c /\
  pswpContainer g' = map getPswpItem (filter (below page) c) /\
  bodyItems g' = map fields (filter (below page) c) /\
  (nextButton g' = none <-> filter (below page) c = c) /\
  noResults g' = match c with [] => block | _ => none end.
Proof.
  cbv zeta. unfold refresh.
  set (g1 := Organizer_organize organize (reset g)).
  destruct (@reveal_from_scratch (Some (getRowsPerPage v g1)) g1 eq_refl eq_refl)
    as (Hc & Hs & Hb & Hn & Hr).
  cbv zeta in *.
  rewrite (getRowsPerPage_options v g g1 eq_refl) in *.
  change (collection g1) with (organize (options g) (bodyWidth g) (collection g)) in *.
  split; [exact Hc|]. split; [exact Hs|]. split; [exact Hb|]. split; [|exact Hr].
  rewrite Hn, Hs, length_map. split.
  - intros E. pose proof (filter_length_forallb _ _ E) as Hall.
    apply forallb_filter_id. exact Hall.
  - intros ->. reflexivity.
Qed.

(** When the layout of a collection already laid out is that collection. *)
Hypothesis organize_idempotent :
  forall o w l, organize o w (organize o w l) = organize o w l.

(** X12.  With such a layout a second [refresh] changes nothing of what
    is shown: the collection, the viewer's entries, the rendered
    elements, the "next" button and the empty-state indicator are the
    same after two as after one. *)
Theorem refresh_twice (v : Viewport) (g : Gallery) :
  let g1 := state_of (refresh organize v g) in
  let g2 := state_of (refresh organize v g1) in
  collection g2 = collection g1 /\ pswpContainer g2 = pswpContainer g1 /\
  bodyItems g2 = bodyItems g1 /\ nextButton g2 = nextButton g1 /\
  noResults g2 = noResults g1.
Proof.
  cbv zeta. set (g1 := state_of (refresh organize v g)).
  assert (Hfirst : forall g0,
    let c := organize (options g0) (bodyWidth g0) (collection g0) in
    let page := Some (getRowsPerPage v g0) in
    let g' := state_of (refresh organize v g0) in
    options g' = options g0 /\ bodyWidth g' = bodyWidth g0 /\
    collection g' = c /\
    pswpContainer g' = map getPswpItem (filter (below page) c) /\
    bodyItems g' = map fields (filter (below page) c) /\
    (nextButton g' = none <-> length (filter (below page) c) = length c) /\
    noResults g' = match c with [] => block | _ => none end).
  { intros g0. cbv zeta. unfold refresh.
    set (h := Organizer_organize organize (reset g0)).
    destruct (@reveal_from_scratch (Some (getRowsPerPage v h)) h eq_refl eq_refl)
      as (Hc & Hs & Hb & Hn & Hr).
    destruct (addElements_frame (Some (getRowsPerPage v h)) h) as (Ho & _ & _ & _ & Hw).
    cbv zeta in *. rewrite (getRowsPerPage_options v g0 h eq_refl) in *.
    rewrite Hs, length_map in Hn.
    repeat split; try assumption; apply Hn. }
  destruct (Hfirst g) as (Ho & Hw & Hc & Hs & Hb & Hn & Hr).
  destruct (Hfirst g1) as (Ho2 & Hw2 & Hc2 & Hs2 & Hb2 & Hn2 & Hr2).
  cbv zeta in *. fold g1 in Ho, Hw, Hc, Hs, Hb, Hn, Hr.
  set (g2 := state_of (refresh organize v g1)) in *.
  rewrite (getRowsPerPage_options v g g1 Ho) in *.
  rewrite Ho, Hw, Hc, organize_idempotent in *.
  split; [congruence|]. split; [congruence|]. split; [congruence|]. split; [|congruence].
  destruct (nextButton g2) eqn:E2; destruct (nextButton g1) eqn:E1; try reflexivity.
  - pose proof (proj2 Hn2 (proj1 Hn eq_refl)). discriminate.
  - pose proof (proj2 Hn (proj1 Hn2 eq_refl)). discriminate.
Qed.

End Refresh.

(* ================================================================== *)
(** ** [select] and [unselect] *)
(* ================================================================== *)

Section Selected.

Variable Ref : Type.
Variable Ref_eq_dec : forall a b : Ref, {a = b} + {a <> b}.
Variable fields_of : Ref -> IItemFields.

Lemma indexOf_None (item : Ref) (arr : list Ref) :
  indexOf Ref_eq_dec item arr = None <-> ~ In item arr.
Proof.
  induction arr as [|x arr IH]; cbn [indexOf In].
  - split; [intros _ [] | reflexivity].
  - destruct (Ref_eq_dec x item) as [->|Hne].
    + split; [discriminate | intros H; exfalso; apply H; left; reflexivity].
    + destruct (indexOf Ref_eq_dec item arr) as [i|].
      * split; [discriminate|]. intros H. exfalso.
        assert (Hin : In item arr).
        { destruct (in_dec Ref_eq_dec item arr) as [Hi|Hn]; [exact Hi|].
          pose proof (proj2 IH Hn). discriminate. }
        apply H. right. exact Hin.
      * split; [|reflexivity]. intros _ [E|Hin]; [contradiction|].
        exact (proj1 IH eq_refl Hin).
Qed.

(** [indexOf] finds the first occurrence, and [splice] takes it out. *)
Lemma indexOf_Some (item : Ref) (arr : list Ref) (i : nat) :
  indexOf Ref_eq_dec item arr = Some i ->
  exists before after,
    arr = before ++ item :: after /\ ~ In item before /\
    length before = i /\ splice1 i arr = before ++ after.
Proof.
  revert i. induction arr as [|x arr IH]; intros i; cbn [indexOf]; [discriminate|].
  destruct (Ref_eq_dec x item) as [->|Hne].
  - intros E. injection E as <-. exists [], arr. repeat split. intros [].
  - destruct (indexOf Ref_eq_dec item arr) as [j|]; [|discriminate].
    intros E. injection E as <-.
    destruct (IH j eq_refl) as (before & after & Ea & Hn & Hl & Hs).
    exists (x :: before), after. cbn [app length splice1]. rewrite Hs, Hl.
    split; [rewrite Ea at 1; reflexivity|]. split; [|split; reflexivity].
    intros [E|Hin]; [contradiction | exact (Hn Hin)].
Qed.

Lemma call_select_selected (s : Selecting Ref) :
  selected (selecting_of (call_select fields_of s)) = selected s.
Proof. unfold call_select. destruct (has_select s); reflexivity. Qed.

Lemma select_selected (item : Ref) (s : Selecting Ref) :
  selected (selecting_of (select Ref_eq_dec fields_of item s))
  = match indexOf Ref_eq_dec item (selected s) with
    | None => selected s ++ [item]
    | Some _ => selected s
    end.
Proof.
  unfold select. destruct (indexOf Ref_eq_dec item (selected s)); [reflexivity|].
  apply call_select_selected.
Qed.

Lemma unselect_selected (item : Ref) (s : Selecting Ref) :
  selected (selecting_of (unselect Ref_eq_dec fields_of item s))
  = match indexOf Ref_eq_dec item (selected s) with
    | Some index => splice1 index (selected s)
    | None => selected s
    end.
Proof.
  unfold unselect. destruct (indexOf Ref_eq_dec item (selected s)); [|reflexivity].
  apply call_select_selected.
Qed.

(** X17.  A selection without a duplicate stays without one: after
    [select] the item is selected besides what was, after [unselect] it
    is not selected and all the others still are, whether or not the hook
    exists. *)
Theorem selection_without_duplicates (item : Ref) (s : Selecting Ref) :
  NoDup (selected s) ->
  let s1 := selecting_of (select Ref_eq_dec fields_of item s) in
  let s2 := selecting_of (unselect Ref_eq_dec fields_of item s) in
  NoDup (selected s1) /\ NoDup (selected s2) /\
  (forall x, In x (selected s1) <-> x = item \/ In x (selected s)) /\
  (forall x, In x (selected s2) <-> x <> item /\ In x (selected s)).
Proof.
  intros Hnd. cbv zeta. rewrite select_selected, unselect_selected.
  destruct (indexOf Ref_eq_dec item (selected s)) as [i|] eqn:E.
  - destruct (indexOf_Some _ _ E) as (before & after & Ea & Hn & _ & Hs).
    rewrite Hs. rewrite Ea in Hnd.
    pose proof (NoDup_remove_1 _ _ _ Hnd) as Hnd'.
    pose proof (NoDup_remove_2 _ _ _ Hnd) as Hni.
    assert (Hin : In item (selected s)) by (rewrite Ea; apply in_elt).
    split; [rewrite Ea; exact Hnd|]. split; [exact Hnd'|]. split.
    + intros x. split; [auto|]. intros [->|H]; assumption.
    + intros x. rewrite Ea. split.
      * intros Hx. split; [intros ->; exact (Hni Hx)|].
        apply in_app_or in Hx. apply in_or_app.
        destruct Hx; [left | right; right]; assumption.
      * intros [Hne Hx]. apply in_app_or in Hx. apply in_or_app.
        destruct Hx as [Hx|[Hx|Hx]]; [left; exact Hx | congruence | right; exact Hx].
  - pose proof (proj1 (indexOf_None _ _) E) as Hni.
    split; [|split; [exact Hnd|split]].
    + apply NoDup_app; [exact Hnd | repeat constructor; intros [] |].
      intros x Hx [<-|[]]. exact (Hni Hx).
    + intros x. rewrite in_app_iff. cbn. split.
      * intros [H|[H|[]]]; [right; exact H | left; symmetry; exact H].
      * intros [->|H]; [right; left; reflexivity | left; exact H].
    + intros x. split; [|intros [_ H]; exact H].
      intros H. split; [intros ->; exact (Hni H) | exact H].
Qed.

Lemma indexOf_snoc (item : Ref) (l : list Ref) :
  ~ In item l -> indexOf Ref_eq_dec item (l ++ [item]) = Some (length l).
Proof.
  induction l as [|x l IH]; intros Hni; cbn [app indexOf length].
  - destruct (Ref_eq_dec item item); [reflexivity | contradiction].
  - destruct (Ref_eq_dec x item) as [->|_]; [exfalso; apply Hni; left; reflexivity|].
    rewrite IH; [reflexivity|]. intros H. apply Hni. right. exact H.
Qed.

Lemma splice1_snoc (item : Ref) (l : list Ref) :
  splice1 (length l) (l ++ [item]) = l.
Proof. induction l as [|x l IH]; cbn [app splice1 length]; congruence. Qed.

(** X18.  Selecting an item that is not selected and unselecting it again
    gives the selection back as it was, in the same order; with a hook
    both calls return, and the hook is told the selection with the item
    at its end, then the selection as it was. *)
Theorem select_then_unselect (item : Ref) (s : Selecting Ref) :
  ~ In item (selected s) ->
  let s1 := selecting_of (select Ref_eq_dec fields_of item s) in
  let s2 := selecting_of (unselect Ref_eq_dec fields_of item s1) in
  selected s2 = selected s /\
  (has_select s = true ->
   select_calls s2
   = select_calls s ++ [map fields_of (selected s ++ [item]); map fields_of (selected s)]).
Proof.
  intros Hni. cbv zeta.
  assert (E : indexOf Ref_eq_dec item (selected s) = None) by (apply indexOf_None; exact Hni).
  pose proof (indexOf_snoc item (selected s) Hni) as E2.
  pose proof (splice1_snoc item (selected s)) as E3.
  unfold select. rewrite E. unfold call_select. cbn [has_select selected select_calls].
  destruct (has_select s) eqn:Eh; cbn [selecting_of]; unfold unselect;
    cbn [selected has_select select_calls]; rewrite E2; unfold call_select;
    cbn [has_select selected select_calls]; rewrite ?Eh, E3; cbn [selecting_of selected
      select_calls].
  - split; [reflexivity|]. intros _. rewrite <- app_assoc. reflexivity.
  - split; [reflexivity | discriminate].
Qed.

(** X19.  [select] and [unselect] call the hook exactly when they change
    the selection, once, with the fields of the selected items in the
    order of selection; when they change nothing they return without a
    call.  Without a hook the call that changes the selection throws, and
    the selection is changed all the same. *)
Theorem selection_hook (item : Ref) (s : Selecting Ref) :
  let c1 := select Ref_eq_dec fields_of item s in
  let c2 := unselect Ref_eq_dec fields_of item s in
  (In item (selected s) -> c1 = SelectReturn s) /\
  (~ In item (selected s) -> c2 = SelectReturn s) /\
  (~ In item (selected s) ->
   selected (selecting_of c1) = selected s ++ [item] /\
   c1 = if has_select s
        then SelectReturn
               {| selected := selected s ++ [item]; has_select := true;
                  select_calls := select_calls s ++ [map fields_of (selected s ++ [item])] |}
        else SelectThrow
               {| selected := selected s ++ [item]; has_select := false;
                  select_calls := select_calls s |}) /\
  (In item (selected s) ->
   length (selected (selecting_of c2)) + 1 = length (selected s) /\
   match c2 with
   | SelectReturn s' =>
       has_select s = true /\
       select_calls s' = select_calls s ++ [map fields_of (selected s')]
   | SelectThrow s' => has_select s = false /\ select_calls s' = select_calls s
   end).
Proof.
  cbv zeta. unfold select, unselect, call_select.
  destruct (indexOf Ref_eq_dec item (selected s)) as [i|] eqn:E.
  - destruct (indexOf_Some _ _ E) as (before & after & Ea & Hn & _ & Hs).
    assert (Hin : In item (selected s)) by (rewrite Ea; apply in_elt).
    split; [reflexivity|]. split; [intros H; contradiction|].
    split; [intros H; contradiction|]. intros _.
    cbn [has_select selected select_calls].
    destruct (has_select s); cbn [selecting_of selected select_calls];
      (split; [rewrite Hs, Ea, !length_app; cbn; lia | split; reflexivity]).
  - pose proof (proj1 (indexOf_None _ _) E) as Hni.
    split; [intros H; contradiction|]. split; [reflexivity|].
    split; [|intros H; contradiction]. intros _.
    cbn [has_select selected select_calls].
    destruct (has_select s); cbn [selecting_of selected]; split; reflexivity.
Qed.

End Selected.

(* ================================================================== *)
(** ** The setter of [collection] and the constructor *)
(* ================================================================== *)

Lemma addElements_collection (rows : option JS.number) (g : Gallery) :
  collection (state_of (addElements rows g)) = collection g.
Proof.
  destruct (Nat.le_gt_cases (length (pswpContainer g)) (length (collection g))) as [Hle|Hgt].
  - exact (proj1 (addElements_materialized rows g Hle)).
  - rewrite (addElements_overfull rows g Hgt). reflexivity.
Qed.

Section Setter.

Variable organize : IGalleryOptions -> Z -> list Item -> list Item.
Variable simulatePagination : IGalleryOptions -> Z -> JS.number.

Hypothesis organize_keeps_fields :
  forall o w l, map fields (organize o w l) = map fields l.




End Setter.

(* ================================================================== *)
(** ** A row without an item, and the "next" button *)
(* ================================================================== *)

Lemma Math_max_hole (arr : JS.sparse Z) :
  forall r, nth_error arr r = Some None -> JS.Math_max arr = JS.NaN.
Proof.
  induction arr as [|x arr IH]; intros r Hr; [destruct r; discriminate|].
  destruct x as [x|]; [|reflexivity].
  destruct r as [|r]; [discriminate|].
  cbn [JS.Math_max]. rewrite (IH r Hr). reflexivity.
Qed.

Section ClickAndHole.

Variable simulatePagination : IGalleryOptions -> Z -> JS.number.

(** X15.  If a row number below one that is in use has no item, the array
    of counts of [getMaxImagesPerRow] has a hole there, [Math.max] reads
    it as [undefined] and gives [NaN], and the pagination hook is asked
    for [NaN] items whatever the number of rows. *)
Theorem getMaxImagesPerRow_hole (g : Gallery) (r m : nat) :
  In m (rows_of (collection g)) -> r < m -> ~ In r (rows_of (collection g)) ->
  getMaxImagesPerRow g = JS.NaN /\
  (has_pagination g = true ->
   forall nbRows v,
     pagination_calls (pagination simulatePagination nbRows v g)
     = pagination_calls g ++ [(length (collection g), JS.NaN)]).
Proof.
  intros Hm Hr Hn.
  assert (Hmax : getMaxImagesPerRow g = JS.NaN).
  { unfold getMaxImagesPerRow. rewrite nbPerRowFn_rows.
    destruct (count_rows_spec (rows_of (collection g))) as [Hlen Hget]. cbv zeta in *.
    set (stack := fold_left count_row (rows_of (collection g)) []) in *.
    apply (Math_max_hole stack r).
    specialize (Hget r).
    rewrite (proj1 (count_occ_not_In Nat.eq_dec _ _) Hn) in Hget. cbn [Nat.eqb] in Hget.
    assert (Hlt : r < length stack).
    { rewrite Hlen. apply Nat.lt_le_trans with (S m); [lia|].
      apply list_max_ge, in_map, Hm. }
    unfold JS.get in Hget.
    destruct (nth_error stack r) as [[c|]|] eqn:E; [discriminate | reflexivity |].
    apply nth_error_None in E. lia. }
  split; [exact Hmax|].
  intros Hhook nbRows v. unfold pagination. rewrite Hhook.
  destruct (collection g) as [|x c] eqn:Ec; [destruct Hm|].
  cbn [length Nat.eqb negb pagination_calls set_pagination_calls].
  rewrite Hmax. reflexivity.
Qed.

(** X16.  A click on the "next" button of a gallery that is not empty
    returns, reveals one page as [addElements] of [getRowsPerPage()]
    does, and then asks the hook once, with the length of the collection,
    for the highest number of items in a row times the rows of a page,
    also when every item was shown already.  The product is that of
    doubles: the exact integer whenever that is below 2^53 in magnitude. *)
Theorem onNextClick_asks_for_a_page (v : Viewport) (g : Gallery) :
  has_pagination g = true -> collection g <> [] ->
  rows_from_zero (rows_of (collection g)) -> materialized_prefix g ->
  let page := getRowsPerPage v g in
  let c := onNextClick simulatePagination v g in
  returns c = true /\
  pswpContainer (state_of c) = pswpContainer (state_of (addElements (Some page) g)) /\
  collection (state_of c) = collection g /\
  pagination_calls (state_of c)
  = pagination_calls g
    ++ [(length (collection g),
         JS.mul (JS.Int (Z.of_nat (max_per_row (collection g)))) page)] /\
  (forall p, page = JS.Int p ->
     (Z.abs (Z.of_nat (max_per_row (collection g)) * p) < 2 ^ 53)%Z ->
     pagination_calls (state_of c)
     = pagination_calls g
       ++ [(length (collection g), JS.Int (Z.of_nat (max_per_row (collection g)) * p))]).
Proof.
  intros Hhook Hne Hz Hp. cbv zeta. unfold onNextClick.
  pose proof (addElements_returns (Some (getRowsPerPage v g)) g (prefix_length Hp)
                (or_introl Hne)) as Hret.
  pose proof (addElements_collection (Some (getRowsPerPage v g)) g) as Hc.
  destruct (addElements_frame (Some (getRowsPerPage v g)) g) as (_ & Hh & Hcalls & _).
  cbv zeta in Hh, Hcalls.
  destruct (addElements (Some (getRowsPerPage v g)) g) as [g1|g1]; [|discriminate Hret].
  cbn [bind state_of returns] in *.
  destruct (pagination_frame simulatePagination (Some (getRowsPerPage v g)) v g1)
    as (calls & Ecalls).
  split; [reflexivity|]. split; [rewrite Ecalls; reflexivity|].
  split; [rewrite Ecalls; exact Hc|].
  assert (Hcount : pagination_calls (pagination simulatePagination
                                       (Some (getRowsPerPage v g)) v g1)
                   = pagination_calls g
                     ++ [(length (collection g),
                          JS.mul (JS.Int (Z.of_nat (max_per_row (collection g))))
                            (getRowsPerPage v g))]).
  { unfold pagination. rewrite Hh, Hhook, Hc.
    destruct (collection g) as [|x rest] eqn:Ec; [contradiction|].
    cbn [length Nat.eqb negb pagination_calls set_pagination_calls].
    assert (Hne1 : collection g1 <> []) by (rewrite Hc; discriminate).
    assert (Hz1 : rows_from_zero (rows_of (collection g1))) by (rewrite Hc; exact Hz).
    rewrite (@getMaxImagesPerRow_max_per_row g1 Hne1 Hz1), Hc, Hcalls. reflexivity. }
  split; [exact Hcount|].
  intros p Ep Hk. rewrite Hcount, Ep, (mul_exact _ _ Hk). reflexivity.
Qed.

End ClickAndHole.

(* ================================================================== *)
(** ** Items that arrive in several batches *)
(* ================================================================== *)

Section Batches.

Variable organize : IGalleryOptions -> Z -> list Item -> list Item.

Hypothesis organize_keeps_fields :
  forall o w l, map fields (organize o w l) = map fields l.

(** The layout reads the fields of the items, not the rows they had. *)
Hypothesis organize_reads_fields :
  forall o w l l', map fields l = map fields l' -> organize o w l = organize o w l'.

Lemma addItems_collection (elements : list IItemFields) (v : Viewport) (g : Gallery) :
  let g' := state_of (addItems organize (JsArray elements) v g) in
  collection g'
  = match elements with
    | [] => collection g
    | _ => organize (options g) (bodyWidth g) (collection g ++ map new_Item elements)
    end /\
  options g' = options g /\ bodyWidth g' = bodyWidth g.
Proof.
  cbv zeta. destruct elements as [|e elements]; [repeat split|].
  cbn [addItems length Nat.eqb].
  set (laid := Organizer_organize organize
                 (set_collection (collection g ++ map new_Item (e :: elements)) g)).
  case_if; [|repeat split].
  rewrite addElements_collection.
  destruct (addElements_frame (Some (getRowsPerPage v laid)) laid) as (Ho & _ & _ & _ & Hw).
  cbv zeta in *. rewrite Ho, Hw. repeat split.
Qed.

(** X20.  With a layout that reads only the fields of the items, the
    collection after two batches is the collection after the one batch of
    both: the same items in the same rows, whatever was revealed between
    them and whatever the viewport was. *)
Theorem addItems_in_batches (first second : list IItemFields) (v1 v2 v : Viewport)
  (g : Gallery) :
  collection
    (state_of (addItems organize (JsArray second) v2
                 (state_of (addItems organize (JsArray first) v1 g))))
  = collection (state_of (addItems organize (JsArray (first ++ second)) v g)).
Proof.
  destruct (addItems_collection first v1 g) as (Hc1 & Ho1 & Hw1).
  cbv zeta in *.
  set (g1 := state_of (addItems organize (JsArray first) v1 g)) in *.
  rewrite (proj1 (addItems_collection second v2 g1)).
  rewrite (proj1 (addItems_collection (first ++ second) v g)).
  destruct first as [|a first]; destruct second as [|b second].
  - cbn [app]. exact Hc1.
  - cbn [app]. rewrite Hc1, Ho1, Hw1. reflexivity.
  - rewrite app_nil_r. exact Hc1.
  - cbn [app]. rewrite Hc1, Ho1, Hw1. apply organize_reads_fields.
    rewrite !map_app, organize_keeps_fields, !map_app, <- app_assoc.
    f_equal. rewrite <- !map_app. reflexivity.
Qed.

End Batches.

(* ================================================================== *)
(** ** These theorems at work on the sample galleries *)
(* ================================================================== *)

Lemma pack_reads_fields (o : IGalleryOptions) (W : Z) (items : list Item) :
  forall items' r acc count,
    map fields items = map fields items' ->
    Organizer.pack o W r acc count items = Organizer.pack o W r acc count items'.
Proof.
  induction items as [|x items IH]; intros [|y items'] r acc count E;
    try discriminate; [reflexivity|].
  cbn [map] in E. injection E as Ef Erest.
  cbn [Organizer.pack]. rewrite Ef.
  destruct (count =? 0); [|destruct (_ <=? _)%Z]; f_equal; apply IH; exact Erest.
Qed.

Lemma organize_reads_fields (o : IGalleryOptions) (W : Z) (items items' : list Item) :
  map fields items = map fields items' ->
  Organizer.organize o W items = Organizer.organize o W items'.
Proof. apply pack_reads_fields. Qed.

Lemma organize_idempotent (o : IGalleryOptions) (W : Z) (items : list Item) :
  Organizer.organize o W (Organizer.organize o W items) = Organizer.organize o W items.
Proof. apply organize_reads_fields, organize_fields. Qed.

Lemma getRowsPerPage_zero_rowHeight_witness :
  limit (options Sample.flat) = 0%Z /\ rowHeight (options Sample.flat) = 0%Z /\
  (0 < winHeight Sample.viewport - bodyOffsetTop Sample.viewport <= 4000)%Z /\
  getRowsPerPage Sample.viewport Sample.flat = JS.PInf.
Proof.
  assert (H1 : limit (options Sample.flat) = 0%Z) by reflexivity.
  assert (H2 : rowHeight (options Sample.flat) = 0%Z) by reflexivity.
  assert (H3 : (0 < winHeight Sample.viewport - bodyOffsetTop Sample.viewport <= 4000)%Z)
    by (cbn; lia).
  split; [exact H1|]. split; [exact H2|]. split; [exact H3|].
  exact (proj1 (proj2 (proj2 (@getRowsPerPage_zero_rowHeight
                                Sample.viewport Sample.flat H1 H2))) H3).
Defined.

Lemma history_well_formed_witness :
  well_formed Sample.narrow /\
  let g' := history Organizer.organize Organizer.simulatePagination
              Sample.events Sample.narrow in
  materialized_prefix g' /\ monotone (rows_of (collection g')) /\
  length (pswpContainer g') <= length (collection g').
Proof.
  assert (H : well_formed Sample.narrow) by apply new_Gallery_well_formed.
  split; [exact H|].
  exact (@history_well_formed Organizer.organize Organizer.simulatePagination
           organize_fields organize_monotone Sample.events Sample.narrow H).
Defined.

Lemma never_throws_with_counters_witness :
  well_formed Sample.with_counters /\ imagesContainer Sample.with_counters <> None /\
  returns (fire Organizer.organize Organizer.simulatePagination (EvScroll Sample.scrolled)
             (history Organizer.organize Organizer.simulatePagination
                Sample.events Sample.with_counters)) = true /\
  returns (fire Organizer.organize Organizer.simulatePagination
             (EvAddItems (JsObject true true None) Sample.viewport)
             (history Organizer.organize Organizer.simulatePagination
                Sample.events Sample.with_counters)) = false.
Proof.
  assert (H1 : well_formed Sample.with_counters) by apply new_Gallery_well_formed.
  assert (H2 : imagesContainer Sample.with_counters <> None) by (cbn; discriminate).
  split; [exact H1|]. split; [exact H2|]. split.
  - exact (@never_throws_with_counters Organizer.organize Organizer.simulatePagination
             organize_fields organize_monotone Sample.events (EvScroll Sample.scrolled)
             Sample.with_counters H1 H2).
  - exact (@never_throws_with_counters Organizer.organize Organizer.simulatePagination
             organize_fields organize_monotone Sample.events
             (EvAddItems (JsObject true true None) Sample.viewport)
             Sample.with_counters H1 H2).
Defined.

Lemma history_in_lockstep_witness :
  well_formed Sample.narrow /\ rendered_prefix Sample.narrow /\
  let g' := history Organizer.organize Organizer.simulatePagination
              Sample.events Sample.narrow in
  rendered_prefix g' /\
  pswpContainer g' = map getPswpItem (firstn (length (pswpContainer g')) (collection g')) /\
  length (bodyItems g') = length (pswpContainer g') /\
  incl (bodyItems g') (map fields (collection g')).
Proof.
  assert (H1 : well_formed Sample.narrow) by apply new_Gallery_well_formed.
  assert (H2 : rendered_prefix Sample.narrow) by reflexivity.
  split; [exact H1|]. split; [exact H2|].
  exact (@history_in_lockstep Organizer.organize Organizer.simulatePagination
           organize_fields organize_monotone Sample.events Sample.narrow H1 H2).
Defined.

Lemma resize_keeps_what_was_shown_witness :
  well_formed Sample.three_rows /\
  containerWidth Sample.wide <> bodyWidth Sample.three_rows /\
  let g' := state_of (resize Organizer.organize Sample.wide Sample.three_rows) in
  map fields (collection g') = map fields (collection Sample.three_rows) /\
  starts_with (pswpContainer g') (pswpContainer Sample.three_rows) /\
  exists L, pswpContainer g' = map getPswpItem (filter (below L) (collection g')).
Proof.
  assert (H1 : well_formed Sample.three_rows).
  { split.
    - apply rows_from_zero_monotone. rows_ok.
    - exists 6. split; [vm_compute; lia | vm_compute; reflexivity]. }
  assert (H2 : containerWidth Sample.wide <> bodyWidth Sample.three_rows)
    by (vm_compute; discriminate).
  split; [exact H1|]. split; [exact H2|].
  exact (@resize_keeps_what_was_shown Organizer.organize organize_fields organize_monotone
           Sample.wide Sample.three_rows H1 H2).
Defined.

Lemma refresh_twice_witness :
  let g1 := state_of (refresh Organizer.organize Sample.wide Sample.three_rows) in
  let g2 := state_of (refresh Organizer.organize Sample.wide g1) in
  collection g2 = collection g1 /\ pswpContainer g2 = pswpContainer g1 /\
  bodyItems g2 = bodyItems g1 /\ nextButton g2 = nextButton g1 /\
  noResults g2 = noResults g1.
Proof.
  exact (@refresh_twice Organizer.organize organize_idempotent Sample.wide Sample.three_rows).
Defined.



Lemma getMaxImagesPerRow_hole_witness :
  let g := Sample.showing 0 (Sample.with_rows [0; 2]) in
  In 2 (rows_of (collection g)) /\ 1 < 2 /\ ~ In 1 (rows_of (collection g)) /\
  getMaxImagesPerRow g = JS.NaN.
Proof.
  assert (H1 : In 2 (rows_of (collection (Sample.showing 0 (Sample.with_rows [0; 2])))))
    by (cbn; auto).
  assert (H2 : 1 < 2) by lia.
  assert (H3 : ~ In 1 (rows_of (collection (Sample.showing 0 (Sample.with_rows [0; 2])))))
    by (cbn; intros [H|[H|[]]]; discriminate H).
  split; [exact H1|]. split; [exact H2|]. split; [exact H3|].
  exact (proj1 (@getMaxImagesPerRow_hole Organizer.simulatePagination _ 1 2 H1 H2 H3)).
Defined.

Lemma onNextClick_asks_for_a_page_witness :
  has_pagination Sample.three_rows = true /\ collection Sample.three_rows <> [] /\
  rows_from_zero (rows_of (collection Sample.three_rows)) /\
  materialized_prefix Sample.three_rows /\
  pagination_calls
    (state_of (onNextClick Organizer.simulatePagination Sample.viewport Sample.three_rows))
  = [(12, JS.Int 6)].
Proof.
  assert (H1 : has_pagination Sample.three_rows = true) by reflexivity.
  assert (H2 : collection Sample.three_rows <> []) by (vm_compute; discriminate).
  assert (H3 : rows_from_zero (rows_of (collection Sample.three_rows))) by rows_ok.
  assert (H4 : materialized_prefix Sample.three_rows).
  { exists 6. split; [vm_compute; lia | vm_compute; reflexivity]. }
  split; [exact H1|]. split; [exact H2|]. split; [exact H3|]. split; [exact H4|].
  rewrite (proj2 (proj2 (proj2 (proj2 (@onNextClick_asks_for_a_page
                                         Organizer.simulatePagination
                                         Sample.viewport Sample.three_rows H1 H2 H3 H4))))
             3%Z ltac:(vm_compute; reflexivity) ltac:(vm_compute; reflexivity)).
  vm_compute. reflexivity.
Defined.

Lemma selection_without_duplicates_witness :
  NoDup (selected Sample.selection) /\
  NoDup (selected (selecting_of (select Nat.eq_dec Sample.square 3 Sample.selection))) /\
  NoDup (selected (selecting_of (unselect Nat.eq_dec Sample.square 1 Sample.selection))).
Proof.
  assert (H : NoDup (selected Sample.selection)).
  { cbn. repeat constructor; cbn; intros H; repeat destruct H as [H|H]; try discriminate H;
      exact H. }
  split; [exact H|]. split.
  - exact (proj1 (@selection_without_duplicates nat Nat.eq_dec Sample.square 3 _ H)).
  - exact (proj1 (proj2 (@selection_without_duplicates nat Nat.eq_dec Sample.square 1 _ H))).
Defined.

Lemma select_then_unselect_witness :
  ~ In 3 (selected Sample.selection) /\
  selected (selecting_of
              (unselect Nat.eq_dec Sample.square 3
                 (selecting_of (select Nat.eq_dec Sample.square 3 Sample.selection))))
  = [1; 2].
Proof.
  assert (H : ~ In 3 (selected Sample.selection))
    by (cbn; intros [H|[H|[]]]; discriminate H).
  split; [exact H|].
  exact (proj1 (@select_then_unselect nat Nat.eq_dec Sample.square 3 Sample.selection H)).
Defined.

Lemma selection_hook_witness :
  In 1 (selected Sample.selection) /\
  select Nat.eq_dec Sample.square 1 Sample.selection = SelectReturn Sample.selection /\
  ~ In 3 (selected Sample.selection) /\
  unselect Nat.eq_dec Sample.square 3 Sample.selection = SelectReturn Sample.selection.
Proof.
  assert (H1 : In 1 (selected Sample.selection)) by (cbn; auto).
  assert (H2 : ~ In 3 (selected Sample.selection))
    by (cbn; intros [H|[H|[]]]; discriminate H).
  split; [exact H1|]. split.
  - exact (proj1 (@selection_hook nat Nat.eq_dec Sample.square 1 Sample.selection) H1).
  - split; [exact H2|].
    exact (proj1 (proj2 (@selection_hook nat Nat.eq_dec Sample.square 3 Sample.selection)) H2).
Defined.

Lemma addItems_in_batches_witness :
  collection
    (state_of (addItems Organizer.organize (JsArray (Sample.squares 5)) Sample.wide
                 (state_of (addItems Organizer.organize (JsArray (Sample.squares 7))
                              Sample.viewport Sample.narrow))))
  = collection
      (state_of (addItems Organizer.organize
                   (JsArray (Sample.squares 7 ++ Sample.squares 5))
                   Sample.viewport Sample.narrow)).
Proof.
  exact (@addItems_in_batches Organizer.organize organize_fields organize_reads_fields
           (Sample.squares 7) (Sample.squares 5) Sample.viewport Sample.wide
           Sample.viewport Sample.narrow).
Defined.
